(** * WafGuard / SentinelTest: the response validator and the suite runner

    A shallow embedding of the execution and validation engine of the
    repository:

    - [validator]: [pkg/validator/response.go]
      ([Validate], [validateStatusCode], [validateHeaders], [validateBody],
      [ValidateMultiple]);
    - [reporter]: the report constructors of [internal/reporter/results.go];
    - [client]: [runTests] of [pkg/client/client.go];
    - [main]: [executeTestsSequentially], [executeTestsConcurrently] and
      [executeTests] of the command-line entry point.

    Go values are modelled as follows.  An [int] is a [Z] (the code only
    compares and prints status codes), a [string] is a [string] of bytes, a
    [map[string]string] is a [gmap string string], a slice is a [list], a
    nilable [*BodyExpected] is an [option]; the other pointers the functions
    are handed are taken to be non-nil.  A function that mutates the
    [*ValidationResult] it is handed becomes a function from the old record
    to the new one.  What the code takes from outside (the order in which a
    map is visited, package [regexp], the HTTP exchange and the clock) is a
    parameter of the model.  The goroutines of the concurrent runner are
    modelled by an interleaving of their statements, chosen by a scheduler.
    The logger calls and the printing and saving of reports have no effect
    on any returned value and are left out.

    Part I is the program, Part II the vocabulary of the statements, Part
    III a set of concrete inputs, Part IV the properties, and Part V the
    program and the properties on the concrete inputs. *)

From Stdlib Require Import Ascii.
From stdpp Require Import gmap strings list fin_maps pretty.

Local Open Scope string_scope.
Local Open Scope list_scope.
Local Open Scope nat_scope.

(* ===================================================================== *)
(** * Part I: the program                                                 *)
(* ===================================================================== *)

(** ** The pieces of the Go runtime and standard library the code calls *)

Module golang.

(** [strings.HasPrefix]. *)
Fixpoint HasPrefix (s prefix : string) {struct prefix} : bool :=
  match prefix with
  | EmptyString => true
  | String p prefix' =>
      match s with
      | EmptyString => false
      | String c s' => if decide (c = p) then HasPrefix s' prefix' else false
      end
  end.

(** [strings.Contains]: [substr] occurs somewhere within [s]. *)
Fixpoint Contains (s substr : string) : bool :=
  HasPrefix s substr ||
  match s with
  | EmptyString => false
  | String _ s' => Contains s' substr
  end.

(** [fmt]'s [%d] on an [int]. *)
Definition fmt_d (n : Z) : string := pretty n.

(** [fmt]'s [%v] on an [[]int]: the elements in decimal, separated by one
    space, between square brackets. *)
Definition fmt_v_ints (l : list Z) : string :=
  "[" +:+ String.concat " " (fmt_d <$> l) +:+ "]".

(** The order in which a [for k, v := range m] loop visits a map is not
    specified by the language.  A [MapOrder] is one choice of it: some
    enumeration of the entries of the map, each exactly once. *)
Class MapOrder := {
  map_range : gmap string string → list (string * string);
  map_range_perm : ∀ m, map_range m ≡ₚ map_to_list m
}.

(** Package [regexp], as far as the validator uses it: [Compile] either
    yields a compiled expression or an error (whose [Error()] text is the
    string), and a compiled expression can be asked whether a string
    contains a match. *)
Class RegexpEngine := {
  Regexp : Type;
  Compile : string → Regexp + string;
  Regexp_MatchString : Regexp → string → bool;
  (* the empty pattern is a valid expression *)
  Compile_empty : ∃ re, Compile "" = inl re
}.

(** [regexp.MatchString(pattern, s)]: compile, then search.  The pair is
    Go's [(matched, err)]. *)
Definition MatchString `{RegexpEngine} (pattern s : string) : bool * option string :=
  match Compile pattern with
  | inr err => (false, Some err)
  | inl re => (Regexp_MatchString re s, None)
  end.

(** A call either returns or panics. *)
Inductive outcome (A : Type) : Type :=
| Returned (a : A)
| Panicked (msg : string).
Global Arguments Returned {A} a.
Global Arguments Panicked {A} msg.

(** [strings.Join]: nothing for no element, the element itself for one,
    and otherwise the first element followed by each further element behind
    a separator, as the builder loop writes them. *)
Definition Join (elems : list string) (sep : string) : string :=
  match elems with
  | [] => ""
  | first :: rest => foldl (λ b s, b +:+ sep +:+ s) first rest
  end.

(** The order of a [range] loop over a map with values of type [V]: as for
    [MapOrder], some enumeration of the entries, each exactly once. *)
Class RangeOrder (V : Type) := {
  range : gmap string V → list (string * V);
  range_perm : ∀ m, range m ≡ₚ map_to_list m
}.

(** The variable of a [for ... range] loop.  Before Go 1.22 a loop has one
    variable, to which the elements are assigned in turn; from Go 1.22 on
    each iteration has a variable of its own.  Which of the two holds is
    selected by the [go] line of the module file, which is not among the
    sources: it is taken as given. *)
Class LoopVar := {
  perIteration : bool
}.

End golang.

(** ** [internal/core/config/types.go] *)

Module config.

Record Request := {
  Method : string;
  Path : string;
  ReqHeaders : gmap string string;
  ReqBody : string
}.

Record BodyExpected := {
  Contains : list string;
  NotContains : list string;
  Exact : string;
  Regex : string
}.

Record Expected := {
  Status : list Z;
  Headers : gmap string string;
  Body : option BodyExpected
}.

Record Test := {
  Name : string;
  Request_ : Request;
  Expected_ : Expected
}.

Record Target := {
  BaseURL : string;
  Timeout : Z
}.

Record Spec := {
  Target_ : Target;
  Tests : list Test
}.

Record Metadata := {
  MetaName : string;
  Description : string
}.

Record SentinelTest := {
  APIVersion : string;
  Kind : string;
  Metadata_ : Metadata;
  Spec_ : Spec
}.

End config.

(** ** [executor.Response] *)

Module executor.

Record Response := {
  StatusCode : Z;
  Headers : gmap string string;
  Body : string;
  Duration : Z
}.

(** [extractHeaders]: [headers] is an [http.Header], a map from a key to
    the list of its values; every entry of the result is written by one
    iteration of the loop. *)
Definition extractHeaders `{golang.RangeOrder (list string)}
    (headers : gmap string (list string)) : gmap string string :=
  foldl (λ result entry, <[entry.1 := golang.Join entry.2 ", "]> result) ∅
    (golang.range headers).

(** The timeout [NewHTTPExecutor] gives the HTTP client of the executor:
    30 seconds when it is called with 0. *)
Definition clientTimeout (timeout : Z) : Z :=
  if decide (timeout = 0)%Z then (30 * 1000000000)%Z else timeout.

End executor.

(** ** [pkg/validator/response.go] *)

Module validator.

Record ValidationResult := {
  Passed : bool;
  Errors : list string;
  Warnings : list string
}.

(** [result.Errors = append(result.Errors, msg)] *)
Definition appendError (result : ValidationResult) (msg : string) : ValidationResult :=
  {| Passed := Passed result;
     Errors := Errors result ++ [msg];
     Warnings := Warnings result |}.

(** [result.Warnings = append(result.Warnings, msg)] *)
Definition appendWarning (result : ValidationResult) (msg : string) : ValidationResult :=
  {| Passed := Passed result;
     Errors := Errors result;
     Warnings := Warnings result ++ [msg] |}.

(** [result.Passed = b] *)
Definition setPassed (result : ValidationResult) (b : bool) : ValidationResult :=
  {| Passed := b;
     Errors := Errors result;
     Warnings := Warnings result |}.

(** The messages built with [fmt.Sprintf]. *)
Definition statusMismatch (expected : list Z) (actual : Z) : string :=
  "Status code mismatch: expected one of " +:+ golang.fmt_v_ints expected
    +:+ ", got " +:+ golang.fmt_d actual.

Definition missingHeader (key : string) : string :=
  "Missing expected header: " +:+ key.

Definition headerMismatch (key expectedValue actualValue : string) : string :=
  "Header value mismatch for " +:+ key +:+ ": expected to contain '"
    +:+ expectedValue +:+ "', got '" +:+ actualValue +:+ "'".

Definition exactMismatch (exact body : string) : string :=
  "Body exact match failed: expected '" +:+ exact +:+ "', got '" +:+ body +:+ "'".

Definition invalidRegex (pattern err : string) : string :=
  "Invalid regex pattern '" +:+ pattern +:+ "': " +:+ err.

Definition regexMismatch (pattern : string) : string :=
  "Body regex match failed: pattern '" +:+ pattern
    +:+ "' did not match response body".

Definition containsMissing (s : string) : string :=
  "Body should contain '" +:+ s +:+ "' but it was not found".

Definition notContainsFound (s : string) : string :=
  "Body should not contain '" +:+ s +:+ "' but it was found".

(** The [for _, expectedStatus := range expected.Status] loop of
    [validateStatusCode]: [true] when the loop returns from the function
    at a matching element, [false] when it runs to its end. *)
Fixpoint statusLoop (actual : Z) (status : list Z) : bool :=
  match status with
  | [] => false
  | expectedStatus :: rest =>
      if decide (actual = expectedStatus) then true
      else statusLoop actual rest
  end.

Definition validateStatusCode (response : executor.Response)
    (expected : config.Expected) (result : ValidationResult) : ValidationResult :=
  if decide (length (config.Status expected) = 0) then
    appendWarning result "No expected status codes defined"
  else if statusLoop (executor.StatusCode response) (config.Status expected) then
    result
  else
    appendError result
      (statusMismatch (config.Status expected) (executor.StatusCode response)).

(** One iteration of the loop of [validateHeaders]. *)
Definition headerStep (response : executor.Response)
    (result : ValidationResult) (entry : string * string) : ValidationResult :=
  let '(expectedKey, expectedValue) := entry in
  match executor.Headers response !! expectedKey with
  | None => appendError result (missingHeader expectedKey)
  | Some actualValue =>
      if negb (golang.Contains actualValue expectedValue) then
        appendError result (headerMismatch expectedKey expectedValue actualValue)
      else result
  end.

(** One iteration of each of the two loops that end [validateBody]. *)
Definition containsStep (body : string) (result : ValidationResult)
    (expectedContains : string) : ValidationResult :=
  if negb (golang.Contains body expectedContains) then
    appendError result (containsMissing expectedContains)
  else result.

Definition notContainsStep (body : string) (result : ValidationResult)
    (expectedNotContains : string) : ValidationResult :=
  if golang.Contains body expectedNotContains then
    appendError result (notContainsFound expectedNotContains)
  else result.

Section validator_code.
Context `{ord : golang.MapOrder} `{eng : golang.RegexpEngine}.

Definition validateHeaders (response : executor.Response)
    (expected : config.Expected) (result : ValidationResult) : ValidationResult :=
  if decide (size (config.Headers expected) = 0) then result
  else foldl (headerStep response) result
         (golang.map_range (config.Headers expected)).

Definition validateBody (response : executor.Response)
    (expected : config.Expected) (result : ValidationResult) : ValidationResult :=
  match config.Body expected with
  | None => result
  | Some bodyExpected =>
      if decide (config.Exact bodyExpected ≠ "") then
        if decide (executor.Body response ≠ config.Exact bodyExpected) then
          appendError result
            (exactMismatch (config.Exact bodyExpected) (executor.Body response))
        else result
      else if decide (config.Regex bodyExpected ≠ "") then
        match golang.MatchString (config.Regex bodyExpected) (executor.Body response) with
        | (_, Some err) =>
            appendError result (invalidRegex (config.Regex bodyExpected) err)
        | (matched, None) =>
            if negb matched then
              appendError result (regexMismatch (config.Regex bodyExpected))
            else result
        end
      else
        let result :=
          foldl (containsStep (executor.Body response)) result
            (config.Contains bodyExpected) in
        foldl (notContainsStep (executor.Body response)) result
          (config.NotContains bodyExpected)
  end.

Definition Validate (response : executor.Response)
    (expected : config.Expected) (testName : string) : ValidationResult :=
  let result := {| Passed := true; Errors := []; Warnings := [] |} in
  let result := validateStatusCode response expected result in
  let result := validateHeaders response expected result in
  let result := validateBody response expected result in
  if decide (0 < length (Errors result)) then setPassed result false
  else result.

(** The loop of [ValidateMultiple]: [results[i] = v.Validate(responses[i],
    expected[i], testNames[i])] for the indices [is] in turn.  An index
    outside one of the slices is Go's run-time panic. *)
Fixpoint validateLoop (responses : list executor.Response)
    (expected : list config.Expected) (testNames : list string)
    (results : list (option ValidationResult)) (indices : list nat)
    : golang.outcome (list (option ValidationResult)) :=
  match indices with
  | [] => golang.Returned results
  | i :: rest =>
      match responses !! i, expected !! i, testNames !! i with
      | Some r, Some e, Some n =>
          if decide (i < length results) then
            validateLoop responses expected testNames
              (<[i := Some (Validate r e n)]> results) rest
          else golang.Panicked "index out of range"
      | _, _, _ => golang.Panicked "index out of range"
      end
  end.

(** [results] is allocated with [make]: a slice of [len(responses)] nil
    pointers ([None]), filled in by the loop. *)
Definition ValidateMultiple (responses : list executor.Response)
    (expected : list config.Expected) (testNames : list string)
    : golang.outcome (list (option ValidationResult)) :=
  if decide (length responses ≠ length expected ∨ length responses ≠ length testNames)
  then golang.Panicked "mismatched lengths in ValidateMultiple"
  else validateLoop responses expected testNames
         (replicate (length responses) None) (seq 0 (length responses)).

End validator_code.

End validator.

(** ** The world outside the process

    The HTTP exchange and the clock are the two things the runner reads
    from outside.  [ExecuteTest test baseURL w] is the whole of
    [HTTPExecutor.ExecuteTest]: it yields either the response snapshot or
    the error the executor returns (as its [Error()] text), and the world
    after the exchange.  [time_Now] reads the clock of a world, in
    nanoseconds; time passes only while a request is executed. *)

Module world.

Class World := {
  W : Type;
  ExecuteTest : config.Test → string → W → (executor.Response + string) * W;
  time_Now : W → Z
}.

(** [ExecuteTestWithContext] differs from [ExecuteTest] in attaching the
    context to the request; the runner always passes
    [context.Background()], which is never cancelled. *)
Definition ExecuteTestWithContext `{World} (test : config.Test) (baseURL : string)
    (w : W) : (executor.Response + string) * W :=
  ExecuteTest test baseURL w.

(** The exchanges of the executors.  An executor is built with a timeout,
    that of its HTTP client; [ExecuteWith timeout] is [ExecuteTest] of an
    executor whose client has the timeout [timeout]. *)
Class Executors := {
  EW : Type;
  ExecuteWith : Z → config.Test → string → EW → (executor.Response + string) * EW;
  clock_Now : EW → Z
}.

(** [NewHTTPExecutor]: the world of the exchanges of the executor it
    builds. *)
Definition NewHTTPExecutor `{Executors} (timeout : Z) : World :=
  {| W := EW;
     ExecuteTest := ExecuteWith (executor.clientTimeout timeout);
     time_Now := clock_Now |}.

(** A cancellable context over a world.  [ctx_Err w] is [Some e] when the
    channel [ctx.Done()] is closed in world [w], [e] being the text of
    [ctx.Err()]; [ExecuteTestCtx] is [HTTPExecutor.ExecuteTestWithContext]
    under that context. *)
Class Ctx `{World} := {
  ctx_Err : W → option string;
  ExecuteTestCtx : config.Test → string → W → (executor.Response + string) * W
}.

End world.

(** ** [internal/reporter/results.go] *)

Module reporter.

Record TestReport := {
  TestName : string;
  Status : string;
  Duration : Z;
  Request : config.Request;
  Response : executor.Response;
  ValidationResult : validator.ValidationResult;
  Timestamp : Z
}.

Record SuiteReport := {
  SuiteName : string;
  TotalTests : nat;
  PassedTests : nat;
  FailedTests : nat;
  SuiteDuration : Z;
  Tests : list TestReport;
  SuiteTimestamp : Z
}.

(** [now] is the value [time.Now()] has when the report is built. *)
Definition GenerateTestReport (testName : string) (request : config.Request)
    (response : executor.Response) (validation : validator.ValidationResult)
    (duration now : Z) : TestReport :=
  let status := "PASS" in
  let status := if negb (validator.Passed validation) then "FAIL" else status in
  {| TestName := testName;
     Status := status;
     Duration := duration;
     Request := request;
     Response := response;
     ValidationResult := validation;
     Timestamp := now |}.

(** One iteration of the counting loop of [GenerateSuiteReport], on the
    pair [(passed, failed)]. *)
Definition countStep (acc : nat * nat) (report : TestReport) : nat * nat :=
  if decide (Status report = "PASS") then (S (fst acc), snd acc)
  else (fst acc, S (snd acc)).

Definition GenerateSuiteReport (suiteName : string) (testReports : list TestReport)
    (totalDuration now : Z) : SuiteReport :=
  let '(passed, failed) := foldl countStep (0, 0) testReports in
  {| SuiteName := suiteName;
     TotalTests := length testReports;
     PassedTests := passed;
     FailedTests := failed;
     SuiteDuration := totalDuration;
     Tests := testReports;
     SuiteTimestamp := now |}.

End reporter.

(** ** [pkg/parser/yaml.go] *)

Module parser.

(** The loop of [filepath.Ext], which reads the path from its end: it stops
    at a separator with no extension, and at a dot with the text from that
    dot on.  [reversed] is what is still to be read, last byte first, and
    [suffix] what has been read. *)
Fixpoint extScan (reversed suffix : list ascii) : string :=
  match reversed with
  | [] => ""
  | c :: before =>
      if decide (c = "/"%char) then ""
      else if decide (c = "."%char) then String.string_of_list_ascii (c :: suffix)
      else extScan before (c :: suffix)
  end.

(** [filepath.Ext], with [/] as the path separator. *)
Definition Ext (path : string) : string :=
  extScan (reverse (String.list_ascii_of_string path)) [].

(** One call of the function [filepath.Walk] is given: the path, whether it
    is a directory, and the error of visiting it, if any. *)
Record WalkEntry := {
  entryPath : string;
  entryIsDir : bool;
  entryErr : option string
}.

(** The file system: the content of a file or the error of reading it, the
    calls [filepath.Walk] makes under a root as long as the function it
    calls returns no error, and [os.Stat], which tells whether a path is a
    directory or gives an error. *)
Class FileSystem := {
  ReadFile : string → string + string;
  Walk : string → list WalkEntry;
  Stat : string → bool + string
}.

(** [yaml.Unmarshal] into a [config.WafTest] and the struct validation of
    [validator.Struct]; an error is given by its text. *)
Class Decoder := {
  Unmarshal : string → config.SentinelTest + string;
  Struct : config.SentinelTest → option string
}.

Section parser_code.
Context `{fs : FileSystem} `{dec : Decoder}.

Definition ParseYAML (data : string) : config.SentinelTest + string :=
  match Unmarshal data with
  | inr err => inr ("failed to parse YAML: " +:+ err)
  | inl wafTest =>
      match Struct wafTest with
      | Some err => inr ("validation failed: " +:+ err)
      | None => inl wafTest
      end
  end.

Definition ParseFile (filename : string) : config.SentinelTest + string :=
  match ReadFile filename with
  | inr err => inr ("failed to read file " +:+ filename +:+ ": " +:+ err)
  | inl data => ParseYAML data
  end.

(** The function literal [ParseDirectory] hands to [filepath.Walk], on the
    slice [tests] it closes over. *)
Definition walkFn (tests : list config.SentinelTest) (entry : WalkEntry)
    : list config.SentinelTest + string :=
  match entryErr entry with
  | Some err => inr err
  | None =>
      if negb (entryIsDir entry)
         && (bool_decide (Ext (entryPath entry) = ".yaml")
             || bool_decide (Ext (entryPath entry) = ".yml"))
      then
        match ParseFile (entryPath entry) with
        | inr parseErr =>
            inr ("failed to parse " +:+ entryPath entry +:+ ": " +:+ parseErr)
        | inl test => inl (tests ++ [test])
        end
      else inl tests
  end.

(** [filepath.Walk] stops at the first error the function returns. *)
Fixpoint walkLoop (entries : list WalkEntry) (tests : list config.SentinelTest)
    : list config.SentinelTest + string :=
  match entries with
  | [] => inl tests
  | entry :: rest =>
      match walkFn tests entry with
      | inr err => inr err
      | inl tests => walkLoop rest tests
      end
  end.

Definition ParseDirectory (dir : string) : list config.SentinelTest + string :=
  match walkLoop (Walk dir) [] with
  | inr err => inr ("failed to parse directory " +:+ dir +:+ ": " +:+ err)
  | inl tests => inl tests
  end.

End parser_code.

End parser.

(** ** [pkg/client/client.go] *)

Module client.

Record TestResult := {
  TestName : string;
  Passed : bool;
  Duration : Z;
  Errors : list string;
  Warnings : list string
}.

Record SuiteResult := {
  SuiteName : string;
  TotalTests : nat;
  PassedTests : nat;
  FailedTests : nat;
  SuiteDuration : Z;
  TestResults : list TestResult
}.

Record Config := {
  Timeout : Z;
  OutputFile : string;
  Format : string;
  Concurrent : Z
}.

(** [NewClient]: the configuration with its defaults filled in. *)
Definition NewClient (cfg : Config) : Config :=
  {| Timeout := if decide (Timeout cfg = 0)%Z then (30 * 1000000000)%Z else Timeout cfg;
     OutputFile := OutputFile cfg;
     Format := if decide (Format cfg = "") then "text" else Format cfg;
     Concurrent := if decide (Concurrent cfg < 1)%Z then 1%Z else Concurrent cfg |}.

(** The executor of the client [NewClient] returns: it is built with the
    timeout of the configuration, after the defaults. *)
Definition executorOf `{world.Executors} (cfg : Config) : world.World :=
  world.NewHTTPExecutor (Timeout (NewClient cfg)).

Section client_code.
Context `{ord : golang.MapOrder} `{eng : golang.RegexpEngine} `{wld : world.World}.

(** The first loop of [runTests]. *)
Fixpoint runLoop (baseURL : string) (tests : list config.Test)
    (testResults : list TestResult) (w : world.W) : list TestResult * world.W :=
  match tests with
  | [] => (testResults, w)
  | test :: rest =>
      let testStart := world.time_Now w in
      let '(res, w) := world.ExecuteTest test baseURL w in
      match res with
      | inr err =>
          runLoop baseURL rest
            (testResults ++
               [{| TestName := config.Name test;
                   Passed := false;
                   Duration := world.time_Now w - testStart;
                   Errors := [err];
                   Warnings := [] |}]) w
      | inl response =>
          let validation :=
            validator.Validate response (config.Expected_ test) (config.Name test) in
          runLoop baseURL rest
            (testResults ++
               [{| TestName := config.Name test;
                   Passed := validator.Passed validation;
                   Duration := world.time_Now w - testStart;
                   Errors := validator.Errors validation;
                   Warnings := validator.Warnings validation |}]) w
      end
  end.

(** The second loop of [runTests]: [if result.Passed { passed++ }]. *)
Definition passedStep (passed : nat) (result : TestResult) : nat :=
  if Passed result then S passed else passed.

Definition runTests (wafTest : config.SentinelTest) (w : world.W)
    : SuiteResult * world.W :=
  let start := world.time_Now w in
  let '(testResults, w) :=
    runLoop (config.BaseURL (config.Target_ (config.Spec_ wafTest)))
      (config.Tests (config.Spec_ wafTest)) [] w in
  let passed := foldl passedStep 0 testResults in
  ({| SuiteName := config.MetaName (config.Metadata_ wafTest);
      TotalTests := length testResults;
      PassedTests := passed;
      FailedTests := length testResults - passed;
      SuiteDuration := world.time_Now w - start;
      TestResults := testResults |}, w).

End client_code.

Section client_context.
Context `{ord : golang.MapOrder} `{eng : golang.RegexpEngine} `{wld : world.World}
  `{ctx : !world.Ctx}.

(** The first loop of [runTestsWithContext]: the [select] at the head of
    each iteration returns from the function when the context is done. *)
Fixpoint ctxLoop (baseURL : string) (tests : list config.Test)
    (testResults : list TestResult) (w : world.W)
    : (list TestResult + string) * world.W :=
  match tests with
  | [] => (inl testResults, w)
  | test :: rest =>
      match world.ctx_Err w with
      | Some err => (inr err, w)
      | None =>
          let testStart := world.time_Now w in
          let '(res, w) := world.ExecuteTestCtx test baseURL w in
          match res with
          | inr err =>
              ctxLoop baseURL rest
                (testResults ++
                   [{| TestName := config.Name test;
                       Passed := false;
                       Duration := world.time_Now w - testStart;
                       Errors := [err];
                       Warnings := [] |}]) w
          | inl response =>
              let validation :=
                validator.Validate response (config.Expected_ test) (config.Name test) in
              ctxLoop baseURL rest
                (testResults ++
                   [{| TestName := config.Name test;
                       Passed := validator.Passed validation;
                       Duration := world.time_Now w - testStart;
                       Errors := validator.Errors validation;
                       Warnings := validator.Warnings validation |}]) w
          end
      end
  end%Z.

Definition runTestsWithContext (wafTest : config.SentinelTest) (w : world.W)
    : (SuiteResult + string) * world.W :=
  let start := world.time_Now w in
  match ctxLoop (config.BaseURL (config.Target_ (config.Spec_ wafTest)))
          (config.Tests (config.Spec_ wafTest)) [] w with
  | (inr err, w) => (inr err, w)
  | (inl testResults, w) =>
      let passed := foldl passedStep 0 testResults in
      (inl {| SuiteName := config.MetaName (config.Metadata_ wafTest);
              TotalTests := length testResults;
              PassedTests := passed;
              FailedTests := length testResults - passed;
              SuiteDuration := (world.time_Now w - start)%Z;
              TestResults := testResults |}, w)
  end.

End client_context.

Section client_files.
Context `{ord : golang.MapOrder} `{eng : golang.RegexpEngine} `{wld : world.World}
  `{fs : parser.FileSystem} `{dec : parser.Decoder}.

Definition RunTestFile (filename : string) (w : world.W)
    : (SuiteResult + string) * world.W :=
  match parser.ParseFile filename with
  | inr err => (inr err, w)
  | inl wafTest => let '(result, w) := runTests wafTest w in (inl result, w)
  end.

(** [allTests = append(allTests, wafTest.Spec.Tests...)] over the suites. *)
Definition combine (wafTests : list config.SentinelTest) : list config.Test :=
  foldl (λ allTests wafTest, allTests ++ config.Tests (config.Spec_ wafTest)) [] wafTests.

Definition RunTestDirectory (dir : string) (w : world.W)
    : (SuiteResult + string) * world.W :=
  match parser.ParseDirectory dir with
  | inr err => (inr err, w)
  | inl wafTests =>
      let allTests := combine wafTests in
      match wafTests with
      | [] =>
          (inl {| SuiteName := "Empty Directory"; TotalTests := 0; PassedTests := 0;
                  FailedTests := 0; SuiteDuration := 0; TestResults := [] |}, w)
      | first :: _ =>
          let combinedTest :=
            {| config.APIVersion := ""; config.Kind := "";
               config.Metadata_ :=
                 {| config.MetaName := "Combined Tests"; config.Description := "" |};
               config.Spec_ :=
                 {| config.Target_ := config.Target_ (config.Spec_ first);
                    config.Tests := allTests |} |} in
          let '(result, w) := runTests combinedTest w in (inl result, w)
      end
  end.

End client_files.

End client.

(** ** The command-line runner ([package main]) *)

Module main.

(** *** State of a concurrent run

    [executeTestsConcurrently] starts one goroutine per test.  The position
    of a goroutine in the body of its function literal is a [pc]; the
    statement it is about to execute is named in the comment.  The last
    three positions are the return path, where the deferred calls run in
    reverse order of their [defer]; they remember the report the goroutine
    appended, if any. *)
Inductive pc : Type :=
| AtAcquire                                              (* semaphore <- struct{}{} *)
| AtExecute                                              (* start := time.Now(); the request goes out *)
| InFlight (start : Z)                                   (* ExecuteTestWithContext returns; Validate; GenerateTestReport *)
| AtLock (report : reporter.TestReport)                  (* mu.Lock() *)
| AtAppend (report : reporter.TestReport)                (* reports = append(reports, *report) *)
| AtUnlock (report : reporter.TestReport)                (* mu.Unlock() *)
| AtPrint (report : reporter.TestReport)                 (* rep.PrintTestReport(report) *)
| AtRelease (merged : option reporter.TestReport)        (* deferred: <-semaphore *)
| AtDone (merged : option reporter.TestReport)           (* deferred: wg.Done() *)
| Finished (merged : option reporter.TestReport).

(** The calling goroutine is either in its [for] loop, with the tests it
    has still to start ([wg.Wait()] follows the loop), or it has returned
    the slice [reports]. *)
Inductive mainpc : Type :=
| Spawning (pending : list config.Test)
| Returned (reports : list reporter.TestReport).

(** The executor [executeTests] builds for a suite, with the timeout of the
    target of the suite. *)
Definition executorFor `{world.Executors} (test : config.SentinelTest) : world.World :=
  world.NewHTTPExecutor (config.Timeout (config.Target_ (config.Spec_ test))).

Section runner.
Context `{ord : golang.MapOrder} `{eng : golang.RegexpEngine} `{wld : world.World}.
Context `{lv : golang.LoopVar}.

Record state := {
  mainPC : mainpc;
  goroutines : list (config.Test * pc);
  semaphore : nat;                      (* len(semaphore) *)
  mu : bool;                            (* true: locked *)
  wg : nat;                             (* the WaitGroup counter *)
  reports : list reporter.TestReport;
  theWorld : world.W
}.

(** Who takes the next step is up to the scheduler. *)
Inductive label : Type :=
| Main
| Go (i : nat).

(** *** [executeTestsSequentially] *)

(** A report of the sequential loop is built with [&test.Request], the
    address of a field of the range variable [test], and the field [Request]
    of a report stands for the request found at the address the report
    holds.  In a loop with one variable, the assignment of an element to
    [test] changes the request found there, for every report built so far;
    in a loop with a variable for each iteration it changes nothing. *)
Definition rangeAssign (test : config.Test) (reports : list reporter.TestReport)
    : list reporter.TestReport :=
  (λ report,
     if golang.perIteration then report
     else {| reporter.TestName := reporter.TestName report;
             reporter.Status := reporter.Status report;
             reporter.Duration := reporter.Duration report;
             reporter.Request := config.Request_ test;
             reporter.Response := reporter.Response report;
             reporter.ValidationResult := reporter.ValidationResult report;
             reporter.Timestamp := reporter.Timestamp report |}) <$> reports.

(** The loop over the tests; [reports] is the slice of the function, which
    holds reports of this loop only. *)
Fixpoint sequentialLoop (baseURL : string) (tests : list config.Test)
    (reports : list reporter.TestReport) (w : world.W)
    : list reporter.TestReport * world.W :=
  match tests with
  | [] => (reports, w)
  | test :: rest =>
      let reports := rangeAssign test reports in
      let start := world.time_Now w in
      let '(res, w) := world.ExecuteTest test baseURL w in
      match res with
      | inr err =>
          (* the error is logged *)
          sequentialLoop baseURL rest reports w
      | inl response =>
          let validation :=
            validator.Validate response (config.Expected_ test) (config.Name test) in
          let duration := world.time_Now w - start in
          let report :=
            reporter.GenerateTestReport (config.Name test) (config.Request_ test)
              response validation duration (world.time_Now w) in
          sequentialLoop baseURL rest (reports ++ [report]) w
      end
  end%Z.

Definition executeTestsSequentially (sentinelTest : config.SentinelTest) (w : world.W)
    : list reporter.TestReport * world.W :=
  sequentialLoop (config.BaseURL (config.Target_ (config.Spec_ sentinelTest)))
    (config.Tests (config.Spec_ sentinelTest)) [] w.

(** *** [executeTestsConcurrently] *)

Definition initial (sentinelTest : config.SentinelTest) (w : world.W) : state :=
  {| mainPC := Spawning (config.Tests (config.Spec_ sentinelTest));
     goroutines := [];
     semaphore := 0;
     mu := false;
     wg := 0;
     reports := [];
     theWorld := w |}.

Definition setMain (s : state) (m : mainpc) (gs : list (config.Test * pc)) (n : nat) : state :=
  {| mainPC := m; goroutines := gs; semaphore := semaphore s; mu := mu s;
     wg := n; reports := reports s; theWorld := theWorld s |}.

(** One step of the calling goroutine: [wg.Add(1); go func(t){...}(test)]
    for the next test, or [wg.Wait(); return reports] after the loop;
    [wg.Wait()] blocks ([None]) while the counter is not zero. *)
Definition stepMain (s : state) : option state :=
  match mainPC s with
  | Spawning (test :: rest) =>
      Some (setMain s (Spawning rest) (goroutines s ++ [(test, AtAcquire)]) (S (wg s)))
  | Spawning [] =>
      if decide (wg s = 0) then Some (setMain s (Returned (reports s)) (goroutines s) 0)
      else None
  | Returned _ => None
  end.

(** One step of the goroutine started for test [t], at position [p].  The
    result is its next position and the shared variables; [None] when the
    goroutine is blocked (a full channel, a locked mutex) or has ended. *)
Definition stepGo (baseURL : string) (maxConcurrent : nat) (s : state)
    (i : nat) (t : config.Test) (p : pc) : option state :=
  let goto (p' : pc) (sem : nat) (m : bool) (n : nat)
        (rs : list reporter.TestReport) (w : world.W) : option state :=
    Some {| mainPC := mainPC s; goroutines := <[i := (t, p')]> (goroutines s);
            semaphore := sem; mu := m; wg := n; reports := rs; theWorld := w |} in
  match p with
  | AtAcquire =>
      if decide (semaphore s < maxConcurrent)
      then goto AtExecute (S (semaphore s)) (mu s) (wg s) (reports s) (theWorld s)
      else None
  | AtExecute =>
      goto (InFlight (world.time_Now (theWorld s)))
        (semaphore s) (mu s) (wg s) (reports s) (theWorld s)
  | InFlight start =>
      let '(res, w) := world.ExecuteTestWithContext t baseURL (theWorld s) in
      match res with
      | inr err =>
          (* the error is logged; return *)
          goto (AtRelease None) (semaphore s) (mu s) (wg s) (reports s) w
      | inl response =>
          let validation :=
            validator.Validate response (config.Expected_ t) (config.Name t) in
          let duration := (world.time_Now w - start)%Z in
          let report :=
            reporter.GenerateTestReport (config.Name t) (config.Request_ t)
              response validation duration (world.time_Now w) in
          goto (AtLock report) (semaphore s) (mu s) (wg s) (reports s) w
      end
  | AtLock report =>
      if mu s then None
      else goto (AtAppend report) (semaphore s) true (wg s) (reports s) (theWorld s)
  | AtAppend report =>
      goto (AtUnlock report) (semaphore s) (mu s) (wg s) (reports s ++ [report])%list (theWorld s)
  | AtUnlock report =>
      goto (AtPrint report) (semaphore s) false (wg s) (reports s) (theWorld s)
  | AtPrint report =>
      goto (AtRelease (Some report)) (semaphore s) (mu s) (wg s) (reports s) (theWorld s)
  | AtRelease merged =>
      match semaphore s with
      | 0 => None
      | S n => goto (AtDone merged) n (mu s) (wg s) (reports s) (theWorld s)
      end
  | AtDone merged =>
      match wg s with
      | 0 => None
      | S n => goto (Finished merged) (semaphore s) (mu s) n (reports s) (theWorld s)
      end
  | Finished _ => None
  end.

Definition step (baseURL : string) (maxConcurrent : nat) (l : label) (s : state)
    : option state :=
  match l with
  | Main => stepMain s
  | Go i =>
      match goroutines s !! i with
      | Some (t, p) => stepGo baseURL maxConcurrent s i t p
      | None => None
      end
  end.

(** A schedule is the sequence of choices of the scheduler. *)
Fixpoint run (baseURL : string) (maxConcurrent : nat) (schedule : list label)
    (s : state) : option state :=
  match schedule with
  | [] => Some s
  | l :: rest =>
      match step baseURL maxConcurrent l s with
      | Some s' => run baseURL maxConcurrent rest s'
      | None => None
      end
  end.

(** [executeTestsConcurrently] under a given schedule: what the call
    returns, when the schedule takes it to its [return]. *)
Definition executeTestsConcurrently (schedule : list label)
    (sentinelTest : config.SentinelTest) (maxConcurrent : nat) (w : world.W)
    : option (list reporter.TestReport * world.W) :=
  match run (config.BaseURL (config.Target_ (config.Spec_ sentinelTest)))
          maxConcurrent schedule (initial sentinelTest w) with
  | Some s =>
      match mainPC s with
      | Returned reports => Some (reports, theWorld s)
      | Spawning _ => None
      end
  | None => None
  end.

(** *** [executeTests] *)

(** The loop over the parsed suites; [schedules] gives the schedule of each
    concurrent run in turn. *)
Fixpoint suitesLoop (concurrent : Z) (schedules : list (list label))
    (tests : list config.SentinelTest) (allReports : list reporter.TestReport)
    (w : world.W) : option (list reporter.TestReport * world.W) :=
  match tests with
  | [] => Some (allReports, w)
  | test :: rest =>
      if decide (concurrent ≤ 1)%Z then
        let '(reports, w) := executeTestsSequentially test w in
        suitesLoop concurrent schedules rest (allReports ++ reports) w
      else
        match executeTestsConcurrently (hd [] schedules) test (Z.to_nat concurrent) w with
        | Some (reports, w) =>
            suitesLoop concurrent (tl schedules) rest (allReports ++ reports) w
        | None => None
        end
  end.

(** The suite report and the exit status of the process ([os.Exit(1)] when
    a test failed). *)
Definition executeTests (concurrent : Z) (schedules : list (list label))
    (tests : list config.SentinelTest) (w : world.W)
    : option (reporter.SuiteReport * Z * world.W) :=
  let start := world.time_Now w in
  match suitesLoop concurrent schedules tests [] w with
  | Some (allReports, w) =>
      let duration := (world.time_Now w - start)%Z in
      let suiteReport :=
        reporter.GenerateSuiteReport "All Tests" allReports duration (world.time_Now w) in
      Some (suiteReport,
            if decide (0 < reporter.FailedTests suiteReport) then 1%Z else 0%Z,
            w)
  | None => None
  end.

End runner.

(** *** The commands [run] and [validate] *)

(** How a command ends: its function returns an error, it returns [nil]
    without a run, or it goes through [executeTests], with the suite report
    and the exit status of that function. *)
Inductive ending :=
| ReturnsError (err : string)
| ReturnsNil
| Reports (suiteReport : reporter.SuiteReport) (code : Z).

(** The exit status of the process: [main] exits with status 1 when the
    command returns an error. *)
Definition exitStatus (e : ending) : Z :=
  match e with
  | ReturnsError _ => 1
  | ReturnsNil => 0
  | Reports _ code => code
  end.

Section command.
Context `{ord : golang.MapOrder} `{eng : golang.RegexpEngine} `{wld : world.World}.
Context `{lv : golang.LoopVar}.
Context `{fs : parser.FileSystem} `{dec : parser.Decoder}.

Definition isDirectory (path : string) : bool :=
  match parser.Stat path with
  | inr _ => false
  | inl isDir => isDir
  end.

(** [runTests] from the parsed suites on. *)
Definition runParsed (concurrent : Z) (schedules : list (list label))
    (tests : list config.SentinelTest) (w : world.W) : option (ending * world.W) :=
  match tests with
  | [] => Some (ReturnsNil, w)
  | _ :: _ =>
      match executeTests concurrent schedules tests w with
      | Some (suiteReport, code, w) => Some (Reports suiteReport code, w)
      | None => None
      end
  end.

Definition runTests (concurrent : Z) (schedules : list (list label)) (path : string)
    (w : world.W) : option (ending * world.W) :=
  if isDirectory path then
    match parser.ParseDirectory path with
    | inr err => Some (ReturnsError ("failed to parse tests: " +:+ err), w)
    | inl tests => runParsed concurrent schedules tests w
    end
  else
    match parser.ParseFile path with
    | inr parseErr => Some (ReturnsError parseErr, w)
    | inl test => runParsed concurrent schedules [test] w
    end.

(** [validateTests]: the error it returns, if any. *)
Definition validateTests (path : string) : option string :=
  if isDirectory path then
    match parser.ParseDirectory path with
    | inr err => Some ("validation failed: " +:+ err)
    | inl _ => None
    end
  else
    match parser.ParseFile path with
    | inr parseErr => Some parseErr
    | inl _ => None
    end.

End command.

End main.

(** ** Reference instances of the runtime

    The theorems of Part IV hold for every map order, every regular
    expression engine and every world.  The instances below are used to run
    the program on concrete inputs. *)

(** *** A fragment of the syntax of package [regexp]

    Literals, [.], bracket expressions with ranges and negation, the Perl
    classes [\d \s \w] and their negations, escaped punctuation, [^] and
    [$] (without the multi-line flag), groups, alternation and the
    operators [* + ?] with their non-greedy forms.  The error texts are
    those of [regexp/syntax].  Counted repetition, flags, named classes and
    the remaining escapes are outside the fragment; [Compile] answers them
    with an error of its own. *)

Module regexp_fragment.

Inductive re : Type :=
| Empty
| Lit (c : ascii)
| AnyCharNotNL
| Class (negated : bool) (ranges : list (ascii * ascii))
| BeginText
| EndText
| Cat (a b : re)
| Alt (a b : re)
| Star (a : re)
| Plus (a : re)
| Quest (a : re).

Definition syntaxError (code expr : string) : string :=
  "error parsing regexp: " +:+ code +:+ ": `" +:+ expr +:+ "`".

Definition unsupported (expr : string) : string :=
  "outside the modelled fragment: `" +:+ expr +:+ "`".

Definition inRange (c : ascii) (r : ascii * ascii) : bool :=
  bool_decide (nat_of_ascii (fst r) ≤ nat_of_ascii c ∧ nat_of_ascii c ≤ nat_of_ascii (snd r))%nat.

Definition isAlnum (c : ascii) : bool :=
  existsb (inRange c) [("0", "9"); ("A", "Z"); ("a", "z")]%char.

Definition perl_d : list (ascii * ascii) := [("0", "9")]%char.
Definition perl_w : list (ascii * ascii) := [("0", "9"); ("A", "Z"); ("_", "_"); ("a", "z")]%char.
Definition perl_s : list (ascii * ascii) :=
  [("009", "010"); ("012", "013"); (" ", " ")]%char.

(** What follows a backslash: a Perl class or one escaped byte. *)
Definition parseEscape (s : string) : (bool * list (ascii * ascii) * string) + string :=
  match s with
  | EmptyString => inr (syntaxError "trailing backslash at end of expression" "")
  | String c rest =>
      if decide (c = "d"%char) then inl (false, perl_d, rest)
      else if decide (c = "D"%char) then inl (true, perl_d, rest)
      else if decide (c = "w"%char) then inl (false, perl_w, rest)
      else if decide (c = "W"%char) then inl (true, perl_w, rest)
      else if decide (c = "s"%char) then inl (false, perl_s, rest)
      else if decide (c = "S"%char) then inl (true, perl_s, rest)
      else if decide (c = "n"%char) then inl (false, [("010", "010")]%char, rest)
      else if decide (c = "t"%char) then inl (false, [("009", "009")]%char, rest)
      else if decide (c = "r"%char) then inl (false, [("013", "013")]%char, rest)
      else if decide (c = "f"%char) then inl (false, [("012", "012")]%char, rest)
      else if decide (c = "v"%char) then inl (false, [("011", "011")]%char, rest)
      else if bool_decide (nat_of_ascii c < 128)%nat && negb (isAlnum c)
      then inl (false, [(c, c)], rest)
      else inr (unsupported (String "\" (String c "")))
  end.

(** The items of a bracket expression, after the opening bracket and the
    optional caret; [whole] is the text from the opening bracket on. *)
Fixpoint parseClassItems (fuel : nat) (whole s : string) (first : bool)
    (acc : list (ascii * ascii)) : (list (ascii * ascii) * string) + string :=
  match fuel with
  | 0 => inr (unsupported whole)
  | S fuel =>
      match s with
      | EmptyString => inr (syntaxError "missing closing ]" whole)
      | String c rest =>
          if decide (c = "]"%char ∧ first = false) then inl (acc, rest)
          else
            let lo :=
              if decide (c = "\"%char) then
                match parseEscape rest with
                | inl (false, rs, rest') => inl (rs, rest')
                | inl (true, _, _) => inr (unsupported whole)
                | inr e => inr e
                end
              else if bool_decide (c = "["%char) && golang.HasPrefix rest ":" then
                inr (unsupported whole)
              else inl ([(c, c)], rest) in
            match lo with
            | inr e => inr e
            | inl (rs, rest') =>
                match rs, rest' with
                | [(l, _)], String "-" (String h rest'') =>
                    if decide (h = "]"%char) then
                      parseClassItems fuel whole rest' false (acc ++ rs)
                    else if decide (h = "\"%char) then inr (unsupported whole)
                    else if decide (nat_of_ascii h < nat_of_ascii l)%nat then
                      inr (syntaxError "invalid character class range"
                             (String c (String "-" (String h ""))))
                    else parseClassItems fuel whole rest'' false (acc ++ [(l, h)])
                | _, _ => parseClassItems fuel whole rest' false (acc ++ rs)
                end
            end
      end
  end.

Definition parseClass (whole : string) : (re * string) + string :=
  match whole with
  | String "[" (String "^" s) =>
      match parseClassItems (S (String.length s)) whole s true [] with
      | inl (rs, rest) => inl (Class true rs, rest)
      | inr e => inr e
      end
  | String "[" s =>
      match parseClassItems (S (String.length s)) whole s true [] with
      | inl (rs, rest) => inl (Class false rs, rest)
      | inr e => inr e
      end
  | _ => inr (unsupported whole)
  end.

Definition isRepeatOp (c : ascii) : bool :=
  bool_decide (c = "*"%char ∨ c = "+"%char ∨ c = "?"%char).

(** A repetition operator with its optional non-greedy mark. *)
Definition takeOp (s : string) : option (ascii * string * string) :=
  match s with
  | String op rest =>
      if isRepeatOp op then
        match rest with
        | String "?" rest' => Some (op, String op "?", rest')
        | _ => Some (op, String op "", rest)
        end
      else None
  | EmptyString => None
  end.

Definition applyOp (op : ascii) (r : re) : re :=
  if decide (op = "*"%char) then Star r
  else if decide (op = "+"%char) then Plus r
  else Quest r.

(** The operator, if any, that follows an atom. *)
Definition postfix (r : re) (s : string) : (re * string) + string :=
  match takeOp s with
  | None =>
      match s with
      | String "{" (String d _) =>
          if inRange d ("0", "9")%char then inr (unsupported s) else inl (r, s)
      | _ => inl (r, s)
      end
  | Some (op, text, rest) =>
      match takeOp rest with
      | Some (_, text', _) =>
          inr (syntaxError "invalid nested repetition operator" (text +:+ text'))
      | None => inl (applyOp op r, rest)
      end
  end.

Fixpoint parseAlt (fuel : nat) (whole s : string) : (re * string) + string :=
  match fuel with
  | 0 => inr (unsupported whole)
  | S fuel =>
      match parseCat fuel whole s with
      | inr e => inr e
      | inl (a, String "|" rest) =>
          match parseAlt fuel whole rest with
          | inr e => inr e
          | inl (b, rest') => inl (Alt a b, rest')
          end
      | inl (a, rest) => inl (a, rest)
      end
  end
with parseCat (fuel : nat) (whole s : string) : (re * string) + string :=
  match fuel with
  | 0 => inr (unsupported whole)
  | S fuel =>
      match s with
      | EmptyString => inl (Empty, s)
      | String c rest =>
          if decide (c = "|"%char ∨ c = ")"%char) then inl (Empty, s)
          else
            match parsePiece fuel whole s with
            | inr e => inr e
            | inl (a, rest') =>
                match parseCat fuel whole rest' with
                | inr e => inr e
                | inl (Empty, rest'') => inl (a, rest'')
                | inl (b, rest'') => inl (Cat a b, rest'')
                end
            end
      end
  end
with parsePiece (fuel : nat) (whole s : string) : (re * string) + string :=
  match fuel with
  | 0 => inr (unsupported whole)
  | S fuel =>
      match s with
      | EmptyString => inl (Empty, s)
      | String c rest =>
          if decide (c = "("%char) then
            match rest with
            | String "?" _ => inr (unsupported whole)
            | _ =>
                match parseAlt fuel whole rest with
                | inr e => inr e
                | inl (r, String ")" rest') => postfix r rest'
                | inl (_, _) => inr (syntaxError "missing closing )" whole)
                end
            end
          else if decide (c = "["%char) then
            match parseClass s with
            | inr e => inr e
            | inl (r, rest') => postfix r rest'
            end
          else if decide (c = "\"%char) then
            match parseEscape rest with
            | inr e => inr e
            | inl (neg, rs, rest') => postfix (Class neg rs) rest'
            end
          else if isRepeatOp c then
            match takeOp s with
            | Some (_, text, _) =>
                inr (syntaxError "missing argument to repetition operator" text)
            | None => inr (unsupported whole)
            end
          else if bool_decide (c = "{"%char)
                  && match rest with
                     | String d _ => inRange d ("0", "9")%char
                     | EmptyString => false
                     end
          then inr (unsupported whole)
          else if decide (c = "."%char) then postfix AnyCharNotNL rest
          else if decide (c = "^"%char) then postfix BeginText rest
          else if decide (c = "$"%char) then postfix EndText rest
          else postfix (Lit c) rest
      end
  end.

Definition Compile (pattern : string) : re + string :=
  match parseAlt (4 * S (String.length pattern)) pattern pattern with
  | inr e => inr e
  | inl (r, EmptyString) => inl r
  | inl (_, _) => inr (syntaxError "unexpected )" pattern)
  end.

(** Matching.  [ends r text i] lists the positions at which a match of [r]
    that begins at position [i] of [text] can end. *)
Fixpoint closure (f : nat → list nat) (fuel : nat) (seen : list nat) : list nat :=
  match fuel with
  | 0 => seen
  | S fuel => closure f fuel (remove_dups (seen ++ (seen ≫= f)))
  end.

Fixpoint ends (r : re) (text : list ascii) (i : nat) : list nat :=
  match r with
  | Empty => [i]
  | Lit c =>
      match text !! i with
      | Some d => if decide (c = d) then [S i] else []
      | None => []
      end
  | AnyCharNotNL =>
      match text !! i with
      | Some d => if decide (d = "010"%char) then [] else [S i]
      | None => []
      end
  | Class negated ranges =>
      match text !! i with
      | Some d => if xorb negated (existsb (inRange d) ranges) then [S i] else []
      | None => []
      end
  | BeginText => if decide (i = 0) then [i] else []
  | EndText => if decide (i = length text) then [i] else []
  | Cat a b => remove_dups (ends a text i ≫= ends b text)
  | Alt a b => remove_dups (ends a text i ++ ends b text i)
  | Star a => closure (ends a text) (length text) [i]
  | Plus a => remove_dups (ends a text i ≫= λ j, closure (ends a text) (length text) [j])
  | Quest a => remove_dups (i :: ends a text i)
  end.

(** [Regexp.MatchString]: the text contains a match, beginning anywhere. *)
Definition MatchString (r : re) (s : string) : bool :=
  let text := String.list_ascii_of_string s in
  existsb (λ i, bool_decide (ends r text i ≠ [])) (seq 0 (S (length text))).

End regexp_fragment.

Module reference.

(** The order of [map_to_list]. *)
Definition order : golang.MapOrder :=
  {| golang.map_range := map_to_list;
     golang.map_range_perm := λ m, reflexivity (map_to_list m) |}.

Definition headerOrder : golang.RangeOrder (list string) :=
  {| golang.range := map_to_list;
     golang.range_perm := λ m, reflexivity (map_to_list m) |}.

Definition engine : golang.RegexpEngine :=
  {| golang.Regexp := regexp_fragment.re;
     golang.Compile := regexp_fragment.Compile;
     golang.Regexp_MatchString := regexp_fragment.MatchString;
     golang.Compile_empty := ex_intro _ regexp_fragment.Empty eq_refl |}.

(** A world that follows a script: the exchanges to come, each with the
    time it takes and its result, and the clock.  When the script is
    exhausted no connection can be made. *)
Record scripted := {
  exchanges : list (Z * (executor.Response + string));
  clock : Z
}.

Definition scriptedExecute (test : config.Test) (baseURL : string) (w : scripted)
    : (executor.Response + string) * scripted :=
  match exchanges w with
  | [] => (inr "failed to execute request: connection refused", w)
  | (elapsed, res) :: rest => (res, {| exchanges := rest; clock := clock w + elapsed |})
  end.

Definition net : world.World :=
  {| world.W := scripted;
     world.ExecuteTest := scriptedExecute;
     world.time_Now := clock |}.

(** The range loops of a module whose [go] line is below 1.22. *)
Definition oneVariable : golang.LoopVar :=
  {| golang.perIteration := false |}.

(** The range loops of a module whose [go] line is 1.22 or above. *)
Definition variablePerIteration : golang.LoopVar :=
  {| golang.perIteration := true |}.

(** The byte [0x22]. *)
Definition dquote : string := String "034" "".

End reference.

(* ===================================================================== *)
(** * Part II: vocabulary of the statements                               *)
(* ===================================================================== *)

(** The error lists the three rule groups are expected to contribute, written
    without reference to the result record threaded through the code, and
    the notions in which the properties of a concurrent run are stated. *)

(** What one expected header entry contributes, if anything. *)
Definition headerError (response : executor.Response) (entry : string * string)
    : option string :=
  match executor.Headers response !! entry.1 with
  | None => Some (validator.missingHeader entry.1)
  | Some actualValue =>
      if golang.Contains actualValue entry.2 then None
      else Some (validator.headerMismatch entry.1 entry.2 actualValue)
  end.

(** The error of the exact rule. *)
Definition exactErrors (exact body : string) : list string :=
  if decide (body = exact) then [] else [validator.exactMismatch exact body].

(** The error of the regex rule. *)
Definition regexErrors `{golang.RegexpEngine} (pattern body : string) : list string :=
  match golang.Compile pattern with
  | inr err => [validator.invalidRegex pattern err]
  | inl re =>
      if golang.Regexp_MatchString re body then []
      else [validator.regexMismatch pattern]
  end.

(** One error for each listed substring that is missing from the body. *)
Definition containsErrors (body : string) (wanted : list string) : list string :=
  validator.containsMissing <$> filter (λ s, golang.Contains body s = false) wanted.

(** One error for each listed substring that is present in the body. *)
Definition notContainsErrors (body : string) (unwanted : list string) : list string :=
  validator.notContainsFound <$> filter (λ s, golang.Contains body s = true) unwanted.

(** The result record [Validate] starts from. *)
Definition freshResult : validator.ValidationResult :=
  {| validator.Passed := true; validator.Errors := []; validator.Warnings := [] |}.

(** The errors of the status rule. *)
Definition statusErrors (response : executor.Response) (expected : config.Expected)
    : list string :=
  if decide (config.Status expected = []) then []
  else if decide (executor.StatusCode response ∈ config.Status expected) then []
  else [validator.statusMismatch (config.Status expected) (executor.StatusCode response)].

(** The errors of the body rule, by precedence. *)
Definition bodyErrors `{golang.RegexpEngine} (response : executor.Response)
    (expected : config.Expected) : list string :=
  match config.Body expected with
  | None => []
  | Some b =>
      if decide (config.Exact b ≠ "") then
        exactErrors (config.Exact b) (executor.Body response)
      else if decide (config.Regex b ≠ "") then
        regexErrors (config.Regex b) (executor.Body response)
      else
        containsErrors (executor.Body response) (config.Contains b)
          ++ notContainsErrors (executor.Body response) (config.NotContains b)
  end.

(** A goroutine holds a slot of the semaphore from its send on the channel
    to the deferred receive. *)
Definition holdsSlot (p : main.pc) : bool :=
  match p with
  | main.AtExecute | main.InFlight _ | main.AtLock _ | main.AtAppend _
  | main.AtUnlock _ | main.AtPrint _ | main.AtRelease _ => true
  | main.AtAcquire | main.AtDone _ | main.Finished _ => false
  end.

(** Its request is in flight between the start of the exchange and its end. *)
Definition inFlight (p : main.pc) : bool :=
  match p with
  | main.InFlight _ => true
  | _ => false
  end.

(** It is inside the critical section between [mu.Lock()] and [mu.Unlock()]. *)
Definition inCritical (p : main.pc) : bool :=
  match p with
  | main.AtAppend _ | main.AtUnlock _ => true
  | _ => false
  end.

(** It has not run to the end of its function. *)
Definition unfinished (p : main.pc) : bool :=
  match p with
  | main.Finished _ => false
  | _ => true
  end.

(** The report a goroutine has appended to [reports] so far. *)
Definition merged (p : main.pc) : option reporter.TestReport :=
  match p with
  | main.AtUnlock report | main.AtPrint report => Some report
  | main.AtRelease m | main.AtDone m | main.Finished m => m
  | _ => None
  end.

(** The report a goroutine has built, from the moment it is built. *)
Definition carried (p : main.pc) : option reporter.TestReport :=
  match p with
  | main.AtLock report | main.AtAppend report
  | main.AtUnlock report | main.AtPrint report => Some report
  | main.AtRelease m | main.AtDone m | main.Finished m => m
  | _ => None
  end.

(** The number of goroutines whose position satisfies [f]. *)
Definition count (f : main.pc → bool) (gs : list (config.Test * main.pc)) : nat :=
  sum_list_with (λ g, if f g.2 then 1 else 0) gs.

(** The number of steps a goroutine at position [p] has left at most. *)
Definition weight (p : main.pc) : nat :=
  match p with
  | main.AtAcquire => 9
  | main.AtExecute => 8
  | main.InFlight _ => 7
  | main.AtLock _ => 6
  | main.AtAppend _ => 5
  | main.AtUnlock _ => 4
  | main.AtPrint _ => 3
  | main.AtRelease _ => 2
  | main.AtDone _ => 1
  | main.Finished _ => 0
  end.

Section run_vocabulary.
Context `{ord : golang.MapOrder} `{eng : golang.RegexpEngine} `{wld : world.World}.

(** The states a run of [executeTestsConcurrently] can be in: those some
    schedule leads to from the initial state. *)
Definition reachable (sentinelTest : config.SentinelTest) (maxConcurrent : nat)
    (w : world.W) (s : main.state) : Prop :=
  ∃ schedule,
    main.run (config.BaseURL (config.Target_ (config.Spec_ sentinelTest)))
      maxConcurrent schedule (main.initial sentinelTest w) = Some s.

(** What every reachable state satisfies. *)
Definition Inv (maxConcurrent : nat) (tests : list config.Test) (s : main.state) : Prop :=
  main.semaphore s = count holdsSlot (main.goroutines s)
  ∧ main.semaphore s ≤ maxConcurrent
  ∧ count inCritical (main.goroutines s) = (if main.mu s then 1 else 0)
  ∧ main.wg s = count unfinished (main.goroutines s)
  ∧ main.reports s ≡ₚ omap (λ g, merged g.2) (main.goroutines s)
  ∧ match main.mainPC s with
    | main.Spawning pending => (fst <$> main.goroutines s) ++ pending = tests
    | main.Returned rs =>
        fst <$> main.goroutines s = tests ∧ rs = main.reports s ∧ main.wg s = 0
    end.

(** A bound on the number of steps a run can still take from a state. *)
Definition stepsLeft (s : main.state) : nat :=
  match main.mainPC s with
  | main.Spawning pending => 1 + 10 * length pending
  | main.Returned _ => 0
  end + sum_list_with (λ g, weight g.2) (main.goroutines s).

(** What it takes for a goroutine at position [p] to be able to step. *)
Definition enabled (maxConcurrent : nat) (s : main.state) (p : main.pc) : Prop :=
  match p with
  | main.AtAcquire => main.semaphore s < maxConcurrent
  | main.AtLock _ => main.mu s = false
  | main.AtRelease _ => 0 < main.semaphore s
  | main.AtDone _ => 0 < main.wg s
  | main.Finished _ => False
  | _ => True
  end.

End run_vocabulary.

(** ** Vocabulary of the further properties *)

(** A request that came back with an error leaves the goroutine on the
    return path without a report. *)
Definition failedRequest (p : main.pc) : bool :=
  match p with
  | main.AtRelease None | main.AtDone None | main.Finished None => true
  | _ => false
  end.

(** The test of a goroutine that has appended a report. *)
Definition mergedTest (g : config.Test * main.pc) : option config.Test :=
  match merged g.2 with
  | Some _ => Some g.1
  | None => None
  end.

Section report_vocabulary.
Context `{ord : golang.MapOrder} `{eng : golang.RegexpEngine} `{wld : world.World}.

(** [report] is the report of test [t]: it carries the name and the request
    of [t], its validation result is that of the response it carries
    against the expectation of [t], and its status says whether that
    validation passed. *)
Definition belongsTo (t : config.Test) (report : reporter.TestReport) : Prop :=
  reporter.TestName report = config.Name t
  ∧ reporter.Request report = config.Request_ t
  ∧ reporter.ValidationResult report
    = validator.Validate (reporter.Response report) (config.Expected_ t) (config.Name t)
  ∧ reporter.Status report
    = (if validator.Passed (reporter.ValidationResult report) then "PASS" else "FAIL").

(** [report] tells of test [t]: it carries the name of [t], its validation
    result is that of the response it carries against the expectation of
    [t], and its status says whether that validation passed.  This is
    [belongsTo] without the request. *)
Definition reportsOn (t : config.Test) (report : reporter.TestReport) : Prop :=
  reporter.TestName report = config.Name t
  ∧ reporter.ValidationResult report
    = validator.Validate (reporter.Response report) (config.Expected_ t) (config.Name t)
  ∧ reporter.Status report
    = (if validator.Passed (reporter.ValidationResult report) then "PASS" else "FAIL").

(** Every exchange ends with a response. *)
Definition neverFails : Prop :=
  ∀ (t : config.Test) (baseURL : string) (w : world.W),
    ∃ response w', world.ExecuteTest t baseURL w = (inl response, w').

(** The position [p'] a goroutine for test [t] reaches by one step from
    position [p], in world [w]. *)
Definition next (baseURL : string) (w : world.W) (t : config.Test)
    (p p' : main.pc) : Prop :=
  match p with
  | main.AtAcquire => p' = main.AtExecute
  | main.AtExecute => p' = main.InFlight (world.time_Now w)
  | main.InFlight start =>
      match world.ExecuteTestWithContext t baseURL w with
      | (inr _, _) => p' = main.AtRelease None
      | (inl response, w') =>
          p' = main.AtLock
                 (reporter.GenerateTestReport (config.Name t) (config.Request_ t) response
                    (validator.Validate response (config.Expected_ t) (config.Name t))
                    (world.time_Now w' - start)%Z (world.time_Now w'))
      end
  | main.AtLock report => p' = main.AtAppend report
  | main.AtAppend report => p' = main.AtUnlock report
  | main.AtUnlock report => p' = main.AtPrint report
  | main.AtPrint report => p' = main.AtRelease (Some report)
  | main.AtRelease m => p' = main.AtDone m
  | main.AtDone m => p' = main.Finished m
  | main.Finished _ => False
  end.

End report_vocabulary.

(** The requests seen through the reports of a sequential loop that has gone
    through the tests [done] and has built [reports] for the tests [ts]:
    with a variable for each iteration every report shows the request of its
    own test, with one variable every report shows the request of the test
    the variable holds, the last of [done]. *)
Definition requestsSeen `{lv : golang.LoopVar} (done ts : list config.Test)
    (reports : list reporter.TestReport) : Prop :=
  if golang.perIteration
  then Forall2 (λ t report, reporter.Request report = config.Request_ t) ts reports
  else ∀ final, last done = Some final →
                Forall (λ report, reporter.Request report = config.Request_ final) reports.

(** [report] is a report of the suite [st]: it tells of a test of the suite
    and shows the request of a test of the suite, which is the test it tells
    of when [own] holds. *)
Definition reportOfSuite `{ord : golang.MapOrder} `{eng : golang.RegexpEngine}
    (own : Prop) (st : config.SentinelTest) (report : reporter.TestReport) : Prop :=
  ∃ t shown,
    t ∈ config.Tests (config.Spec_ st)
    ∧ shown ∈ config.Tests (config.Spec_ st)
    ∧ reportsOn t report
    ∧ reporter.Request report = config.Request_ shown
    ∧ (own → shown = t).

(** The bytes that end the scan of [filepath.Ext]. *)
Definition endsScan (c : ascii) : Prop := c = "/"%char ∨ c = "."%char.

Section parser_vocabulary.
Context `{fs : parser.FileSystem} `{dec : parser.Decoder}.

(** The entries [ParseDirectory] parses: files with the extension [.yaml]
    or [.yml]. *)
Definition selected (entry : parser.WalkEntry) : bool :=
  negb (parser.entryIsDir entry)
  && (bool_decide (parser.Ext (parser.entryPath entry) = ".yaml")
      || bool_decide (parser.Ext (parser.entryPath entry) = ".yml")).

(** The suite an entry contributes. *)
Definition parsed (entry : parser.WalkEntry) : option config.SentinelTest :=
  if selected entry then
    match parser.ParseFile (parser.entryPath entry) with
    | inl test => Some test
    | inr _ => None
    end
  else None.

(** An entry that lets the walk go on. *)
Definition passes (entry : parser.WalkEntry) : Prop :=
  parser.entryErr entry = None
  ∧ (selected entry = true → ∃ test, parser.ParseFile (parser.entryPath entry) = inl test).

(** An entry that ends the walk, with the error the function returns. *)
Definition stops (entry : parser.WalkEntry) (err : string) : Prop :=
  parser.entryErr entry = Some err
  ∨ parser.entryErr entry = None
    ∧ selected entry = true
    ∧ ∃ parseErr,
        parser.ParseFile (parser.entryPath entry) = inr parseErr
        ∧ err = "failed to parse " +:+ parser.entryPath entry +:+ ": " +:+ parseErr.

End parser_vocabulary.

(** ** Vocabulary of the commands *)

Section command_vocabulary.
Context `{wld : world.World}.

(** No exchange ends with a response: the target cannot be reached. *)
Definition alwaysFails : Prop :=
  ∀ (t : config.Test) (baseURL : string) (w : world.W),
    ∃ err w', world.ExecuteTest t baseURL w = (inr err, w').

End command_vocabulary.

(** The reports a command has made. *)
Definition reportsOf (e : main.ending) : list reporter.TestReport :=
  match e with
  | main.Reports suiteReport _ => reporter.Tests suiteReport
  | _ => []
  end.

(** ** Vocabulary of the comparison of the two sequential runners *)

Section exchange_vocabulary.
Context `{ord : golang.MapOrder} `{eng : golang.RegexpEngine} `{wld : world.World}.

(** The exchanges of a run over [tests] from the world [w], in order: each
    test with the response or the error its request ends with. *)
Fixpoint exchanges (baseURL : string) (tests : list config.Test) (w : world.W)
    : list (config.Test * (executor.Response + string)) :=
  match tests with
  | [] => []
  | test :: rest =>
      let '(res, w) := world.ExecuteTest test baseURL w in
      (test, res) :: exchanges baseURL rest w
  end.

(** The exchanges that ended with a response. *)
Definition answered (e : config.Test * (executor.Response + string))
    : option (config.Test * executor.Response) :=
  match e.2 with
  | inl response => Some (e.1, response)
  | inr _ => None
  end.

(** [result] is the client's result for the exchange [e]: the verdict of
    the validation of the response, or the error of the request as the only
    error of a failed test. *)
Definition resultFor (e : config.Test * (executor.Response + string))
    (result : client.TestResult) : Prop :=
  client.TestName result = config.Name e.1
  ∧ match e.2 with
    | inl response =>
        client.Passed result
          = validator.Passed
              (validator.Validate response (config.Expected_ e.1) (config.Name e.1))
        ∧ client.Errors result
          = validator.Errors
              (validator.Validate response (config.Expected_ e.1) (config.Name e.1))
        ∧ client.Warnings result
          = validator.Warnings
              (validator.Validate response (config.Expected_ e.1) (config.Name e.1))
    | inr err =>
        client.Passed result = false
        ∧ client.Errors result = [err]
        ∧ client.Warnings result = []
    end.

(** [report] is the command-line runner's report for the answered exchange
    [a]. *)
Definition reportFor (a : config.Test * executor.Response)
    (report : reporter.TestReport) : Prop :=
  reportsOn a.1 report ∧ reporter.Response report = a.2.

End exchange_vocabulary.

Section two_runs.
Context `{ord : golang.MapOrder} `{eng : golang.RegexpEngine} `{lv : golang.LoopVar}.
Context `{exs : world.Executors}.

(** The sequential run of the command-line runner on a suite, with the
    executor [executeTests] builds for it. *)
Definition commandLineRun (sentinelTest : config.SentinelTest) (w : world.EW)
    : list reporter.TestReport * world.EW :=
  main.executeTestsSequentially (wld := main.executorFor sentinelTest) sentinelTest w.

(** The run of the client built from [cfg] on a suite. *)
Definition clientRun (cfg : client.Config) (wafTest : config.SentinelTest) (w : world.EW)
    : client.SuiteResult * world.EW :=
  client.runTests (wld := client.executorOf cfg) wafTest w.

End two_runs.

(* ===================================================================== *)
(** * Part III: concrete inputs                                           *)
(* ===================================================================== *)

(** [quoted s] is [s] between two double quotes. *)
Definition quoted (s : string) : string :=
  reference.dquote +:+ s +:+ reference.dquote.

Definition noHeaders : gmap string string := ∅.

Definition response (status : Z) (body : string) : executor.Response :=
  {| executor.StatusCode := status; executor.Headers := noHeaders;
     executor.Body := body; executor.Duration := 0 |}.

Definition bodyRule (contains notContains : list string) (exact regex : string)
    : config.BodyExpected :=
  {| config.Contains := contains; config.NotContains := notContains;
     config.Exact := exact; config.Regex := regex |}.

Definition expect (status : list Z) (body : option config.BodyExpected)
    : config.Expected :=
  {| config.Status := status; config.Headers := noHeaders; config.Body := body |}.

Definition passedWith (warnings : list string) : validator.ValidationResult :=
  {| validator.Passed := true; validator.Errors := []; validator.Warnings := warnings |}.

Definition failedWith (errors warnings : list string) : validator.ValidationResult :=
  {| validator.Passed := false; validator.Errors := errors;
     validator.Warnings := warnings |}.

(** [{"message":"success","data":"test"}] *)
Definition bodyA : string :=
  "{" +:+ quoted "message" +:+ ":" +:+ quoted "success" +:+ ","
      +:+ quoted "data" +:+ ":" +:+ quoted "test" +:+ "}".

(** [{"message":"error occurred"}] *)
Definition bodyC : string :=
  "{" +:+ quoted "message" +:+ ":" +:+ quoted "error occurred" +:+ "}".

(** [{"id":123}] and the pattern [^\{.*"id":\s*\d+.*\}$] *)
Definition bodyD : string := "{" +:+ quoted "id" +:+ ":123}".

Definition patternD : string := "^\{.*" +:+ quoted "id" +:+ ":\s*\d+.*\}$".

Definition expectD : config.Expected :=
  expect [] (Some (bodyRule [] [] "" patternD)).

Definition expectE : config.Expected :=
  expect [] (Some (bodyRule [] [] "" "[invalid")).

(** An exact string together with a substring the body lacks. *)
Definition expectExactAndContains : config.Expected :=
  expect [200%Z] (Some (bodyRule ["zzz"] [] "pong" "")).

(** An exact string together with a pattern that does not compile. *)
Definition expectExactAndBadRegex : config.Expected :=
  expect [200%Z] (Some (bodyRule [] [] "pong" "[invalid")).

(** The compiled form of [patternD]. *)
Definition regexD : regexp_fragment.re :=
  match regexp_fragment.Compile patternD with
  | inl re => re
  | inr _ => regexp_fragment.Empty
  end.

Definition getRequest (path : string) : config.Request :=
  {| config.Method := "GET"; config.Path := path;
     config.ReqHeaders := ∅; config.ReqBody := "" |}.

Definition testF1 : config.Test :=
  {| config.Name := "unreachable"; config.Request_ := getRequest "/down";
     config.Expected_ := expect [200%Z] None |}.

Definition testF2 : config.Test :=
  {| config.Name := "healthy"; config.Request_ := getRequest "/up";
     config.Expected_ := expect [200%Z] (Some (bodyRule ["ok"] [] "" "")) |}.

Definition suiteF : config.SentinelTest :=
  {| config.APIVersion := "waf-test/v1"; config.Kind := "SentinelTest";
     config.Metadata_ := {| config.MetaName := "scenario-f"; config.Description := "" |};
     config.Spec_ :=
       {| config.Target_ :=
            {| config.BaseURL := "http://target.test"; config.Timeout := 30000000000 |};
          config.Tests := [testF1; testF2] |} |}.

Definition refused : string :=
  "failed to execute request: dial tcp: connect: connection refused".

(** The first exchange fails after 5 ms, the second answers 200 after 7 ms. *)
Definition worldF : @world.W reference.net :=
  {| reference.exchanges :=
       [(5000000%Z, inr refused); (7000000%Z, inl (response 200 "ok"))];
     reference.clock := 0 |}.

Definition worldF1 : @world.W reference.net :=
  {| reference.exchanges := [(7000000%Z, inl (response 200 "ok"))];
     reference.clock := 5000000 |}.

Definition worldF2 : @world.W reference.net :=
  {| reference.exchanges := []; reference.clock := 12000000 |}.

(** Both goroutines are started and admitted, both requests go out, the
    exchange of the first goroutine fails, that of the second succeeds and
    its report is merged; then the caller returns. *)
Definition scheduleF : list main.label :=
  [main.Main; main.Main;
   main.Go 0; main.Go 1;                       (* both acquire a slot *)
   main.Go 0; main.Go 1;                       (* both requests are in flight *)
   main.Go 0;                                  (* the exchange of goroutine 0 fails *)
   main.Go 1;                                  (* the exchange of goroutine 1 succeeds *)
   main.Go 1; main.Go 1;                       (* goroutine 1: lock, append *)
   main.Go 0; main.Go 0;                       (* goroutine 0: release, done *)
   main.Go 1; main.Go 1;                       (* goroutine 1: unlock, print *)
   main.Go 1; main.Go 1;                       (* goroutine 1: release, done *)
   main.Main].                                 (* wg.Wait() returns *)

Definition stateAfter (maxConcurrent : nat) (schedule : list main.label) : main.state :=
  default (main.initial suiteF worldF)
    (main.run (ord := reference.order) (eng := reference.engine)
       "http://target.test" maxConcurrent schedule (main.initial suiteF worldF)).

(** A world in which every exchange is answered with [200 ok] after one
    millisecond. *)
Definition steady : world.World :=
  {| world.W := Z;
     world.ExecuteTest := λ _ _ w, (inl (response 200 "ok"), (w + 1000000)%Z);
     world.time_Now := λ w, w |}.

(** The header of [TestExtractHeaders]. *)
Definition rawHeaderT : gmap string (list string) :=
  {[ "Content-Type" := ["application/json"];
     "Set-Cookie" := ["session=abc123"; "user=test"];
     "X-Custom" := ["value1"] ]}.

(** A response whose header map comes from [extractHeaders]. *)
Definition responseWith `{golang.RangeOrder (list string)}
    (raw : gmap string (list string)) : executor.Response :=
  {| executor.StatusCode := 200; executor.Headers := executor.extractHeaders raw;
     executor.Body := ""; executor.Duration := 0 |}.

(** The background context over the scripted world: never done. *)
Definition background : @world.Ctx reference.net :=
  {| world.ctx_Err := λ _, None;
     world.ExecuteTestCtx := world.ExecuteTest (World := reference.net) |}.

(** A context over the scripted world that is done from [deadline] on. *)
Definition withDeadline (deadline : Z) : @world.Ctx reference.net :=
  {| world.ctx_Err := λ w,
       if decide (deadline ≤ world.time_Now (World := reference.net) w)%Z
       then Some "context deadline exceeded" else None;
     world.ExecuteTestCtx := world.ExecuteTest (World := reference.net) |}.

(** A directory with two suites, a note and a sub-directory whose name ends
    in [.yaml]; the file [b.yml] is not a YAML document. *)
Definition filesT : parser.FileSystem :=
  {| parser.ReadFile := λ filename,
       if decide (filename = "suites/a.yaml") then inl "scenario-f"
       else if decide (filename = "suites/b.yml") then inl "{"
       else if decide (filename = "suites/notes.txt") then inl "{"
       else inr ("open " +:+ filename +:+ ": no such file or directory");
     parser.Walk := λ root,
       if decide (root = "suites") then
         [ {| parser.entryPath := "suites"; parser.entryIsDir := true;
              parser.entryErr := None |};
           {| parser.entryPath := "suites/a.yaml"; parser.entryIsDir := false;
              parser.entryErr := None |};
           {| parser.entryPath := "suites/notes.txt"; parser.entryIsDir := false;
              parser.entryErr := None |};
           {| parser.entryPath := "suites/old.yaml"; parser.entryIsDir := true;
              parser.entryErr := None |};
           {| parser.entryPath := "suites/old.yaml/a.yaml.bak"; parser.entryIsDir := false;
              parser.entryErr := None |} ]
       else if decide (root = "broken") then
         [ {| parser.entryPath := "broken"; parser.entryIsDir := true;
              parser.entryErr := None |};
           {| parser.entryPath := "suites/b.yml"; parser.entryIsDir := false;
              parser.entryErr := None |};
           {| parser.entryPath := "suites/a.yaml"; parser.entryIsDir := false;
              parser.entryErr := None |} ]
       else
         [ {| parser.entryPath := root; parser.entryIsDir := false;
              parser.entryErr :=
                Some ("lstat " +:+ root +:+ ": no such file or directory") |} ];
     parser.Stat := λ name,
       if decide (name = "suites") then inl true
       else if decide (name = "broken") then inl true
       else if decide (name = "suites/a.yaml") then inl false
       else if decide (name = "suites/b.yml") then inl false
       else if decide (name = "suites/notes.txt") then inl false
       else inr ("stat " +:+ name +:+ ": no such file or directory") |}.

(** A decoder that knows one document. *)
Definition decoderT : parser.Decoder :=
  {| parser.Unmarshal := λ data,
       if decide (data = "scenario-f") then inl suiteF
       else inr "yaml: line 1: did not find expected node content";
     parser.Struct := λ _, None |}.

(** A world in which every connection is refused, after one millisecond. *)
Definition refusing : world.World :=
  {| world.W := Z;
     world.ExecuteTest := λ _ _ w,
       (inr "failed to execute request: connection refused", (w + 1000000)%Z);
     world.time_Now := λ w, w |}.

(** A world in which the path [/down] refuses every connection and every
    other request is answered with [200 ok]. *)
Definition downOnly : world.World :=
  {| world.W := Z;
     world.ExecuteTest := λ test _ w,
       if decide (config.Path (config.Request_ test) = "/down")
       then (inr refused, (w + 5000000)%Z)
       else (inl (response 200 "ok"), (w + 7000000)%Z);
     world.time_Now := λ w, w |}.

(** Executors over a target whose path [/slow] answers after two seconds
    and every other path after one millisecond: an executor whose client has
    a shorter timeout gives up on [/slow] when its timeout has passed. *)
Definition timed : world.Executors :=
  {| world.EW := Z;
     world.ExecuteWith := λ timeout test _ w,
       if decide (config.Path (config.Request_ test) = "/slow") then
         if decide (timeout < 2000000000)%Z
         then (inr "failed to execute request: context deadline exceeded",
               (w + timeout)%Z)
         else (inl (response 200 "ok"), (w + 2000000000)%Z)
       else (inl (response 200 "ok"), (w + 1000000)%Z);
     world.clock_Now := λ w, w |}.

(** A client configuration that leaves everything to the defaults. *)
Definition defaults : client.Config :=
  {| client.Timeout := 0; client.OutputFile := ""; client.Format := "";
     client.Concurrent := 0 |}.

(** A suite with a slow test and a timeout of one second. *)
Definition suiteSlow : config.SentinelTest :=
  {| config.APIVersion := "waf-test/v1"; config.Kind := "SentinelTest";
     config.Metadata_ := {| config.MetaName := "slow"; config.Description := "" |};
     config.Spec_ :=
       {| config.Target_ :=
            {| config.BaseURL := "http://target.test"; config.Timeout := 1000000000 |};
          config.Tests :=
            [ {| config.Name := "slow"; config.Request_ := getRequest "/slow";
                 config.Expected_ := expect [200%Z] None |};
              testF2 ] |} |}.

(* ===================================================================== *)
(** * Part IV: properties                                                 *)
(* ===================================================================== *)

(** ** Substring search *)

Lemma HasPrefix_spec (s prefix : string) :
  golang.HasPrefix s prefix = true ↔ ∃ post, s = prefix +:+ post.
Proof.
  revert s. induction prefix as [|p prefix IH]; intros s; simpl.
  - split; [intros _; by exists s | done].
  - destruct s as [|c s].
    + split; [done | intros [post Hpost]; discriminate].
    + case_decide as Hc.
      * subst c. rewrite IH. split.
        -- intros [post ->]. by exists post.
        -- intros [post Hpost]. exists post. by injection Hpost.
      * split; [done | intros [post Hpost]]. injection Hpost as -> _. done.
Qed.

Lemma Contains_spec (s substr : string) :
  golang.Contains s substr = true ↔ ∃ pre post, s = pre +:+ substr +:+ post.
Proof.
  induction s as [|c s IH]; simpl.
  - rewrite orb_false_r, HasPrefix_spec. split.
    + intros [post Hpost]. by exists "", post.
    + intros ([|? pre] & post & Hpost); [by exists post | discriminate].
  - rewrite orb_true_iff, HasPrefix_spec, IH. split.
    + intros [[post Hpost] | (pre & post & ->)].
      * by exists "", post.
      * by exists (String c pre), post.
    + intros ([|c' pre] & post & Hpost).
      * left. by exists post.
      * right. injection Hpost as -> ->. by exists pre, post.
Qed.

Lemma Contains_middle (pre substr post : string) :
  golang.Contains (pre +:+ substr +:+ post) substr = true.
Proof. apply Contains_spec. by exists pre, post. Qed.

Lemma string_append_cons (x : ascii) (a b : string) :
  String x a +:+ b = String x (a +:+ b).
Proof. reflexivity. Qed.

Lemma string_append_assoc (a b c : string) : (a +:+ b) +:+ c = a +:+ b +:+ c.
Proof.
  induction a as [|x a IH]; [done |].
  by rewrite !string_append_cons, IH.
Qed.

Lemma string_append_nil_r (a : string) : a +:+ "" = a.
Proof.
  induction a as [|x a IH]; [done |].
  by rewrite string_append_cons, IH.
Qed.

Lemma Contains_suffix (pre substr : string) :
  golang.Contains (pre +:+ substr) substr = true.
Proof. apply Contains_spec. exists pre, "". by rewrite string_append_nil_r. Qed.

(** ** The rule groups only append *)

Section validator_facts.
Context `{ord : golang.MapOrder} `{eng : golang.RegexpEngine}.

Implicit Types (response : executor.Response) (expected : config.Expected)
  (result : validator.ValidationResult).

Lemma statusLoop_elem_of (actual : Z) (status : list Z) :
  validator.statusLoop actual status = true ↔ actual ∈ status.
Proof.
  induction status as [|e status IH]; simpl.
  - split; [done | by intros ?%elem_of_nil].
  - case_decide as He.
    + subst. split; [intros _; left | done].
    + rewrite IH. split; [by right | intros [?|?]%elem_of_cons; [congruence | done]].
Qed.

Lemma headerStep_spec result response (entry : string * string) :
  validator.Passed (validator.headerStep response result entry) = validator.Passed result ∧
  validator.Warnings (validator.headerStep response result entry)
    = validator.Warnings result ∧
  validator.Errors (validator.headerStep response result entry)
    = validator.Errors result ++ option_list (headerError response entry).
Proof.
  destruct entry as [k v]. unfold validator.headerStep, headerError; simpl.
  destruct (executor.Headers response !! k) as [actual|]; simpl; [|done].
  destruct (golang.Contains actual v); simpl; [|done].
  by rewrite app_nil_r.
Qed.

Lemma headers_loop result response (entries : list (string * string)) :
  validator.Passed (foldl (validator.headerStep response) result entries)
    = validator.Passed result ∧
  validator.Warnings (foldl (validator.headerStep response) result entries)
    = validator.Warnings result ∧
  validator.Errors (foldl (validator.headerStep response) result entries)
    = validator.Errors result ++ omap (headerError response) entries.
Proof.
  revert result. induction entries as [|entry entries IH]; intros result.
  - simpl. by rewrite app_nil_r.
  - cbn [foldl].
    destruct (IH (validator.headerStep response result entry)) as (-> & -> & ->).
    destruct (headerStep_spec result response entry) as (-> & -> & ->).
    repeat split. rewrite <-app_assoc. f_equal.
    cbn [omap list_omap]. by destruct (headerError response entry).
Qed.

Lemma containsStep_spec result (body s : string) :
  validator.Passed (validator.containsStep body result s) = validator.Passed result ∧
  validator.Warnings (validator.containsStep body result s) = validator.Warnings result ∧
  validator.Errors (validator.containsStep body result s)
    = validator.Errors result ++ containsErrors body [s].
Proof.
  unfold validator.containsStep, containsErrors. rewrite filter_cons, filter_nil.
  destruct (golang.Contains body s); simpl; by rewrite ?app_nil_r.
Qed.

Lemma containsErrors_cons (body s : string) (wanted : list string) :
  containsErrors body (s :: wanted) = containsErrors body [s] ++ containsErrors body wanted.
Proof.
  unfold containsErrors. rewrite !filter_cons, filter_nil.
  by case_decide.
Qed.

Lemma contains_loop result (body : string) (wanted : list string) :
  validator.Passed (foldl (validator.containsStep body) result wanted)
    = validator.Passed result ∧
  validator.Warnings (foldl (validator.containsStep body) result wanted)
    = validator.Warnings result ∧
  validator.Errors (foldl (validator.containsStep body) result wanted)
    = validator.Errors result ++ containsErrors body wanted.
Proof.
  revert result. induction wanted as [|s wanted IH]; intros result.
  - simpl. by rewrite app_nil_r.
  - cbn [foldl].
    destruct (IH (validator.containsStep body result s)) as (-> & -> & ->).
    destruct (containsStep_spec result body s) as (-> & -> & ->).
    repeat split. by rewrite (containsErrors_cons body s wanted), <-app_assoc.
Qed.

Lemma notContainsStep_spec result (body s : string) :
  validator.Passed (validator.notContainsStep body result s) = validator.Passed result ∧
  validator.Warnings (validator.notContainsStep body result s)
    = validator.Warnings result ∧
  validator.Errors (validator.notContainsStep body result s)
    = validator.Errors result ++ notContainsErrors body [s].
Proof.
  unfold validator.notContainsStep, notContainsErrors. rewrite filter_cons, filter_nil.
  destruct (golang.Contains body s); simpl; by rewrite ?app_nil_r.
Qed.

Lemma notContainsErrors_cons (body s : string) (unwanted : list string) :
  notContainsErrors body (s :: unwanted)
    = notContainsErrors body [s] ++ notContainsErrors body unwanted.
Proof.
  unfold notContainsErrors. rewrite !filter_cons, filter_nil.
  by case_decide.
Qed.

Lemma notContains_loop result (body : string) (unwanted : list string) :
  validator.Passed (foldl (validator.notContainsStep body) result unwanted)
    = validator.Passed result ∧
  validator.Warnings (foldl (validator.notContainsStep body) result unwanted)
    = validator.Warnings result ∧
  validator.Errors (foldl (validator.notContainsStep body) result unwanted)
    = validator.Errors result ++ notContainsErrors body unwanted.
Proof.
  revert result. induction unwanted as [|s unwanted IH]; intros result.
  - simpl. by rewrite app_nil_r.
  - cbn [foldl].
    destruct (IH (validator.notContainsStep body result s)) as (-> & -> & ->).
    destruct (notContainsStep_spec result body s) as (-> & -> & ->).
    repeat split. by rewrite (notContainsErrors_cons body s unwanted), <-app_assoc.
Qed.

End validator_facts.

(** ** The validator *)

Section validator_claims.
Context `{ord : golang.MapOrder} `{eng : golang.RegexpEngine}.

Implicit Types (response : executor.Response) (expected : config.Expected)
  (result : validator.ValidationResult) (b : config.BodyExpected).

Lemma validateStatusCode_frame response expected result :
  validator.Passed (validator.validateStatusCode response expected result)
    = validator.Passed result ∧
  validator.Errors (validator.validateStatusCode response expected result)
    = validator.Errors result ++ statusErrors response expected.
Proof.
  unfold validator.validateStatusCode, statusErrors.
  destruct (decide (config.Status expected = [])) as [Hs|Hs].
  - rewrite Hs. simpl. by rewrite app_nil_r.
  - rewrite decide_False by (by destruct (config.Status expected)).
    destruct (validator.statusLoop _ _) eqn:Hloop.
    + apply statusLoop_elem_of in Hloop.
      rewrite decide_True by done. by rewrite app_nil_r.
    + rewrite decide_False; [done |].
      intros Hin%statusLoop_elem_of. congruence.
Qed.

Lemma map_range_empty (m : gmap string string) :
  size m = 0 → golang.map_range m = [].
Proof.
  intros ->%map_size_empty_inv. apply Permutation_nil_r.
  by rewrite golang.map_range_perm, map_to_list_empty.
Qed.

Lemma validateHeaders_frame response expected result :
  validator.Passed (validator.validateHeaders response expected result)
    = validator.Passed result ∧
  validator.Warnings (validator.validateHeaders response expected result)
    = validator.Warnings result ∧
  validator.Errors (validator.validateHeaders response expected result)
    = validator.Errors result
        ++ omap (headerError response) (golang.map_range (config.Headers expected)).
Proof.
  unfold validator.validateHeaders. case_decide as Hsize.
  - rewrite (map_range_empty _ Hsize). simpl. by rewrite app_nil_r.
  - apply headers_loop.
Qed.

Lemma validateBody_frame response expected result :
  validator.Passed (validator.validateBody response expected result)
    = validator.Passed result ∧
  validator.Warnings (validator.validateBody response expected result)
    = validator.Warnings result ∧
  validator.Errors (validator.validateBody response expected result)
    = validator.Errors result ++ bodyErrors response expected.
Proof.
  unfold validator.validateBody, bodyErrors.
  destruct (config.Body expected) as [b|]; [|by rewrite app_nil_r].
  case_decide as Hexact.
  - unfold exactErrors. case_decide as Hbody.
    + by rewrite decide_False by done.
    + rewrite decide_True by done. by rewrite app_nil_r.
  - case_decide as Hregex.
    + unfold regexErrors, golang.MatchString.
      destruct (golang.Compile (config.Regex b)) as [re|err]; [|done].
      destruct (golang.Regexp_MatchString re (executor.Body response)); simpl; [|done].
      by rewrite app_nil_r.
    + destruct (notContains_loop
        (foldl (validator.containsStep (executor.Body response)) result (config.Contains b))
        (executor.Body response) (config.NotContains b)) as (-> & -> & ->).
      destruct (contains_loop result (executor.Body response) (config.Contains b))
        as (-> & -> & ->).
      by rewrite app_assoc.
Qed.

(** The errors of a validation are those of the three rule groups, in the
    order status, headers, body; none of the groups keeps the others from
    running. *)
Lemma Validate_errors response expected (testName : string) :
  validator.Errors (validator.Validate response expected testName)
    = statusErrors response expected
        ++ omap (headerError response) (golang.map_range (config.Headers expected))
        ++ bodyErrors response expected.
Proof.
  unfold validator.Validate.
  set (r1 := validator.validateStatusCode response expected _).
  set (r2 := validator.validateHeaders response expected r1).
  set (r3 := validator.validateBody response expected r2).
  assert (validator.Errors r3 = statusErrors response expected
    ++ omap (headerError response) (golang.map_range (config.Headers expected))
    ++ bodyErrors response expected) as <-.
  { subst r3 r2 r1.
    destruct (validateBody_frame response expected
      (validator.validateHeaders response expected
        (validator.validateStatusCode response expected
          {| validator.Passed := true; validator.Errors := []; validator.Warnings := [] |})))
      as (_ & _ & ->).
    destruct (validateHeaders_frame response expected
      (validator.validateStatusCode response expected
        {| validator.Passed := true; validator.Errors := []; validator.Warnings := [] |}))
      as (_ & _ & ->).
    destruct (validateStatusCode_frame response expected
      {| validator.Passed := true; validator.Errors := []; validator.Warnings := [] |})
      as (_ & ->).
    simpl. by rewrite <-app_assoc. }
  by case_decide.
Qed.

(** The flag of a validation is set exactly when it has no error. *)
Lemma Validate_passed_flag (response : executor.Response) (expected : config.Expected)
    (testName : string) :
  validator.Passed (validator.Validate response expected testName) = true
  ↔ validator.Errors (validator.Validate response expected testName) = [].
Proof.
  unfold validator.Validate.
  set (r3 := validator.validateBody _ _ _).
  assert (validator.Passed r3 = true) as Htrue.
  { subst r3.
    destruct (validateBody_frame response expected
      (validator.validateHeaders response expected
        (validator.validateStatusCode response expected {| validator.Passed := true; validator.Errors := [];
           validator.Warnings := [] |}))) as (-> & _).
    destruct (validateHeaders_frame response expected
      (validator.validateStatusCode response expected {| validator.Passed := true; validator.Errors := [];
           validator.Warnings := [] |})) as (-> & _).
    by destruct (validateStatusCode_frame response expected {| validator.Passed := true; validator.Errors := [];
           validator.Warnings := [] |}) as (-> & _). }
  case_decide as Hlen; simpl.
  - split; [done |]. intros Hnil. rewrite Hnil in Hlen. simpl in Hlen. lia.
  - split; [|done]. intros _. destruct (validator.Errors r3); [done | simpl in Hlen; lia].
Qed.

(** All three rule groups run on every validation: the errors are those
    of the status rule, then those of the header rule, then those of the
    body rule, and the only warning there can be is the one of an empty
    expected status set. *)
Theorem Validate_all_groups_run response expected (testName : string) :
  validator.Errors (validator.Validate response expected testName)
    = statusErrors response expected
        ++ omap (headerError response) (golang.map_range (config.Headers expected))
        ++ bodyErrors response expected
  ∧ validator.Warnings (validator.Validate response expected testName)
    = (if decide (config.Status expected = [])
       then ["No expected status codes defined"] else []).
Proof.
  split; [apply Validate_errors |].
  unfold validator.Validate.
  set (r1 := validator.validateStatusCode response expected _).
  assert (validator.Warnings
            (validator.validateBody response expected
               (validator.validateHeaders response expected r1))
          = validator.Warnings r1) as Hwarn.
  { destruct (validateBody_frame response expected
                (validator.validateHeaders response expected r1)) as (_ & -> & _).
    by destruct (validateHeaders_frame response expected r1) as (_ & -> & _). }
  assert (validator.Warnings r1
          = (if decide (config.Status expected = [])
             then ["No expected status codes defined"] else [])) as Hr1.
  { subst r1. unfold validator.validateStatusCode.
    destruct (decide (config.Status expected = [])) as [Hs|Hs].
    - by rewrite Hs.
    - rewrite decide_False by (by destruct (config.Status expected)).
      by destruct (validator.statusLoop _ _). }
  destruct (decide (0 < length _));
    [unfold validator.setPassed; cbn [validator.Warnings] |];
    by rewrite Hwarn, Hr1.
Qed.

(** C1.  The result of [Validate] has [Passed = true] exactly when its error
    list is empty, whatever the response, the expectation and the label; the
    flag is a function of the error list alone, so the warnings have no part
    in it. *)
Theorem Validate_passed_iff_no_errors response expected (testName : string) :
  (validator.Passed (validator.Validate response expected testName) = true
     ↔ validator.Errors (validator.Validate response expected testName) = [])
  ∧ validator.Passed (validator.Validate response expected testName)
      = bool_decide (length (validator.Errors
                               (validator.Validate response expected testName)) = 0).
Proof.
  assert (validator.Passed (validator.Validate response expected testName)
            = bool_decide (length (validator.Errors
                (validator.Validate response expected testName)) = 0)) as Hflag.
  { unfold validator.Validate.
    set (r3 := validator.validateBody _ _ _).
    assert (validator.Passed r3 = true) as Htrue.
    { subst r3.
      destruct (validateBody_frame response expected
        (validator.validateHeaders response expected
          (validator.validateStatusCode response expected
            {| validator.Passed := true; validator.Errors := [];
               validator.Warnings := [] |}))) as (-> & _).
      destruct (validateHeaders_frame response expected
        (validator.validateStatusCode response expected
          {| validator.Passed := true; validator.Errors := [];
             validator.Warnings := [] |})) as (-> & _).
      by destruct (validateStatusCode_frame response expected
        {| validator.Passed := true; validator.Errors := [];
           validator.Warnings := [] |}) as (-> & _). }
    case_decide as Hlen; simpl.
    - symmetry. apply bool_decide_eq_false. lia.
    - rewrite Htrue. symmetry. apply bool_decide_eq_true. lia. }
  split; [|exact Hflag].
  rewrite Hflag, bool_decide_eq_true. apply length_zero_iff_nil.
Qed.

(** C4.  The status rule.  With an empty expected set: exactly one warning
    is appended and no error, whatever the status code of the response.  With
    a non-empty set: no warning; the rule adds no error exactly when the
    status code is a member of the set, and otherwise appends the one error
    [statusMismatch], whose text contains the whole expected set as [%v]
    prints it and the actual code in decimal. *)
Theorem validateStatusCode_spec response expected result :
  (config.Status expected = [] →
     validator.Warnings (validator.validateStatusCode response expected result)
       = validator.Warnings result ++ ["No expected status codes defined"]
     ∧ validator.Errors (validator.validateStatusCode response expected result)
       = validator.Errors result)
  ∧ (config.Status expected ≠ [] →
     validator.Warnings (validator.validateStatusCode response expected result)
       = validator.Warnings result
     ∧ (validator.Errors (validator.validateStatusCode response expected result)
          = validator.Errors result
        ↔ executor.StatusCode response ∈ config.Status expected)
     ∧ (executor.StatusCode response ∉ config.Status expected →
        validator.Errors (validator.validateStatusCode response expected result)
          = validator.Errors result
              ++ [validator.statusMismatch (config.Status expected)
                    (executor.StatusCode response)]))
  ∧ golang.Contains
      (validator.statusMismatch (config.Status expected) (executor.StatusCode response))
      (golang.fmt_v_ints (config.Status expected)) = true
  ∧ golang.Contains
      (validator.statusMismatch (config.Status expected) (executor.StatusCode response))
      (golang.fmt_d (executor.StatusCode response)) = true.
Proof.
  destruct (validateStatusCode_frame response expected result) as [_ Herr].
  split; [|split; [|split]].
  - intros Hempty. rewrite Herr. unfold statusErrors, validator.validateStatusCode.
    rewrite Hempty. simpl. by rewrite app_nil_r.
  - intros Hne. split; [|split].
    + unfold validator.validateStatusCode.
      rewrite decide_False by (by destruct (config.Status expected)).
      by destruct (validator.statusLoop _ _).
    + rewrite Herr. unfold statusErrors. rewrite decide_False by done.
      case_decide as Hin.
      * by rewrite app_nil_r.
      * split; [|done]. intros Heq%(f_equal length).
        rewrite length_app in Heq. simpl in Heq. lia.
    + intros Hnotin. rewrite Herr. unfold statusErrors.
      by rewrite !decide_False by done.
  - unfold validator.statusMismatch. apply Contains_middle.
  - unfold validator.statusMismatch.
    rewrite <-!string_append_assoc. apply Contains_suffix.
Qed.

(** The text of a mismatch error contains the key, the expected value and
    the actual value. *)
Lemma headerMismatch_names (key value actual : string) :
  golang.Contains (validator.headerMismatch key value actual) key = true
  ∧ golang.Contains (validator.headerMismatch key value actual) value = true
  ∧ golang.Contains (validator.headerMismatch key value actual) actual = true.
Proof.
  unfold validator.headerMismatch. split; [|split].
  - apply Contains_middle.
  - rewrite <-(string_append_assoc _ key), <-(string_append_assoc _ ": expected to contain '").
    apply Contains_middle.
  - rewrite <-(string_append_assoc _ key), <-(string_append_assoc _ ": expected to contain '"),
      <-(string_append_assoc _ value), <-(string_append_assoc _ "', got '").
    apply Contains_middle.
Qed.

(** C5.  The header rule.  With an empty expected map the result is left
    as it is.  Otherwise the rule appends errors only, and the errors it
    appends are, up to the order in which the map is visited, one per failing
    entry of the expected map: [missingHeader] for a key the response lacks,
    [headerMismatch] for a key whose actual value does not contain the
    expected value as a substring, and nothing for any other entry.  The text
    of a [headerMismatch] error contains the key, the expected value and the
    actual value, and that of a [missingHeader] error the key.  Headers of the
    response that the expectation does not mention have no influence on the
    result. *)
Theorem validateHeaders_spec response expected result :
  (config.Headers expected = ∅ →
     validator.validateHeaders response expected result = result)
  ∧ (∃ added,
       validator.Errors (validator.validateHeaders response expected result)
         = validator.Errors result ++ added
       ∧ added ≡ₚ omap (headerError response) (map_to_list (config.Headers expected))
       ∧ (∀ key value,
            config.Headers expected !! key = Some value →
            executor.Headers response !! key = None →
            validator.missingHeader key ∈ added)
       ∧ (∀ key value actual,
            config.Headers expected !! key = Some value →
            executor.Headers response !! key = Some actual →
            golang.Contains actual value = false →
            validator.headerMismatch key value actual ∈ added)
       ∧ (∀ msg, msg ∈ added →
            ∃ key value,
              config.Headers expected !! key = Some value
              ∧ match executor.Headers response !! key with
                | None => msg = validator.missingHeader key
                | Some actual =>
                    golang.Contains actual value = false
                    ∧ msg = validator.headerMismatch key value actual
                end))
  ∧ validator.Passed (validator.validateHeaders response expected result)
      = validator.Passed result
  ∧ validator.Warnings (validator.validateHeaders response expected result)
      = validator.Warnings result
  ∧ (∀ response',
       (∀ key, is_Some (config.Headers expected !! key) →
               executor.Headers response' !! key = executor.Headers response !! key) →
       validator.validateHeaders response' expected result
         = validator.validateHeaders response expected result)
  ∧ (∀ key value actual,
       golang.Contains (validator.headerMismatch key value actual) key = true
       ∧ golang.Contains (validator.headerMismatch key value actual) value = true
       ∧ golang.Contains (validator.headerMismatch key value actual) actual = true)
  ∧ (∀ key, golang.Contains (validator.missingHeader key) key = true).
Proof.
  destruct (validateHeaders_frame response expected result) as (HP & HW & HE).
  split; [|split; [|split; [done | split; [done | split; [|split]]]]];
    [| | |exact headerMismatch_names
     |intros key; unfold validator.missingHeader; apply Contains_suffix].
  - intros Hempty. unfold validator.validateHeaders.
    rewrite Hempty, map_size_empty. by rewrite decide_True by done.
  - exists (omap (headerError response) (golang.map_range (config.Headers expected))).
    assert (∀ msg,
      msg ∈ omap (headerError response) (golang.map_range (config.Headers expected))
      ↔ ∃ key value, config.Headers expected !! key = Some value
                     ∧ headerError response (key, value) = Some msg) as Hmem.
    { intros msg. rewrite list_elem_of_omap. split.
      - intros ([key value] & Hin & Hmsg). exists key, value. split; [|done].
        rewrite golang.map_range_perm in Hin. by apply elem_of_map_to_list in Hin.
      - intros (key & value & Hlook & Hmsg). exists (key, value). split; [|done].
        rewrite golang.map_range_perm. by apply elem_of_map_to_list. }
    split; [done | split; [by rewrite golang.map_range_perm | split; [|split]]].
    + intros key value Hlook Hnone. apply Hmem. exists key, value. split; [done |].
      unfold headerError; simpl. by rewrite Hnone.
    + intros key value actual Hlook Hsome Hcontains. apply Hmem.
      exists key, value. split; [done |].
      unfold headerError; simpl. by rewrite Hsome, Hcontains.
    + intros msg (key & value & Hlook & Hmsg)%Hmem. exists key, value.
      split; [done |]. unfold headerError in Hmsg; simpl in Hmsg.
      destruct (executor.Headers response !! key) as [actual|]; [|congruence].
      destruct (golang.Contains actual value); [done |]. split; congruence.
  - intros response' Hagree. unfold validator.validateHeaders.
    case_decide; [done |].
    assert (∀ entries : list (string * string),
      (∀ entry, entry ∈ entries → config.Headers expected !! entry.1 = Some entry.2) →
      ∀ acc, foldl (validator.headerStep response') acc entries
             = foldl (validator.headerStep response) acc entries) as Hloop.
    { induction entries as [|[key value] entries IH]; intros Hall acc; [done |].
      cbn [foldl]. rewrite IH by (intros; apply Hall; by right).
      f_equal. unfold validator.headerStep.
      rewrite Hagree; [done |]. exists value. apply (Hall (key, value)). by left. }
    apply Hloop. intros entry Hin.
    rewrite golang.map_range_perm in Hin. by apply elem_of_map_to_list' in Hin.
Qed.

(** C3.  Precedence of the body rules.  When the exact string is set, the
    body rule contributes the outcome of the exact comparison and nothing
    else; otherwise, when the regex pattern is set, it contributes the outcome
    of the regex and nothing else; otherwise it contributes one error for each
    listed substring that is missing, followed by one error for each excluded
    substring that is present. *)
Theorem validateBody_precedence response expected b result :
  config.Body expected = Some b →
  (config.Exact b ≠ "" →
     validator.Errors (validator.validateBody response expected result)
       = validator.Errors result
           ++ exactErrors (config.Exact b) (executor.Body response))
  ∧ (config.Exact b = "" → config.Regex b ≠ "" →
     validator.Errors (validator.validateBody response expected result)
       = validator.Errors result
           ++ regexErrors (config.Regex b) (executor.Body response))
  ∧ (config.Exact b = "" → config.Regex b = "" →
     validator.Errors (validator.validateBody response expected result)
       = validator.Errors result
           ++ containsErrors (executor.Body response) (config.Contains b)
           ++ notContainsErrors (executor.Body response) (config.NotContains b)).
Proof.
  intros Hbody.
  destruct (validateBody_frame response expected result) as (_ & _ & ->).
  unfold bodyErrors. rewrite Hbody.
  split; [|split].
  - intros Hexact. by rewrite decide_True by done.
  - intros Hexact Hregex.
    rewrite decide_False by (by intros []). by rewrite decide_True by done.
  - intros Hexact Hregex.
    rewrite decide_False by (by intros []). by rewrite decide_False by (by intros []).
Qed.

(** C6, as the code has it.  When the exact string is unset and the regex
    pattern does not compile, the body rule appends exactly one error, built
    from the pattern and the compiler's message, for every response; the
    errors of the whole validation are those the status and header rules
    contribute, followed by that one error. *)
Theorem validateBody_invalid_regex response expected b (err testName : string) :
  config.Body expected = Some b →
  config.Exact b = "" →
  golang.Compile (config.Regex b) = inr err →
  (∀ result,
     validator.validateBody response expected result
       = validator.appendError result (validator.invalidRegex (config.Regex b) err))
  ∧ validator.Errors (validator.Validate response expected testName)
      = validator.Errors
          (validator.validateHeaders response expected
             (validator.validateStatusCode response expected freshResult))
        ++ [validator.invalidRegex (config.Regex b) err]
  ∧ golang.Contains (validator.invalidRegex (config.Regex b) err) (config.Regex b) = true.
Proof.
  intros Hbody Hexact Hcompile.
  assert (config.Regex b ≠ "") as Hregex.
  { intros Hempty. destruct golang.Compile_empty as [re Hre]. congruence. }
  split; [|split].
  - intros result. unfold validator.validateBody. rewrite Hbody.
    rewrite decide_False by (by intros []). rewrite decide_True by done.
    unfold golang.MatchString. by rewrite Hcompile.
  - rewrite Validate_errors.
    destruct (validateHeaders_frame response expected
      (validator.validateStatusCode response expected freshResult)) as (_ & _ & ->).
    destruct (validateStatusCode_frame response expected freshResult) as (_ & ->).
    simpl. rewrite <-app_assoc. do 2 f_equal.
    unfold bodyErrors. rewrite Hbody.
    rewrite decide_False by (by intros []). rewrite decide_True by done.
    unfold regexErrors. by rewrite Hcompile.
  - unfold validator.invalidRegex. apply Contains_middle.
Qed.

(** C7.  When the exact string is unset and the regex pattern is set and
    compiles: if the compiled expression finds no match in the body, the body
    rule appends exactly one error, [regexMismatch], which names the pattern,
    so the error list grows by one and the validation as a whole ends with
    that error behind those of the status and header rules; if it finds a
    match, the body rule leaves the result as it is and the validation has
    the errors of the status and header rules alone. *)
Theorem validateBody_regex_match response expected b (re : golang.Regexp) result
    (testName : string) :
  config.Body expected = Some b →
  config.Exact b = "" →
  config.Regex b ≠ "" →
  golang.Compile (config.Regex b) = inl re →
  (golang.Regexp_MatchString re (executor.Body response) = false →
     validator.validateBody response expected result
       = validator.appendError result (validator.regexMismatch (config.Regex b))
     ∧ validator.Errors (validator.validateBody response expected result)
       = validator.Errors result ++ [validator.regexMismatch (config.Regex b)]
     ∧ length (validator.Errors (validator.validateBody response expected result))
       = S (length (validator.Errors result))
     ∧ validator.Warnings (validator.validateBody response expected result)
       = validator.Warnings result
     ∧ validator.Errors (validator.Validate response expected testName)
       = validator.Errors
           (validator.validateHeaders response expected
              (validator.validateStatusCode response expected freshResult))
         ++ [validator.regexMismatch (config.Regex b)]
     ∧ validator.Passed (validator.Validate response expected testName) = false)
  ∧ (golang.Regexp_MatchString re (executor.Body response) = true →
     validator.validateBody response expected result = result
     ∧ validator.Errors (validator.validateBody response expected result)
       = validator.Errors result
     ∧ validator.Errors (validator.Validate response expected testName)
       = validator.Errors
           (validator.validateHeaders response expected
              (validator.validateStatusCode response expected freshResult)))
  ∧ golang.Contains (validator.regexMismatch (config.Regex b)) (config.Regex b) = true.
Proof.
  intros Hbody Hexact Hregex Hcompile.
  assert (bodyErrors response expected
          = if golang.Regexp_MatchString re (executor.Body response)
            then [] else [validator.regexMismatch (config.Regex b)]) as Hrule.
  { unfold bodyErrors. rewrite Hbody.
    rewrite decide_False by (by intros []). rewrite decide_True by done.
    unfold regexErrors. by rewrite Hcompile. }
  assert (validator.Errors (validator.Validate response expected testName)
          = validator.Errors
              (validator.validateHeaders response expected
                 (validator.validateStatusCode response expected freshResult))
            ++ bodyErrors response expected) as Hall.
  { rewrite Validate_errors.
    destruct (validateHeaders_frame response expected
      (validator.validateStatusCode response expected freshResult)) as (_ & _ & ->).
    destruct (validateStatusCode_frame response expected freshResult) as (_ & ->).
    simpl. by rewrite <-app_assoc. }
  destruct (validateBody_frame response expected result) as (_ & Hwarn & Herr).
  split; [|split].
  - intros Hmatch. rewrite Hmatch in Hrule. rewrite Hrule in Herr, Hall.
    split; [|split; [done | split; [|split; [done | split; [done |]]]]].
    + unfold validator.validateBody. rewrite Hbody.
      rewrite decide_False by (by intros []). rewrite decide_True by done.
      unfold golang.MatchString. by rewrite Hcompile, Hmatch.
    + rewrite Herr, length_app. simpl. lia.
    + destruct (validator.Passed (validator.Validate response expected testName))
        eqn:Hpassed; [|done].
      apply Validate_passed_flag in Hpassed. rewrite Hall in Hpassed.
      apply (f_equal length) in Hpassed. rewrite length_app in Hpassed.
      simpl in Hpassed. lia.
  - intros Hmatch. rewrite Hmatch in Hrule. rewrite Hrule in Herr, Hall.
    rewrite app_nil_r in Herr, Hall. split; [|by split].
    unfold validator.validateBody. rewrite Hbody.
    rewrite decide_False by (by intros []). rewrite decide_True by done.
    unfold golang.MatchString. by rewrite Hcompile, Hmatch.
  - unfold validator.regexMismatch. apply Contains_middle.
Qed.

(** C10.  The empty string is the unset value of [Exact] and [Regex].  With
    [Exact] empty the exact comparison is not made: the body rule contributes
    the errors of the regex rule, or, with [Regex] empty as well, those of
    the two lists, and none of them is an exact-match error.  In particular
    an expectation with both strings empty and both lists empty accepts every
    body, so an empty body cannot be demanded through [Exact]. *)
Theorem validateBody_empty_string_unset response expected b result :
  config.Body expected = Some b →
  config.Exact b = "" →
  validator.Errors (validator.validateBody response expected result)
    = validator.Errors result
        ++ (if decide (config.Regex b = "") then
              containsErrors (executor.Body response) (config.Contains b)
                ++ notContainsErrors (executor.Body response) (config.NotContains b)
            else regexErrors (config.Regex b) (executor.Body response))
  ∧ (∀ msg, msg ∈ bodyErrors response expected →
            golang.HasPrefix msg "Body exact match failed" = false)
  ∧ (config.Regex b = "" → config.Contains b = [] → config.NotContains b = [] →
     validator.validateBody response expected result = result).
Proof.
  intros Hbody Hexact.
  split; [|split].
  - destruct (validateBody_frame response expected result) as (_ & _ & ->).
    unfold bodyErrors. rewrite Hbody.
    rewrite decide_False by (by intros []).
    destruct (decide (config.Regex b = "")) as [Hregex|Hregex].
    + by rewrite decide_False by (by intros []).
    + by rewrite decide_True by done.
  - intros msg. unfold bodyErrors. rewrite Hbody.
    rewrite decide_False by (by intros []).
    case_decide as Hregex.
    + unfold regexErrors.
      destruct (golang.Compile (config.Regex b)) as [re|err].
      * destruct (golang.Regexp_MatchString re (executor.Body response)).
        -- by intros ?%elem_of_nil.
        -- by intros ->%list_elem_of_singleton.
      * by intros ->%list_elem_of_singleton.
    + unfold containsErrors, notContainsErrors.
      intros [Hin|Hin]%elem_of_app;
        apply list_elem_of_fmap in Hin as (s & -> & _); reflexivity.
  - intros Hregex Hc Hn. unfold validator.validateBody. rewrite Hbody.
    rewrite !decide_False by (by intros []). by rewrite Hc, Hn.
Qed.

End validator_claims.

(** ** Batch validation *)

Section batch.
Context `{ord : golang.MapOrder} `{eng : golang.RegexpEngine}.

(** The loop of [ValidateMultiple], started at index [k] with [m] indices to
    go: it returns, keeps the length of [results] and the entries below [k],
    and fills every entry from [k] on. *)
Lemma validateLoop_returns (responses : list executor.Response)
    (expected : list config.Expected) (testNames : list string) (m : nat) :
  ∀ (k : nat) (results : list (option validator.ValidationResult)),
    length expected = length responses →
    length testNames = length responses →
    length results = length responses →
    k + m = length responses →
    ∃ results',
      validator.validateLoop responses expected testNames results (seq k m)
        = golang.Returned results'
      ∧ length results' = length responses
      ∧ (∀ i, i < k → results' !! i = results !! i)
      ∧ (∀ i r e n, k ≤ i →
           responses !! i = Some r → expected !! i = Some e → testNames !! i = Some n →
           results' !! i = Some (Some (validator.Validate r e n))).
Proof.
  induction m as [|m IH]; intros k results Hexp Hnames Hres Hkm.
  - exists results. repeat split; [done |].
    intros i r e n Hki Hr%lookup_lt_Some _ _. lia.
  - cbn [seq validator.validateLoop].
    destruct (lookup_lt_is_Some_2 responses k) as [r0 Hr0]; [lia |].
    destruct (lookup_lt_is_Some_2 expected k) as [e0 He0]; [lia |].
    destruct (lookup_lt_is_Some_2 testNames k) as [n0 Hn0]; [lia |].
    rewrite Hr0, He0, Hn0. rewrite decide_True by lia.
    destruct (IH (S k) (<[k := Some (validator.Validate r0 e0 n0)]> results))
      as (results' & Hrun & Hlen & Hlow & Hhigh);
      [done | done | by rewrite length_insert | lia |].
    exists results'. split; [done | split; [done | split]].
    + intros i Hik. rewrite Hlow by lia. apply list_lookup_insert_ne. lia.
    + intros i r e n Hki Hr He Hn.
      destruct (decide (i = k)) as [->|Hne].
      * rewrite Hlow by lia. rewrite list_lookup_insert_eq by lia. congruence.
      * apply Hhigh; [lia | done..].
Qed.

(** C8.  [ValidateMultiple] panics whenever the three slices do not have the
    same length, and otherwise returns a slice of that length whose entry at
    each index is the result of [Validate] on the entries of the three
    slices at that index. *)
Theorem ValidateMultiple_spec (responses : list executor.Response)
    (expected : list config.Expected) (testNames : list string) :
  (length responses ≠ length expected ∨ length responses ≠ length testNames →
     validator.ValidateMultiple responses expected testNames
       = golang.Panicked "mismatched lengths in ValidateMultiple")
  ∧ (length responses = length expected → length responses = length testNames →
     ∃ results,
       validator.ValidateMultiple responses expected testNames = golang.Returned results
       ∧ length results = length responses
       ∧ ∀ i r e n,
           responses !! i = Some r → expected !! i = Some e → testNames !! i = Some n →
           results !! i = Some (Some (validator.Validate r e n))).
Proof.
  unfold validator.ValidateMultiple. split.
  - intros Hmismatch. by rewrite decide_True by done.
  - intros Hexp Hnames. rewrite decide_False by (intros [?|?]; done).
    destruct (validateLoop_returns responses expected testNames (length responses) 0
                (replicate (length responses) None))
      as (results & Hrun & Hlen & _ & Hfill);
      [done | done | by rewrite length_replicate | done |].
    exists results. split; [done | split; [done |]].
    intros i r e n. apply Hfill. lia.
Qed.

End batch.

(** ** The sequential runners *)

Section sequential.
Context `{ord : golang.MapOrder} `{eng : golang.RegexpEngine} `{wld : world.World}.
Context `{lv : golang.LoopVar}.

(** [client.runTests] records one result for every test, in input order. *)
Lemma runLoop_names (baseURL : string) (tests : list config.Test) :
  ∀ (testResults : list client.TestResult) (w : world.W),
    client.TestName <$> (client.runLoop baseURL tests testResults w).1
      = (client.TestName <$> testResults) ++ (config.Name <$> tests).
Proof.
  induction tests as [|test tests IH]; intros testResults w.
  - simpl. by rewrite app_nil_r.
  - cbn [client.runLoop].
    destruct (world.ExecuteTest test baseURL w) as [[response|err] w'];
      rewrite IH, fmap_app, <-app_assoc; done.
Qed.

Lemma passedStep_count (testResults : list client.TestResult) (n : nat) :
  foldl client.passedStep n testResults
    = n + length (filter (λ r, client.Passed r = true) testResults).
Proof.
  revert n. induction testResults as [|r testResults IH]; intros n; simpl; [lia |].
  rewrite IH, filter_cons. unfold client.passedStep.
  destruct (client.Passed r); simpl; lia.
Qed.

(** The counts of [client.runTests]: every test of the suite is counted, as
    passed or as failed. *)
Lemma runTests_counts (wafTest : config.SentinelTest) (w : world.W) :
  client.TotalTests (client.runTests wafTest w).1
    = length (config.Tests (config.Spec_ wafTest))
  ∧ client.PassedTests (client.runTests wafTest w).1
    + client.FailedTests (client.runTests wafTest w).1
    = client.TotalTests (client.runTests wafTest w).1
  ∧ client.TestName <$> client.TestResults (client.runTests wafTest w).1
    = config.Name <$> config.Tests (config.Spec_ wafTest).
Proof.
  unfold client.runTests.
  pose proof (runLoop_names (config.BaseURL (config.Target_ (config.Spec_ wafTest)))
                (config.Tests (config.Spec_ wafTest)) [] w) as Hnames.
  destruct (client.runLoop _ _ [] w) as [testResults w'] eqn:Hloop.
  simpl in *. split; [|split; [|done]].
  - by rewrite <-(length_fmap client.TestName), Hnames, length_fmap.
  - rewrite passedStep_count. simpl.
    pose proof (length_filter (λ r, client.Passed r = true) testResults). lia.
Qed.

(** Scenario F on [client.runTests]: the test whose request fails is recorded
    as failed, with the executor's error as its only error, and the run goes
    on to the second test. *)
Lemma runTests_transport_failure (wafTest : config.SentinelTest)
    (t1 t2 : config.Test) (w w1 w2 : world.W) (err : string)
    (response : executor.Response) :
  config.Tests (config.Spec_ wafTest) = [t1; t2] →
  world.ExecuteTest t1 (config.BaseURL (config.Target_ (config.Spec_ wafTest))) w
    = (inr err, w1) →
  world.ExecuteTest t2 (config.BaseURL (config.Target_ (config.Spec_ wafTest))) w1
    = (inl response, w2) →
  validator.Passed
    (validator.Validate response (config.Expected_ t2) (config.Name t2)) = true →
  client.TotalTests (client.runTests wafTest w).1 = 2
  ∧ client.PassedTests (client.runTests wafTest w).1 = 1
  ∧ client.FailedTests (client.runTests wafTest w).1 = 1
  ∧ ∃ r1 r2,
      client.TestResults (client.runTests wafTest w).1 = [r1; r2]
      ∧ client.TestName r1 = config.Name t1
      ∧ client.Passed r1 = false
      ∧ client.Errors r1 = [err]
      ∧ client.Warnings r1 = []
      ∧ client.TestName r2 = config.Name t2
      ∧ client.Passed r2 = true.
Proof.
  intros Htests Hfirst Hsecond Hpass.
  unfold client.runTests. rewrite Htests. cbn [client.runLoop].
  rewrite Hfirst. cbn [client.runLoop]. rewrite Hsecond. simpl.
  unfold client.passedStep at 1. simpl. rewrite Hpass. simpl.
  repeat split. eexists _, _. repeat split; done.
Qed.

(** C2 on the command-line runner.  In the situation of Scenario F,
    [executeTestsSequentially] records no report for the test whose request
    failed: the summary of [executeTests] counts one test, passed, and no
    failed test, and the process ends with exit status 0. *)
Theorem executeTests_transport_failure (sentinelTest : config.SentinelTest)
    (t1 t2 : config.Test) (w w1 w2 : world.W) (err : string)
    (response : executor.Response) (schedules : list (list main.label)) :
  config.Tests (config.Spec_ sentinelTest) = [t1; t2] →
  world.ExecuteTest t1 (config.BaseURL (config.Target_ (config.Spec_ sentinelTest))) w
    = (inr err, w1) →
  world.ExecuteTest t2 (config.BaseURL (config.Target_ (config.Spec_ sentinelTest))) w1
    = (inl response, w2) →
  validator.Passed
    (validator.Validate response (config.Expected_ t2) (config.Name t2)) = true →
  ∃ suiteReport,
    main.executeTests 1 schedules [sentinelTest] w = Some (suiteReport, 0%Z, w2)
    ∧ reporter.TotalTests suiteReport = 1
    ∧ reporter.PassedTests suiteReport = 1
    ∧ reporter.FailedTests suiteReport = 0
    ∧ reporter.TestName <$> reporter.Tests suiteReport = [config.Name t2].
Proof.
  intros Htests Hfirst Hsecond Hpass.
  unfold main.executeTests, main.suitesLoop, main.executeTestsSequentially.
  rewrite decide_True by done. rewrite Htests. cbn [main.sequentialLoop].
  rewrite Hfirst. cbn [main.sequentialLoop]. rewrite Hsecond.
  unfold reporter.GenerateSuiteReport, reporter.GenerateTestReport.
  rewrite Hpass. simpl. eexists. split; [reflexivity |]. done.
Qed.

End sequential.

(** ** The concurrent runner *)

Section concurrent.
Context `{ord : golang.MapOrder} `{eng : golang.RegexpEngine} `{wld : world.World}.

Implicit Types (gs : list (config.Test * main.pc)) (p : main.pc) (t : config.Test).

Lemma goroutine_split gs (i : nat) t p :
  gs !! i = Some (t, p) →
  ∀ p', ∃ l1 l2, gs = l1 ++ (t, p) :: l2 ∧ <[i := (t, p')]> gs = l1 ++ (t, p') :: l2.
Proof.
  intros Hi p'. exists (take i gs), (drop (S i) gs). split.
  - symmetry. by apply take_drop_middle.
  - apply insert_take_drop. by eapply lookup_lt_Some.
Qed.

Lemma count_insert (f : main.pc → bool) gs (i : nat) t p p' :
  gs !! i = Some (t, p) →
  count f (<[i := (t, p')]> gs) + (if f p then 1 else 0)
    = count f gs + (if f p' then 1 else 0).
Proof.
  intros Hi. destruct (goroutine_split gs i t p Hi p') as (l1 & l2 & Hgs & ->).
  rewrite Hgs. unfold count. rewrite !sum_list_with_app. simpl. lia.
Qed.

Lemma count_app (f : main.pc → bool) gs t p :
  count f (gs ++ [(t, p)]) = count f gs + (if f p then 1 else 0).
Proof. unfold count. rewrite sum_list_with_app. simpl. lia. Qed.

Lemma count_zero (f : main.pc → bool) gs (i : nat) t p :
  count f gs = 0 → gs !! i = Some (t, p) → f p = false.
Proof.
  intros Hzero Hi. destruct (goroutine_split gs i t p Hi p) as (l1 & l2 & Hgs & _).
  rewrite Hgs in Hzero. unfold count in Hzero.
  rewrite sum_list_with_app in Hzero. simpl in Hzero.
  destruct (f p); [lia | done].
Qed.

Lemma count_le (f g : main.pc → bool) gs :
  (∀ p, f p = true → g p = true) → count f gs ≤ count g gs.
Proof.
  intros Hfg. unfold count. induction gs as [|[t p] gs IH]; simpl; [done |].
  specialize (Hfg p). destruct (f p), (g p); lia.
Qed.

Lemma fst_insert gs (i : nat) t p p' :
  gs !! i = Some (t, p) → fst <$> <[i := (t, p')]> gs = fst <$> gs.
Proof.
  intros Hi. destruct (goroutine_split gs i t p Hi p') as (l1 & l2 & Hgs & ->).
  rewrite Hgs. by rewrite !fmap_app, !fmap_cons.
Qed.

Lemma merged_insert_same gs (i : nat) t p p' :
  gs !! i = Some (t, p) → merged p' = merged p →
  omap (λ g, merged g.2) (<[i := (t, p')]> gs) = omap (λ g, merged g.2) gs.
Proof.
  intros Hi Hsame. destruct (goroutine_split gs i t p Hi p') as (l1 & l2 & Hgs & ->).
  rewrite Hgs. rewrite !omap_app. f_equal.
  cbn [omap list_omap]. simpl. by rewrite Hsame.
Qed.

Lemma merged_insert_new gs (i : nat) t p p' (report : reporter.TestReport) :
  gs !! i = Some (t, p) → merged p = None → merged p' = Some report →
  omap (λ g, merged g.2) (<[i := (t, p')]> gs)
    ≡ₚ omap (λ g, merged g.2) gs ++ [report].
Proof.
  intros Hi Hold Hnew. destruct (goroutine_split gs i t p Hi p') as (l1 & l2 & Hgs & ->).
  rewrite Hgs. rewrite !omap_app. cbn [omap list_omap]. simpl.
  rewrite Hold, Hnew. rewrite <-app_assoc. f_equiv.
  by rewrite Permutation_cons_append.
Qed.

Lemma Inv_initial (sentinelTest : config.SentinelTest) (maxConcurrent : nat) (w : world.W) :
  Inv maxConcurrent (config.Tests (config.Spec_ sentinelTest))
    (main.initial sentinelTest w).
Proof. unfold Inv, main.initial; simpl. repeat split; [lia | done]. Qed.

Lemma Inv_stepMain (maxConcurrent : nat) (tests : list config.Test) (s s' : main.state) :
  Inv maxConcurrent tests s → main.stepMain s = Some s' → Inv maxConcurrent tests s'.
Proof.
  intros (Hsem & HN & Hcrit & Hwg & Hrep & Hmain) Hstep.
  unfold main.stepMain in Hstep.
  destruct (main.mainPC s) as [[|test rest]|rs] eqn:Hpc; [| |done].
  - case_decide as Hzero; [|done]. injection Hstep as <-.
    unfold Inv; simpl. rewrite app_nil_r in Hmain.
    repeat split; try done. by rewrite <-Hzero.
  - injection Hstep as <-. unfold Inv; simpl.
    rewrite !count_app, omap_app, fmap_app, <-app_assoc. simpl.
    rewrite app_nil_r. repeat split; try done; lia.
Qed.

(** A goroutine that can take a step has not finished, so the caller has
    not returned. *)
Lemma Inv_spawning (maxConcurrent : nat) (tests : list config.Test) (s : main.state)
    (i : nat) t p :
  Inv maxConcurrent tests s →
  main.goroutines s !! i = Some (t, p) →
  unfinished p = true →
  ∃ pending, main.mainPC s = main.Spawning pending
             ∧ (fst <$> main.goroutines s) ++ pending = tests.
Proof.
  intros (_ & _ & _ & Hwg & _ & Hmain) Hi Hun.
  destruct (main.mainPC s) as [pending|rs]; [by exists pending |].
  destruct Hmain as (_ & _ & Hzero). rewrite Hwg in Hzero.
  rewrite (count_zero unfinished _ i t p Hzero Hi) in Hun. done.
Qed.

(** The step of a goroutine to position [p']: the counts of the invariant
    change by what [p] and [p'] contribute, the started tests stay, and
    the appended reports change only when [p'] is the first position after
    the append. *)
Ltac goroutine_moves Hi Hslot Hin Hunf Hmain Hpc Hrep :=
  match goal with
  | |- Inv _ _ {| main.goroutines := <[_ := (_, ?p')]> _ |} =>
      specialize (Hslot p'); specialize (Hin p'); specialize (Hunf p');
      destruct (Hmain p') as [? ?];
      unfold Inv; simpl in *; rewrite Hpc;
      first [ rewrite (merged_insert_same _ _ _ _ p' Hi) by done
            | rewrite (merged_insert_new _ _ _ _ p' _ Hi) by done ];
      repeat split; try done; try (by rewrite Hrep); try lia
  end.

Lemma Inv_stepGo (baseURL : string) (maxConcurrent : nat) (tests : list config.Test)
    (s s' : main.state) (i : nat) t p :
  Inv maxConcurrent tests s →
  main.goroutines s !! i = Some (t, p) →
  main.stepGo baseURL maxConcurrent s i t p = Some s' →
  Inv maxConcurrent tests s'.
Proof.
  intros HInv Hi Hstep.
  assert (unfinished p = true) as Hun by (by destruct p).
  destruct (Inv_spawning _ _ _ _ _ _ HInv Hi Hun) as (pending & Hpc & Htests).
  destruct HInv as (Hsem & HN & Hcrit & Hwg & Hrep & _).
  assert (∀ p', main.mainPC s = main.Spawning pending
                ∧ (fst <$> <[i := (t, p')]> (main.goroutines s)) ++ pending = tests)
    as Hmain by (intros p'; by rewrite (fst_insert _ _ _ _ p' Hi)).
  pose proof (λ p', count_insert holdsSlot _ _ _ _ p' Hi) as Hslot.
  pose proof (λ p', count_insert inCritical _ _ _ _ p' Hi) as Hin.
  pose proof (λ p', count_insert unfinished _ _ _ _ p' Hi) as Hunf.
  destruct p as [| |start|report|report|report|report|m|m|m];
    simpl in Hstep; try done.
  - (* AtAcquire: a slot is free *)
    case_decide as Hfree; [|done]. injection Hstep as <-.
    goroutine_moves Hi Hslot Hin Hunf Hmain Hpc Hrep.
  - (* AtExecute *)
    injection Hstep as <-. goroutine_moves Hi Hslot Hin Hunf Hmain Hpc Hrep.
  - (* InFlight: the exchange ends, well or badly *)
    destruct (world.ExecuteTestWithContext t baseURL (main.theWorld s))
      as [[response|err] w'];
      injection Hstep as <-; goroutine_moves Hi Hslot Hin Hunf Hmain Hpc Hrep.
  - (* AtLock: the mutex is free *)
    destruct (main.mu s) eqn:Hmu; [done |]. injection Hstep as <-.
    goroutine_moves Hi Hslot Hin Hunf Hmain Hpc Hrep.
  - (* AtAppend: the report joins [reports] *)
    injection Hstep as <-. goroutine_moves Hi Hslot Hin Hunf Hmain Hpc Hrep.
  - (* AtUnlock: the goroutine was the holder of the mutex *)
    injection Hstep as <-. destruct (main.mu s);
      goroutine_moves Hi Hslot Hin Hunf Hmain Hpc Hrep.
  - (* AtPrint *)
    injection Hstep as <-. goroutine_moves Hi Hslot Hin Hunf Hmain Hpc Hrep.
  - (* AtRelease: the slot goes back *)
    destruct (main.semaphore s) as [|n] eqn:Hn; [done |]. injection Hstep as <-.
    goroutine_moves Hi Hslot Hin Hunf Hmain Hpc Hrep.
  - (* AtDone: the counter of the WaitGroup goes down *)
    destruct (main.wg s) as [|n] eqn:Hn; [done |]. injection Hstep as <-.
    goroutine_moves Hi Hslot Hin Hunf Hmain Hpc Hrep.
Qed.

Lemma Inv_step (baseURL : string) (maxConcurrent : nat) (tests : list config.Test)
    (l : main.label) (s s' : main.state) :
  Inv maxConcurrent tests s →
  main.step baseURL maxConcurrent l s = Some s' →
  Inv maxConcurrent tests s'.
Proof.
  intros HInv Hstep. destruct l as [|i]; simpl in Hstep.
  - by eapply Inv_stepMain.
  - destruct (main.goroutines s !! i) as [[t p]|] eqn:Hi; [|done].
    by eapply Inv_stepGo.
Qed.

Lemma Inv_run (baseURL : string) (maxConcurrent : nat) (tests : list config.Test)
    (schedule : list main.label) :
  ∀ s s', Inv maxConcurrent tests s →
          main.run baseURL maxConcurrent schedule s = Some s' →
          Inv maxConcurrent tests s'.
Proof.
  induction schedule as [|l schedule IH]; intros s s' HInv Hrun; simpl in Hrun.
  - by injection Hrun as <-.
  - destruct (main.step baseURL maxConcurrent l s) as [s1|] eqn:Hstep; [|done].
    eapply IH; [|done]. by eapply Inv_step.
Qed.

Lemma reachable_Inv (sentinelTest : config.SentinelTest) (maxConcurrent : nat)
    (w : world.W) (s : main.state) :
  reachable sentinelTest maxConcurrent w s →
  Inv maxConcurrent (config.Tests (config.Spec_ sentinelTest)) s.
Proof. intros [schedule Hrun]. eapply Inv_run; [apply Inv_initial | done]. Qed.

(** The only step that changes [reports] is the append of a goroutine that
    stands at [AtAppend]. *)
Lemma step_reports (baseURL : string) (maxConcurrent : nat) (l : main.label)
    (s s' : main.state) :
  main.step baseURL maxConcurrent l s = Some s' →
  main.reports s' = main.reports s
  ∨ ∃ i t report,
      l = main.Go i
      ∧ main.goroutines s !! i = Some (t, main.AtAppend report)
      ∧ main.reports s' = main.reports s ++ [report].
Proof.
  intros Hstep. destruct l as [|i]; simpl in Hstep.
  - left. unfold main.stepMain in Hstep.
    destruct (main.mainPC s) as [[|test rest]|rs]; [case_decide | |];
      by simplify_eq.
  - destruct (main.goroutines s !! i) as [[t p]|] eqn:Hi; [|done].
    destruct p as [| |start|report|report|report|report|m|m|m]; simpl in Hstep;
      try (left; by simplify_eq).
    + left. case_decide; by simplify_eq.
    + left. destruct (world.ExecuteTestWithContext _ _ _) as [[response|err] w'];
        by simplify_eq.
    + left. destruct (main.mu s); by simplify_eq.
    + right. exists i, t, report. by simplify_eq.
    + left. destruct (main.semaphore s); by simplify_eq.
    + left. destruct (main.wg s); by simplify_eq.
Qed.

(** A goroutine keeps the report it has built through every later step,
    its own or another's. *)
Lemma step_carried (baseURL : string) (maxConcurrent : nat) (l : main.label)
    (s s' : main.state) (j : nat) t p (report : reporter.TestReport) :
  main.step baseURL maxConcurrent l s = Some s' →
  main.goroutines s !! j = Some (t, p) →
  carried p = Some report →
  ∃ p', main.goroutines s' !! j = Some (t, p') ∧ carried p' = Some report.
Proof.
  intros Hstep Hj Hcarried. destruct l as [|i]; simpl in Hstep.
  - exists p. split; [|done]. unfold main.stepMain in Hstep.
    destruct (main.mainPC s) as [[|test rest]|rs]; [case_decide | |];
      simplify_eq; simpl; [done |].
    by apply lookup_app_l_Some.
  - destruct (main.goroutines s !! i) as [[ti pi]|] eqn:Hi; [|done].
    destruct (decide (i = j)) as [->|Hne].
    + assert (ti = t ∧ pi = p) as [-> ->] by (split; congruence).
      assert (j < length (main.goroutines s)) as Hlt by (by eapply lookup_lt_Some).
      destruct p as [| |start|r|r|r|r|m|m|m]; simpl in Hstep, Hcarried; try done.
      * destruct (main.mu s); [done |]. simplify_eq; simpl.
        eexists. by rewrite list_lookup_insert_eq.
      * simplify_eq; simpl. eexists. by rewrite list_lookup_insert_eq.
      * simplify_eq; simpl. eexists. by rewrite list_lookup_insert_eq.
      * simplify_eq; simpl. eexists. by rewrite list_lookup_insert_eq.
      * destruct (main.semaphore s); [done |]. simplify_eq; simpl.
        eexists. by rewrite list_lookup_insert_eq.
      * destruct (main.wg s); [done |]. simplify_eq; simpl.
        eexists. by rewrite list_lookup_insert_eq.
    + exists p. split; [|done].
      assert (main.goroutines s' !! j = main.goroutines s !! j) as ->; [|done].
      destruct pi as [| |start|r|r|r|r|m|m|m]; simpl in Hstep; try done;
        repeat case_match; simplify_eq; simpl; by apply list_lookup_insert_ne.
Qed.

Lemma run_carried (baseURL : string) (maxConcurrent : nat) (schedule : list main.label)
    (j : nat) t (report : reporter.TestReport) :
  ∀ (s s' : main.state) p,
    main.run baseURL maxConcurrent schedule s = Some s' →
    main.goroutines s !! j = Some (t, p) →
    carried p = Some report →
    ∃ p', main.goroutines s' !! j = Some (t, p') ∧ carried p' = Some report.
Proof.
  induction schedule as [|l schedule IH]; intros s s' p Hrun Hj Hcarried;
    simpl in Hrun.
  - injection Hrun as <-. by exists p.
  - destruct (main.step baseURL maxConcurrent l s) as [s1|] eqn:Hstep; [|done].
    destruct (step_carried _ _ _ _ _ _ _ _ _ Hstep Hj Hcarried) as (p1 & Hj1 & Hc1).
    by eapply IH.
Qed.

(** The discipline of the concurrent runner.  In every state a run of
    [executeTestsConcurrently] with limit [maxConcurrent] can reach:
    - at most [maxConcurrent] goroutines hold a slot of the semaphore, so
      at most [maxConcurrent] requests are in flight;
    - at most one goroutine is inside the critical section, and a step
      that changes [reports] is the append of a goroutine inside it, with
      the mutex locked;
    - when the caller has returned, a goroutine has been started for every
      test of the suite, all of them have finished, and the slice returned
      holds exactly the reports the goroutines appended;
    - a report a goroutine has built is in the slice the caller returns,
      however the run goes on from the state. *)
Theorem executeTestsConcurrently_discipline (sentinelTest : config.SentinelTest)
    (maxConcurrent : nat) (w : world.W) (s : main.state) :
  reachable sentinelTest maxConcurrent w s →
  (count inFlight (main.goroutines s) ≤ count holdsSlot (main.goroutines s)
   ∧ count holdsSlot (main.goroutines s) = main.semaphore s
   ∧ main.semaphore s ≤ maxConcurrent)
  ∧ (count inCritical (main.goroutines s) ≤ 1
     ∧ ∀ l s',
         main.step (config.BaseURL (config.Target_ (config.Spec_ sentinelTest)))
           maxConcurrent l s = Some s' →
         main.reports s' ≠ main.reports s →
         ∃ i t report,
           l = main.Go i
           ∧ main.goroutines s !! i = Some (t, main.AtAppend report)
           ∧ main.mu s = true
           ∧ count inCritical (main.goroutines s) = 1
           ∧ main.reports s' = main.reports s ++ [report])
  ∧ (∀ rs, main.mainPC s = main.Returned rs →
       fst <$> main.goroutines s = config.Tests (config.Spec_ sentinelTest)
       ∧ (∀ i t p, main.goroutines s !! i = Some (t, p) → ∃ m, p = main.Finished m)
       ∧ rs = main.reports s
       ∧ rs ≡ₚ omap (λ g, merged g.2) (main.goroutines s))
  ∧ (∀ j t p report schedule s' rs,
       main.goroutines s !! j = Some (t, p) →
       carried p = Some report →
       main.run (config.BaseURL (config.Target_ (config.Spec_ sentinelTest)))
         maxConcurrent schedule s = Some s' →
       main.mainPC s' = main.Returned rs →
       report ∈ rs).
Proof.
  intros Hreach. pose proof (reachable_Inv _ _ _ _ Hreach) as HInv.
  destruct HInv as (Hsem & HN & Hcrit & Hwg & Hrep & Hmain).
  split; [|split; [|split]].
  - split; [|by split]. apply count_le. by intros [].
  - split; [destruct (main.mu s); lia |].
    intros l s' Hstep Hchanged.
    destruct (step_reports _ _ _ _ _ Hstep) as [Hsame | (i & t & report & -> & Hi & Happ)];
      [done |].
    exists i, t, report.
    destruct (main.mu s) eqn:Hmu; [done |].
    by pose proof (count_zero inCritical _ i t _ Hcrit Hi).
  - intros rs Hpc. rewrite Hpc in Hmain. destruct Hmain as (Htests & -> & Hzero).
    split; [done | split; [|done]].
    intros i t p Hi. rewrite Hwg in Hzero.
    pose proof (count_zero unfinished _ i t p Hzero Hi) as Hfin.
    destruct p; try done. by eexists.
  - intros j t p report schedule s' rs Hj Hcarried Hrun Hpc.
    destruct (run_carried _ _ _ _ _ _ _ _ _ Hrun Hj Hcarried) as (p' & Hj' & Hc').
    pose proof (Inv_run _ _ _ _ _ _ (reachable_Inv _ _ _ _ Hreach) Hrun)
      as (_ & _ & _ & Hwg' & Hrep' & Hmain').
    rewrite Hpc in Hmain'. destruct Hmain' as (_ & -> & Hzero').
    rewrite Hwg' in Hzero'.
    pose proof (count_zero unfinished _ j t p' Hzero' Hj') as Hfin.
    destruct p' as [| |start|r|r|r|r|m|m|m]; try done. simpl in Hc'. subst m.
    rewrite Hrep'. apply list_elem_of_omap.
    exists (t, main.Finished (Some report)). split; [|done].
    by eapply list_elem_of_lookup_2.
Qed.

(** *** Absence of deadlock, and termination *)

Lemma count_pos (f : main.pc → bool) gs :
  0 < count f gs → ∃ i t p, gs !! i = Some (t, p) ∧ f p = true.
Proof.
  unfold count. induction gs as [|[t p] gs IH]; simpl; [lia |].
  destruct (f p) eqn:Hf.
  - intros _. by exists 0, t, p.
  - intros (i & t' & p' & Hi & Hf')%IH. by exists (S i), t', p'.
Qed.

Lemma stepGo_enabled (baseURL : string) (maxConcurrent : nat) (s : main.state)
    (i : nat) t p :
  main.goroutines s !! i = Some (t, p) →
  enabled maxConcurrent s p →
  ∃ s', main.step baseURL maxConcurrent (main.Go i) s = Some s'.
Proof.
  intros Hi Hen. simpl. rewrite Hi.
  destruct p as [| |start|r|r|r|r|m|m|m]; simpl in *; try done; try by eexists.
  - rewrite decide_True by done. by eexists.
  - destruct (world.ExecuteTestWithContext _ _ _) as [[response|err] w']; by eexists.
  - rewrite Hen. by eexists.
  - destruct (main.semaphore s); [lia | by eexists].
  - destruct (main.wg s); [lia | by eexists].
Qed.

(** In a reachable state of a run with a limit of at least one, either the
    caller has returned or some goroutine can take a step. *)
Lemma Inv_progress (baseURL : string) (maxConcurrent : nat) (tests : list config.Test)
    (s : main.state) :
  0 < maxConcurrent →
  Inv maxConcurrent tests s →
  (∃ rs, main.mainPC s = main.Returned rs)
  ∨ ∃ l s', main.step baseURL maxConcurrent l s = Some s'.
Proof.
  intros Hpos (Hsem & HN & Hcrit & Hwg & Hrep & Hmain).
  destruct (main.mainPC s) as [[|test rest]|rs] eqn:Hpc; [| |left; by exists rs].
  2:{ right. exists main.Main. simpl. unfold main.stepMain. rewrite Hpc. by eexists. }
  right. destruct (decide (main.wg s = 0)) as [Hzero|Hbusy].
  { exists main.Main. simpl. unfold main.stepMain. rewrite Hpc.
    rewrite decide_True by done. by eexists. }
  destruct (main.mu s) eqn:Hmu.
  - (* the mutex is held: its holder can step *)
    destruct (count_pos inCritical (main.goroutines s)) as (i & t & p & Hi & Hp);
      [lia |].
    exists (main.Go i). eapply stepGo_enabled; [done |]. by destruct p.
  - destruct (decide (main.semaphore s = 0)) as [Hnone|Hsome].
    + (* no slot is taken: a goroutine is waiting for one, or about to end *)
      destruct (count_pos unfinished (main.goroutines s)) as (i & t & p & Hi & Hp);
        [lia |].
      exists (main.Go i). eapply stepGo_enabled; [done |].
      assert (holdsSlot p = false) as Hfree.
      { eapply count_zero; [|done]. lia. }
      destruct p; simpl in *; try done; lia.
    + (* a slot is taken: its holder can step, the mutex being free *)
      destruct (count_pos holdsSlot (main.goroutines s)) as (i & t & p & Hi & Hp);
        [lia |].
      exists (main.Go i). eapply stepGo_enabled; [done |].
      destruct p; simpl in *; try done; lia.
Qed.

Lemma weight_insert gs (i : nat) t p p' :
  gs !! i = Some (t, p) →
  sum_list_with (λ g, weight g.2) (<[i := (t, p')]> gs) + weight p
    = sum_list_with (λ g, weight g.2) gs + weight p'.
Proof.
  intros Hi. destruct (goroutine_split gs i t p Hi p') as (l1 & l2 & Hgs & ->).
  rewrite Hgs. rewrite !sum_list_with_app. simpl. lia.
Qed.

(** Every step brings the run closer to its end. *)
Lemma step_decreases (baseURL : string) (maxConcurrent : nat) (l : main.label)
    (s s' : main.state) :
  main.step baseURL maxConcurrent l s = Some s' → stepsLeft s' < stepsLeft s.
Proof.
  intros Hstep. destruct l as [|i]; simpl in Hstep.
  - unfold main.stepMain in Hstep. unfold stepsLeft.
    destruct (main.mainPC s) as [[|test rest]|rs]; [case_decide | |];
      simplify_eq; simpl.
    + lia.
    + rewrite sum_list_with_app. simpl. lia.
  - destruct (main.goroutines s !! i) as [[t p]|] eqn:Hi; [|done].
    pose proof (λ p', weight_insert _ _ _ _ p' Hi) as Hw.
    destruct p as [| |start|r|r|r|r|m|m|m]; simpl in Hstep; try done;
      repeat case_match; simplify_eq; unfold stepsLeft; simpl;
      match goal with
      | |- context [<[_ := (_, ?p')]> _] => specialize (Hw p'); simpl in Hw; lia
      end.
Qed.

Lemma run_bounded (baseURL : string) (maxConcurrent : nat) (schedule : list main.label) :
  ∀ s s', main.run baseURL maxConcurrent schedule s = Some s' →
          length schedule + stepsLeft s' ≤ stepsLeft s.
Proof.
  induction schedule as [|l schedule IH]; intros s s' Hrun; simpl in Hrun.
  - injection Hrun as <-. simpl. lia.
  - destruct (main.step baseURL maxConcurrent l s) as [s1|] eqn:Hstep; [|done].
    apply step_decreases in Hstep. apply IH in Hrun. simpl. lia.
Qed.

Lemma run_app (baseURL : string) (maxConcurrent : nat) (sch1 sch2 : list main.label) :
  ∀ s s1, main.run baseURL maxConcurrent sch1 s = Some s1 →
          main.run baseURL maxConcurrent (sch1 ++ sch2) s
            = main.run baseURL maxConcurrent sch2 s1.
Proof.
  induction sch1 as [|l sch1 IH]; intros s s1 Hrun; simpl in *.
  - by injection Hrun as <-.
  - destruct (main.step baseURL maxConcurrent l s) as [s'|]; [by apply IH | done].
Qed.

(** From a reachable state the run can always be brought to its [return]. *)
Lemma Inv_completes (baseURL : string) (maxConcurrent : nat) (tests : list config.Test)
    (n : nat) :
  0 < maxConcurrent →
  ∀ s, Inv maxConcurrent tests s → stepsLeft s ≤ n →
       ∃ schedule s' rs,
         main.run baseURL maxConcurrent schedule s = Some s'
         ∧ main.mainPC s' = main.Returned rs.
Proof.
  intros Hpos. induction n as [|n IH]; intros s HInv Hleft.
  - destruct (Inv_progress baseURL _ _ _ Hpos HInv) as [[rs Hrs] | (l & s' & Hstep)].
    + by exists [], s, rs.
    + apply step_decreases in Hstep. lia.
  - destruct (Inv_progress baseURL _ _ _ Hpos HInv) as [[rs Hrs] | (l & s1 & Hstep)].
    + by exists [], s, rs.
    + destruct (IH s1) as (schedule & s' & rs & Hrun & Hrs).
      * by eapply Inv_step.
      * apply step_decreases in Hstep. lia.
      * exists (l :: schedule), s', rs. simpl. by rewrite Hstep.
Qed.

(** [executeTestsConcurrently] with a limit of at least one cannot block for
    ever and cannot run for ever: in a reachable state either the caller has
    returned or a step can be taken; no run is longer than ten steps for
    each test and one; and some schedule lets the call return. *)
Theorem executeTestsConcurrently_returns (sentinelTest : config.SentinelTest)
    (maxConcurrent : nat) (w : world.W) :
  0 < maxConcurrent →
  (∀ schedule s,
     main.run (config.BaseURL (config.Target_ (config.Spec_ sentinelTest)))
       maxConcurrent schedule (main.initial sentinelTest w) = Some s →
     length schedule ≤ 1 + 10 * length (config.Tests (config.Spec_ sentinelTest))
     ∧ ((∃ rs, main.mainPC s = main.Returned rs)
        ∨ ∃ l s',
            main.step (config.BaseURL (config.Target_ (config.Spec_ sentinelTest)))
              maxConcurrent l s = Some s'))
  ∧ ∃ schedule rs w',
      main.executeTestsConcurrently schedule sentinelTest maxConcurrent w
        = Some (rs, w').
Proof.
  intros Hpos. split.
  - intros schedule s Hrun. split.
    + apply run_bounded in Hrun. unfold stepsLeft at 2 in Hrun. simpl in Hrun. lia.
    + eapply Inv_progress; [done |]. apply reachable_Inv with (w := w).
      by exists schedule.
  - destruct (Inv_completes
                (config.BaseURL (config.Target_ (config.Spec_ sentinelTest)))
                maxConcurrent (config.Tests (config.Spec_ sentinelTest))
                (stepsLeft (main.initial sentinelTest w)) Hpos
                (main.initial sentinelTest w) (Inv_initial _ _ _) (le_n _))
      as (schedule & s' & rs & Hrun & Hrs).
    exists schedule, rs, (main.theWorld s').
    unfold main.executeTestsConcurrently. by rewrite Hrun, Hrs.
Qed.

End concurrent.

(** ** The reports of a run *)

Section runner_reports.
Context `{ord : golang.MapOrder} `{eng : golang.RegexpEngine} `{wld : world.World}.
Context `{lv : golang.LoopVar}.

Implicit Types (t : config.Test) (p : main.pc) (gs : list (config.Test * main.pc)).

Lemma GenerateTestReport_belongsTo t (response : executor.Response) (duration now : Z) :
  belongsTo t
    (reporter.GenerateTestReport (config.Name t) (config.Request_ t) response
       (validator.Validate response (config.Expected_ t) (config.Name t)) duration now).
Proof.
  unfold belongsTo, reporter.GenerateTestReport; simpl.
  repeat split. by destruct (validator.Passed _).
Qed.

Lemma belongsTo_reportsOn t (report : reporter.TestReport) :
  belongsTo t report
  ↔ reportsOn t report ∧ reporter.Request report = config.Request_ t.
Proof.
  unfold belongsTo, reportsOn.
  split; [intros (? & ? & ? & ?) | intros ((? & ? & ?) & ?)]; done.
Qed.

(** Assigning to the range variable leaves name, validation and status of
    the reports as they are. *)
Lemma rangeAssign_reportsOn (test : config.Test) (ts : list config.Test)
    (reports : list reporter.TestReport) :
  Forall2 reportsOn ts reports → Forall2 reportsOn ts (main.rangeAssign test reports).
Proof.
  intros Hall. unfold main.rangeAssign.
  induction Hall as [|t r ts reports Hr _ IH]; [constructor |].
  rewrite fmap_cons. constructor; [|done]. by destruct golang.perIteration.
Qed.

Lemma rangeAssign_requests (test : config.Test) (done ts : list config.Test)
    (reports : list reporter.TestReport) :
  requestsSeen done ts reports →
  requestsSeen (done ++ [test]) ts (main.rangeAssign test reports).
Proof.
  unfold requestsSeen, main.rangeAssign. destruct golang.perIteration.
  - intros Hall. induction Hall as [|t r ts reports Hr _ IH]; [constructor |].
    rewrite fmap_cons. by constructor.
  - intros _ final Hlast. rewrite last_snoc in Hlast. injection Hlast as <-.
    apply Forall_fmap, Forall_forall. by intros r _.
Qed.

(** The loop of [executeTestsSequentially], entered after the tests [done]
    with the reports of the tests [ts] among them: it ends with the reports
    of a subsequence of all the tests, in order; of all of them if no
    request fails. *)
Lemma sequentialLoop_reports (baseURL : string) (tests : list config.Test) :
  ∀ (done ts : list config.Test) (reports : list reporter.TestReport) (w : world.W),
    ts `sublist_of` done →
    Forall2 reportsOn ts reports →
    (neverFails → ts = done) →
    requestsSeen done ts reports →
    ∃ ts',
      ts' `sublist_of` done ++ tests
      ∧ Forall2 reportsOn ts' (main.sequentialLoop baseURL tests reports w).1
      ∧ (neverFails → ts' = done ++ tests)
      ∧ requestsSeen (done ++ tests) ts' (main.sequentialLoop baseURL tests reports w).1.
Proof.
  induction tests as [|test tests IH]; intros done ts reports w Hsub Hall Hnf Hreq.
  - exists ts. rewrite app_nil_r. by simpl.
  - cbn [main.sequentialLoop].
    pose proof (rangeAssign_reportsOn test _ _ Hall) as Hall1.
    pose proof (rangeAssign_requests test _ _ _ Hreq) as Hreq1.
    replace (done ++ test :: tests) with ((done ++ [test]) ++ tests)
      by (by rewrite <-app_assoc).
    destruct (world.ExecuteTest test baseURL w) as [[response|err] w1] eqn:Hexec.
    + apply IH with (ts := ts ++ [test]).
      * by apply sublist_app.
      * apply Forall2_app; [done |]. constructor; [|constructor].
        apply belongsTo_reportsOn, GenerateTestReport_belongsTo.
      * by intros ->%Hnf.
      * revert Hreq1. unfold requestsSeen. destruct golang.perIteration.
        -- intros Hown. apply Forall2_app; [done |]. by constructor.
        -- intros Hlast final Hfinal. apply Forall_app. split; [by apply Hlast |].
           rewrite last_snoc in Hfinal. injection Hfinal as <-. by constructor.
    + apply IH with (ts := ts).
      * by apply sublist_inserts_r.
      * done.
      * intros Hnever.
        destruct (Hnever test baseURL w) as (response & w' & Hok). congruence.
      * revert Hreq1. unfold requestsSeen. by destruct golang.perIteration.
Qed.

(** The reports of a sequential run tell of a subsequence of the tests of
    the suite, in the order of the suite: each report carries the name of its
    own test and the validation of its own response against the expectation
    of that test.  If no request fails there is a report for every test.
    The request a report shows depends on the range variable, whose address
    the report holds: with a variable for each iteration it is the request of
    the report's own test; with one variable for the loop every report shows
    the request of the last test of the suite. *)
Theorem executeTestsSequentially_reports (sentinelTest : config.SentinelTest)
    (w : world.W) :
  ∃ ts,
    ts `sublist_of` config.Tests (config.Spec_ sentinelTest)
    ∧ Forall2 reportsOn ts (main.executeTestsSequentially sentinelTest w).1
    ∧ reporter.TestName <$> (main.executeTestsSequentially sentinelTest w).1
      = config.Name <$> ts
    ∧ (neverFails → ts = config.Tests (config.Spec_ sentinelTest))
    ∧ (golang.perIteration = true →
       Forall2 belongsTo ts (main.executeTestsSequentially sentinelTest w).1)
    ∧ (golang.perIteration = false →
       ∀ final, last (config.Tests (config.Spec_ sentinelTest)) = Some final →
                Forall (λ report, reporter.Request report = config.Request_ final)
                  (main.executeTestsSequentially sentinelTest w).1).
Proof.
  unfold main.executeTestsSequentially.
  destruct (sequentialLoop_reports
              (config.BaseURL (config.Target_ (config.Spec_ sentinelTest)))
              (config.Tests (config.Spec_ sentinelTest)) [] [] [] w)
    as (ts & Hsub & Hall & Hnf & Hreq); [done | constructor | done | |].
  { unfold requestsSeen. destruct golang.perIteration; [constructor | done]. }
  simpl in Hsub, Hnf, Hreq. exists ts.
  split; [done | split; [done | split; [|split; [done | split]]]].
  - clear -Hall. induction Hall as [|t r ts new Hr _ IH]; [done |].
    rewrite !fmap_cons, IH. by destruct Hr as (-> & _).
  - intros Hper. unfold requestsSeen in Hreq. rewrite Hper in Hreq.
    clear -Hall Hreq. revert Hreq.
    induction Hall as [|t r ts new Hr _ IH]; intros Hreq; [constructor |].
    apply Forall2_cons in Hreq as [Hown Hreq].
    constructor; [by apply belongsTo_reportsOn | by apply IH].
  - intros Hper. unfold requestsSeen in Hreq. by rewrite Hper in Hreq.
Qed.

(** *** Concurrent runs *)

Lemma stepGo_next (baseURL : string) (maxConcurrent : nat) (s s' : main.state)
    (i : nat) t p :
  main.stepGo baseURL maxConcurrent s i t p = Some s' →
  ∃ p', main.goroutines s' = <[i := (t, p')]> (main.goroutines s)
        ∧ next baseURL (main.theWorld s) t p p'.
Proof.
  intros Hstep.
  destruct p as [| |start|report|report|report|report|m|m|m]; simpl in Hstep;
    try done; try (simplify_eq; by eexists).
  - case_decide; [|done]. simplify_eq. by eexists.
  - unfold next.
    destruct (world.ExecuteTestWithContext t baseURL (main.theWorld s))
      as [[response|err] w']; simplify_eq; by eexists.
  - destruct (main.mu s); [done |]. simplify_eq. by eexists.
  - destruct (main.semaphore s); [done |]. simplify_eq. by eexists.
  - destruct (main.wg s); [done |]. simplify_eq. by eexists.
Qed.

(** A property of the goroutines that holds of a goroutine just started and
    is kept by every step of a goroutine holds throughout a run. *)
Lemma step_Forall (Q : config.Test * main.pc → Prop) (baseURL : string)
    (maxConcurrent : nat) (l : main.label) (s s' : main.state) :
  (∀ t, Q (t, main.AtAcquire)) →
  (∀ w t p p', next baseURL w t p p' → Q (t, p) → Q (t, p')) →
  Forall Q (main.goroutines s) →
  main.step baseURL maxConcurrent l s = Some s' →
  Forall Q (main.goroutines s').
Proof.
  intros Hstart Hkeep Hall Hstep. destruct l as [|i]; simpl in Hstep.
  - unfold main.stepMain in Hstep.
    destruct (main.mainPC s) as [[|test rest]|rs]; [case_decide | |];
      simplify_eq; simpl; [done |].
    apply Forall_app. split; [done |]. by constructor.
  - destruct (main.goroutines s !! i) as [[t p]|] eqn:Hi; [|done].
    destruct (stepGo_next _ _ _ _ _ _ _ Hstep) as (p' & -> & Hnext).
    apply Forall_insert; [done |]. eapply Hkeep; [done |].
    by eapply (Forall_lookup_1 Q).
Qed.

Lemma run_Forall (Q : config.Test * main.pc → Prop) (baseURL : string)
    (maxConcurrent : nat) (schedule : list main.label) :
  (∀ t, Q (t, main.AtAcquire)) →
  (∀ w t p p', next baseURL w t p p' → Q (t, p) → Q (t, p')) →
  ∀ s s', Forall Q (main.goroutines s) →
          main.run baseURL maxConcurrent schedule s = Some s' →
          Forall Q (main.goroutines s').
Proof.
  intros Hstart Hkeep.
  induction schedule as [|l schedule IH]; intros s s' Hall Hrun; simpl in Hrun.
  - by injection Hrun as <-.
  - destruct (main.step baseURL maxConcurrent l s) as [s1|] eqn:Hstep; [|done].
    eapply IH; [|done]. by eapply step_Forall.
Qed.

(** The report a goroutine carries is the report of its own test. *)
Lemma next_belongsTo (baseURL : string) (w : world.W) t p p' :
  next baseURL w t p p' →
  (∀ report, carried p = Some report → belongsTo t report) →
  ∀ report, carried p' = Some report → belongsTo t report.
Proof.
  intros Hnext Hp report Hcarried.
  destruct p as [| |start|r|r|r|r|m|m|m]; simpl in Hnext; try done;
    try (subst p'; simpl in *; by auto).
  destruct (world.ExecuteTestWithContext t baseURL w) as [[response|err] w'];
    subst p'; simpl in Hcarried; [|done].
  injection Hcarried as <-. apply GenerateTestReport_belongsTo.
Qed.

(** If no request fails no goroutine takes the return path without a
    report. *)
Lemma next_failedRequest (baseURL : string) (w : world.W) t p p' :
  neverFails →
  next baseURL w t p p' →
  failedRequest p = false → failedRequest p' = false.
Proof.
  intros Hnever Hnext Hp.
  destruct p as [| |start|r|r|r|r|m|m|m]; simpl in Hnext; try done;
    try (subst p'; simpl in *; by auto).
  unfold world.ExecuteTestWithContext in Hnext.
  destruct (Hnever t baseURL w) as (response & w' & Hok).
  rewrite Hok in Hnext. by subst p'.
Qed.

(** The reports the goroutines have appended, read off the goroutines in
    the order of the tests. *)
Lemma merged_reports gs :
  Forall (λ g, ∀ report, carried g.2 = Some report → belongsTo g.1 report) gs →
  omap mergedTest gs `sublist_of` (fst <$> gs)
  ∧ Forall2 belongsTo (omap mergedTest gs) (omap (λ g, merged g.2) gs).
Proof.
  induction 1 as [|[t p] gs Hg _ [IHsub IHall]]; [by split; constructor |].
  cbn [omap list_omap fmap list_fmap]. simpl in Hg.
  change (mergedTest (t, p))
    with (match merged p with Some _ => Some t | None => None end).
  cbn [fst snd].
  destruct (merged p) as [report|] eqn:Hmerged.
  - split; [by apply sublist_skip |]. constructor; [|done].
    apply Hg. by destruct p.
  - split; [by apply sublist_cons | done].
Qed.

Lemma merged_all gs :
  Forall (λ g, failedRequest g.2 = false) gs →
  Forall (λ g, unfinished g.2 = false) gs →
  omap mergedTest gs = fst <$> gs.
Proof.
  induction 1 as [|[t p] gs Hg _ IH]; intros Hfin; [done |].
  apply Forall_cons in Hfin as [Hp Hfin].
  cbn [omap list_omap fmap list_fmap]. simpl in Hg, Hp.
  change (mergedTest (t, p))
    with (match merged p with Some _ => Some t | None => None end).
  rewrite IH by done. by destruct p as [| | | | | | | | |[r|]].
Qed.

Lemma concurrent_reports (schedule : list main.label)
    (sentinelTest : config.SentinelTest) (maxConcurrent : nat) (w w' : world.W)
    (rs : list reporter.TestReport) :
  main.executeTestsConcurrently schedule sentinelTest maxConcurrent w = Some (rs, w') →
  ∃ ts ordered,
    ts `sublist_of` config.Tests (config.Spec_ sentinelTest)
    ∧ rs ≡ₚ ordered
    ∧ Forall2 belongsTo ts ordered
    ∧ reporter.TestName <$> rs ≡ₚ config.Name <$> ts
    ∧ (neverFails → ts = config.Tests (config.Spec_ sentinelTest)).
Proof.
  unfold main.executeTestsConcurrently.
  destruct (main.run _ _ _ _) as [s|] eqn:Hrun; [|done].
  destruct (main.mainPC s) as [pending|rs'] eqn:Hpc; [done |].
  intros [= -> <-].
  pose proof (Inv_run _ _ _ _ _ _
                (Inv_initial sentinelTest maxConcurrent w) Hrun)
    as (_ & _ & _ & Hwg & Hrep & Hmain).
  rewrite Hpc in Hmain. destruct Hmain as (Htests & -> & Hzero).
  rewrite Hwg in Hzero.
  assert (Forall (λ g, unfinished g.2 = false) (main.goroutines s)) as Hfin.
  { apply Forall_lookup. intros i [t p] Hi. by eapply count_zero. }
  assert (Forall (λ g, ∀ report, carried g.2 = Some report → belongsTo g.1 report)
            (main.goroutines s)) as Hbelong.
  { refine (run_Forall
              (λ g, ∀ report, carried g.2 = Some report → belongsTo g.1 report)
              _ _ _ _ _ _ _ _ Hrun).
    - by intros t report.
    - intros w0 t p p' Hnext Hp. simpl in *. by eapply next_belongsTo.
    - by constructor. }
  destruct (merged_reports _ Hbelong) as [Hsub Hall].
  exists (omap mergedTest (main.goroutines s)),
         (omap (λ g, merged g.2) (main.goroutines s)).
  rewrite <-Htests. split; [done | split; [done | split; [done | split]]].
  - rewrite Hrep. clear -Hall.
    induction Hall as [|t r ts new Hb _ IH]; [done |].
    rewrite !fmap_cons, IH. by destruct Hb as (-> & _).
  - intros Hnever. apply merged_all; [|done].
    refine (run_Forall (λ g, failedRequest g.2 = false) _ _ _ _ _ _ _ _ Hrun).
    + done.
    + intros w0 t p p' Hnext Hp. simpl in *. by eapply next_failedRequest.
    + by constructor.
Qed.

(** A goroutine whose request fails whenever it is made never carries a
    report. *)
Lemma next_carried_failing (baseURL : string) (failing : config.Test) (w : world.W)
    t p p' :
  (∀ w0, ∃ err w1, world.ExecuteTest failing baseURL w0 = (inr err, w1)) →
  next baseURL w t p p' →
  (t = failing → carried p = None) →
  t = failing → carried p' = None.
Proof.
  intros Hfails Hnext Hp Ht. specialize (Hp Ht). subst t.
  destruct p as [| |start|report|report|report|report|m|m|m]; simpl in Hnext, Hp;
    try discriminate; try done; subst; try done.
  unfold world.ExecuteTestWithContext in Hnext.
  destruct (Hfails w) as (err & w1 & Heq). rewrite Heq in Hnext. by subst.
Qed.

Lemma length_omap_lt {A B : Type} (f : A → option B) (l : list A) (x : A) :
  x ∈ l → f x = None → length (omap f l) < length l.
Proof.
  assert (∀ k : list A, length (omap f k) ≤ length k) as Hle.
  { induction k as [|y k IH]; [done |].
    cbn [omap list_omap]. destruct (f y); simpl; lia. }
  intros Hin Hx. induction l as [|y l IH]; [by apply elem_of_nil in Hin |].
  apply elem_of_cons in Hin as [<- | Hin]; cbn [omap list_omap].
  - rewrite Hx. specialize (Hle l). simpl. lia.
  - specialize (IH Hin). destruct (f y); simpl; lia.
Qed.

(** C9.  The outcome of a test whose request fails.  In
    [executeTestsConcurrently] the goroutine of a test whose request fails
    returns without building a report: for a suite that holds such a test,
    whatever the limit and the interleaving, the slice the caller returns has
    fewer reports than the suite has tests, and its reports are, up to
    order, those of a proper subsequence of the tests.  The outcome of the
    failed test is not merged into the result. *)
Theorem executeTestsConcurrently_transport_failure (schedule : list main.label)
    (sentinelTest : config.SentinelTest) (maxConcurrent : nat) (failing : config.Test)
    (w w' : world.W) (rs : list reporter.TestReport) :
  failing ∈ config.Tests (config.Spec_ sentinelTest) →
  (∀ w0, ∃ err w1,
     world.ExecuteTest failing
       (config.BaseURL (config.Target_ (config.Spec_ sentinelTest))) w0 = (inr err, w1)) →
  main.executeTestsConcurrently schedule sentinelTest maxConcurrent w = Some (rs, w') →
  length rs < length (config.Tests (config.Spec_ sentinelTest))
  ∧ ∃ ts ordered,
      ts `sublist_of` config.Tests (config.Spec_ sentinelTest)
      ∧ rs ≡ₚ ordered
      ∧ Forall2 belongsTo ts ordered
      ∧ length ts < length (config.Tests (config.Spec_ sentinelTest)).
Proof.
  intros Hin Hfails Hrun.
  assert (length rs < length (config.Tests (config.Spec_ sentinelTest))) as Hfewer.
  { revert Hrun. unfold main.executeTestsConcurrently.
    destruct (main.run _ _ _ _) as [s|] eqn:Hrun; [|done].
    destruct (main.mainPC s) as [pending|rs'] eqn:Hpc; [done |].
    intros [= -> <-].
    pose proof (Inv_run _ _ _ _ _ _
                  (Inv_initial sentinelTest maxConcurrent w) Hrun)
      as (_ & _ & _ & _ & Hrep & Hmain).
    rewrite Hpc in Hmain. destruct Hmain as (Htests & -> & _).
    assert (Forall (λ g, g.1 = failing → carried g.2 = None) (main.goroutines s))
      as Hnone.
    { refine (run_Forall (λ g, g.1 = failing → carried g.2 = None)
                _ _ _ _ _ _ _ _ Hrun).
      - done.
      - intros w0 t p p' Hnext Hp. simpl in *. by eapply next_carried_failing.
      - by constructor. }
    rewrite <-Htests, length_fmap, Hrep.
    rewrite <-Htests in Hin. apply list_elem_of_fmap in Hin as ([t p] & Ht & Hg).
    simpl in Ht. subst t.
    apply (length_omap_lt _ _ (failing, p)); [done |].
    eapply Forall_forall in Hnone; [|done]. simpl in Hnone.
    specialize (Hnone eq_refl). by destruct p. }
  split; [done |].
  destruct (concurrent_reports _ _ _ _ _ _ Hrun)
    as (ts & ordered & Hsub & Hperm & Hall & _).
  exists ts, ordered. split; [done | split; [done | split; [done |]]].
  by rewrite (Forall2_length _ _ _ Hall), <-Hperm.
Qed.

(** The slice a concurrent run returns holds, up to order, the reports of
    a subsequence of the tests of the suite: each report carries the name
    and request of its own test and the validation of its own response
    against the expectation of that test, whatever the interleaving.  If no
    request fails there is a report for every test. *)
Theorem executeTestsConcurrently_reports (schedule : list main.label)
    (sentinelTest : config.SentinelTest) (maxConcurrent : nat) (w w' : world.W)
    (rs : list reporter.TestReport) :
  main.executeTestsConcurrently schedule sentinelTest maxConcurrent w = Some (rs, w') →
  ∃ ts ordered,
    ts `sublist_of` config.Tests (config.Spec_ sentinelTest)
    ∧ rs ≡ₚ ordered
    ∧ Forall2 belongsTo ts ordered
    ∧ reporter.TestName <$> rs ≡ₚ config.Name <$> ts
    ∧ (neverFails → ts = config.Tests (config.Spec_ sentinelTest)).
Proof. intros Hrun. by eapply concurrent_reports. Qed.

(** *** The summary *)

Lemma countStep_fold (testReports : list reporter.TestReport) :
  ∀ acc : nat * nat,
    foldl reporter.countStep acc testReports
      = (acc.1 + length (filter (λ r, reporter.Status r = "PASS") testReports),
         acc.2 + length (filter (λ r, reporter.Status r ≠ "PASS") testReports)).
Proof.
  induction testReports as [|r testReports IH]; intros [passed failed]; simpl.
  - f_equal; lia.
  - rewrite IH, !filter_cons. unfold reporter.countStep.
    destruct (decide (reporter.Status r = "PASS")) as [Hr|Hr]; simpl.
    + rewrite decide_False by (by intros []). f_equal; lia.
    + rewrite decide_True by done. simpl. f_equal; lia.
Qed.

(** The counts of a suite report partition the reports: every report is
    counted once, as passed when its status is ["PASS"] and as failed
    otherwise, and the counts of two lists of reports add up. *)
Theorem GenerateSuiteReport_counts (suiteName : string)
    (testReports more : list reporter.TestReport) (totalDuration now : Z) :
  reporter.Tests (reporter.GenerateSuiteReport suiteName testReports totalDuration now)
    = testReports
  ∧ reporter.TotalTests (reporter.GenerateSuiteReport suiteName testReports totalDuration now)
    = length testReports
  ∧ reporter.PassedTests (reporter.GenerateSuiteReport suiteName testReports totalDuration now)
    = length (filter (λ r, reporter.Status r = "PASS") testReports)
  ∧ reporter.FailedTests (reporter.GenerateSuiteReport suiteName testReports totalDuration now)
    = length (filter (λ r, reporter.Status r ≠ "PASS") testReports)
  ∧ reporter.PassedTests (reporter.GenerateSuiteReport suiteName testReports totalDuration now)
    + reporter.FailedTests (reporter.GenerateSuiteReport suiteName testReports totalDuration now)
    = reporter.TotalTests (reporter.GenerateSuiteReport suiteName testReports totalDuration now)
  ∧ reporter.PassedTests
      (reporter.GenerateSuiteReport suiteName (testReports ++ more) totalDuration now)
    = reporter.PassedTests
        (reporter.GenerateSuiteReport suiteName testReports totalDuration now)
      + reporter.PassedTests (reporter.GenerateSuiteReport suiteName more totalDuration now)
  ∧ reporter.FailedTests
      (reporter.GenerateSuiteReport suiteName (testReports ++ more) totalDuration now)
    = reporter.FailedTests
        (reporter.GenerateSuiteReport suiteName testReports totalDuration now)
      + reporter.FailedTests (reporter.GenerateSuiteReport suiteName more totalDuration now).
Proof.
  unfold reporter.GenerateSuiteReport. rewrite !countStep_fold. simpl.
  rewrite !filter_app, !length_app.
  repeat split; try done.
  induction testReports as [|r testReports IH]; [done |].
  rewrite !filter_cons. simpl.
  destruct (decide (reporter.Status r = "PASS")) as [Hr|Hr].
  - rewrite decide_False by (by intros []). simpl. lia.
  - rewrite decide_True by done. simpl. lia.
Qed.

(** The status of a report is ["PASS"] exactly when the validation found no
    error. *)
Lemma reportsOn_status t (report : reporter.TestReport) :
  reportsOn t report →
  reporter.Status report = "PASS"
  ↔ validator.Errors (reporter.ValidationResult report) = [].
Proof.
  intros (_ & Hval & Hstatus). rewrite Hstatus.
  rewrite Hval at 2. rewrite <-Validate_passed_flag, <-Hval.
  by destruct (validator.Passed _).
Qed.

Lemma reportOfSuite_impl (own own' : Prop) (st : config.SentinelTest)
    (report : reporter.TestReport) :
  (own' → own) → reportOfSuite own st report → reportOfSuite own' st report.
Proof.
  intros Himpl (t & shown & Ht & Hshown & Hon & Hreq & Hown).
  exists t, shown. repeat (split; [done |]). intros Ho. by apply Hown, Himpl.
Qed.

(** The reports of a sequential run are reports of the suite. *)
Lemma sequential_reportOfSuite (st : config.SentinelTest) (w : world.W) :
  Forall (reportOfSuite (golang.perIteration = true) st)
    (main.executeTestsSequentially st w).1.
Proof.
  unfold main.executeTestsSequentially.
  destruct (sequentialLoop_reports
              (config.BaseURL (config.Target_ (config.Spec_ st)))
              (config.Tests (config.Spec_ st)) [] [] [] w)
    as (ts & Hsub & Hall & _ & Hreq); [done | constructor | done | |].
  { unfold requestsSeen. destruct golang.perIteration; [constructor | done]. }
  simpl in Hsub, Hreq. apply Forall_lookup. intros i r Hi.
  destruct (Forall2_lookup_r _ _ _ _ _ Hall Hi) as (t & Ht & Hon).
  assert (t ∈ config.Tests (config.Spec_ st)) as Hin.
  { eapply elem_of_submseteq; [by eapply list_elem_of_lookup_2 |].
    by apply sublist_submseteq. }
  unfold requestsSeen in Hreq. destruct golang.perIteration eqn:Hper.
  - exists t, t. repeat (split; [done |]). split; [|done].
    by eapply (Forall2_lookup_lr _ _ _ _ _ _ Hreq).
  - destruct (last (config.Tests (config.Spec_ st))) as [final|] eqn:Hlast.
    + exists t, final. split; [done |]. split.
      { apply last_Some in Hlast as [k ->]. apply elem_of_app. right. by left. }
      split; [done |]. split; [|done].
      specialize (Hreq final eq_refl).
      eapply Forall_lookup in Hreq; [|done]. done.
    + apply last_None in Hlast. rewrite Hlast in Hin. by apply elem_of_nil in Hin.
Qed.

(** The reports of a concurrent run are reports of the suite, each showing
    the request of its own test. *)
Lemma concurrent_reportOfSuite (schedule : list main.label) (st : config.SentinelTest)
    (maxConcurrent : nat) (w w' : world.W) (rs : list reporter.TestReport) :
  main.executeTestsConcurrently schedule st maxConcurrent w = Some (rs, w') →
  Forall (reportOfSuite True st) rs.
Proof.
  intros Hrun.
  destruct (concurrent_reports _ _ _ _ _ _ Hrun)
    as (ts & ordered & Hsub & Hperm & Hall & _).
  rewrite Hperm. apply Forall_lookup. intros i r Hi.
  destruct (Forall2_lookup_r _ _ _ _ _ Hall Hi) as (t & Ht & Hb).
  assert (t ∈ config.Tests (config.Spec_ st)) as Hin.
  { eapply elem_of_submseteq; [by eapply list_elem_of_lookup_2 |].
    by apply sublist_submseteq. }
  apply belongsTo_reportsOn in Hb as [Hon Hreq].
  by exists t, t.
Qed.

(** The reports [executeTests] gathers over the suites are reports of these
    suites; they show the request of their own test in a concurrent run, and
    in a sequential run when each iteration has its variable. *)
Lemma suitesLoop_reports (concurrent : Z) (tests : list config.SentinelTest) :
  ∀ (schedules : list (list main.label)) (allReports all : list reporter.TestReport)
    (w w' : world.W),
    main.suitesLoop concurrent schedules tests allReports w = Some (all, w') →
    ∃ new,
      all = allReports ++ new
      ∧ Forall (λ r, ∃ st, st ∈ tests
                           ∧ reportOfSuite
                               (golang.perIteration = true ∨ (1 < concurrent)%Z) st r)
          new.
Proof.
  induction tests as [|test tests IH]; intros schedules allReports all w w' Hloop;
    cbn [main.suitesLoop] in Hloop.
  - injection Hloop as <- <-. exists []. by rewrite app_nil_r.
  - assert (∀ new rest,
              Forall (reportOfSuite (golang.perIteration = true ∨ (1 < concurrent)%Z)
                        test) new →
              Forall (λ r, ∃ st, st ∈ tests
                                 ∧ reportOfSuite
                                     (golang.perIteration = true ∨ (1 < concurrent)%Z)
                                     st r) rest →
              Forall (λ r, ∃ st, st ∈ test :: tests
                                 ∧ reportOfSuite
                                     (golang.perIteration = true ∨ (1 < concurrent)%Z)
                                     st r) (new ++ rest)) as Hjoin.
    { intros new rest Hnew Hrest. apply Forall_app. split.
      - eapply Forall_impl; [done |]. intros r Hr. exists test. split; [by left | done].
      - eapply Forall_impl; [done |]. intros r (st & Hst & Hr).
        exists st. split; [by right | done]. }
    case_decide as Hmode.
    + pose proof (sequential_reportOfSuite test w) as Hnew.
      destruct (main.executeTestsSequentially test w) as [reports w1].
      simpl in Hnew.
      destruct (IH _ _ _ _ _ Hloop) as (rest & -> & Hrest).
      exists (reports ++ rest). rewrite app_assoc. split; [done |].
      apply Hjoin; [|done]. eapply Forall_impl; [done |].
      intros r. apply reportOfSuite_impl. intros [Hper | Hlimit]; [done | lia].
    + destruct (main.executeTestsConcurrently _ test _ w) as [[reports w1]|] eqn:Hrun;
        [|done].
      pose proof (concurrent_reportOfSuite _ _ _ _ _ _ Hrun) as Hnew.
      destruct (IH _ _ _ _ _ Hloop) as (rest & -> & Hrest).
      exists (reports ++ rest). rewrite app_assoc. split; [done |].
      apply Hjoin; [|done]. eapply Forall_impl; [done |].
      intros r. by apply reportOfSuite_impl.
Qed.

(** The exit status of [executeTests] tells whether a report carries a
    validation error. *)
Lemma executeTests_status (concurrent : Z) (schedules : list (list main.label))
    (tests : list config.SentinelTest) (w w' : world.W)
    (suiteReport : reporter.SuiteReport) (code : Z) :
  main.executeTests concurrent schedules tests w = Some (suiteReport, code, w') →
  code = 0%Z
  ∧ Forall (λ r, validator.Errors (reporter.ValidationResult r) = [])
      (reporter.Tests suiteReport)
  ∨ code = 1%Z
    ∧ Exists (λ r, validator.Errors (reporter.ValidationResult r) ≠ [])
        (reporter.Tests suiteReport).
Proof.
  unfold main.executeTests.
  destruct (main.suitesLoop concurrent schedules tests [] w) as [[all w1]|] eqn:Hloop;
    [|done].
  intros [= <- <- <-].
  destruct (suitesLoop_reports _ _ _ _ _ _ _ Hloop) as (new & -> & Hall).
  simpl in Hall |- *.
  unfold reporter.GenerateSuiteReport. rewrite countStep_fold. simpl.
  case_decide as Hfailed.
  - right. split; [done |].
    destruct (filter (λ r, reporter.Status r ≠ "PASS") new) as [|r bad] eqn:Hbad;
      [simpl in Hfailed; lia |].
    assert (r ∈ filter (λ r, reporter.Status r ≠ "PASS") new) as Hr
      by (rewrite Hbad; by left).
    apply list_elem_of_filter in Hr as [Hstatus Hin].
    apply Exists_exists. exists r. split; [done |].
    eapply Forall_forall in Hall as (st & _ & t & _ & _ & _ & Hon & _); [|done].
    intros Hnil. by apply (reportsOn_status _ _ Hon) in Hnil.
  - left. split; [done |].
    apply Forall_forall. intros r Hin.
    eapply Forall_forall in Hall as (st & _ & t & _ & _ & _ & Hon & _); [|done].
    apply (reportsOn_status _ _ Hon).
    destruct (decide (reporter.Status r = "PASS")) as [|Hstatus]; [done |].
    assert (r ∈ filter (λ r, reporter.Status r ≠ "PASS") new) as Hr
      by (by apply list_elem_of_filter).
    destruct (filter _ new); [by apply elem_of_nil in Hr | simpl in Hfailed; lia].
Qed.

(** What [executeTests] reports and how the process ends.  Every report of
    the summary is a report of one of the suites: it tells of a test of that
    suite (name, validation of the response it carries, status) and shows
    the request of a test of that suite, which is its own test in a
    concurrent run and, in a sequential run, when each iteration of the loop
    has its variable.  The counts partition the reports; the exit status is
    0 when every report is free of validation errors and 1 when some report
    has one. *)
Theorem executeTests_summary (concurrent : Z) (schedules : list (list main.label))
    (tests : list config.SentinelTest) (w w' : world.W)
    (suiteReport : reporter.SuiteReport) (code : Z) :
  main.executeTests concurrent schedules tests w = Some (suiteReport, code, w') →
  Forall (λ r, ∃ st, st ∈ tests
                     ∧ reportOfSuite (golang.perIteration = true ∨ (1 < concurrent)%Z)
                         st r)
    (reporter.Tests suiteReport)
  ∧ reporter.TotalTests suiteReport = length (reporter.Tests suiteReport)
  ∧ reporter.PassedTests suiteReport + reporter.FailedTests suiteReport
    = reporter.TotalTests suiteReport
  ∧ (code = 0%Z
     ∧ Forall (λ r, validator.Errors (reporter.ValidationResult r) = [])
         (reporter.Tests suiteReport)
     ∨ code = 1%Z
       ∧ Exists (λ r, validator.Errors (reporter.ValidationResult r) ≠ [])
           (reporter.Tests suiteReport)).
Proof.
  intros Hrun. pose proof (executeTests_status _ _ _ _ _ _ _ Hrun) as Hcode.
  revert Hrun Hcode. unfold main.executeTests.
  destruct (main.suitesLoop concurrent schedules tests [] w) as [[all w1]|] eqn:Hloop;
    [|done].
  intros [= <- <- <-] Hcode.
  destruct (suitesLoop_reports _ _ _ _ _ _ _ Hloop) as (new & -> & Hall).
  simpl in Hall. revert Hcode.
  unfold reporter.GenerateSuiteReport. rewrite countStep_fold. simpl. intros Hcode.
  split; [exact Hall | split; [done | split; [|exact Hcode]]].
  clear. induction new as [|r new IH]; [done |].
  rewrite !filter_cons. simpl.
  destruct (decide (reporter.Status r = "PASS")) as [Hr|Hr].
  - rewrite decide_False by (by intros []). simpl. lia.
  - rewrite decide_True by done. simpl. lia.
Qed.

End runner_reports.

(** ** The header snapshot *)

Section header_snapshot.
Context `{hord : golang.RangeOrder (list string)}.

Lemma join_loop_prefix (sep : string) (rest : list string) :
  ∀ b, ∃ post, foldl (λ b s, b +:+ sep +:+ s) b rest = b +:+ post.
Proof.
  induction rest as [|s rest IH]; intros b; simpl.
  - exists "". by rewrite string_append_nil_r.
  - destruct (IH (b +:+ sep +:+ s)) as [post ->].
    exists (sep +:+ s +:+ post). by rewrite !string_append_assoc.
Qed.

Lemma join_loop_elem (sep v : string) (rest : list string) :
  v ∈ rest →
  ∀ b, ∃ pre post, foldl (λ b s, b +:+ sep +:+ s) b rest = pre +:+ v +:+ post.
Proof.
  induction rest as [|s rest IH]; intros Hin b; [by apply elem_of_nil in Hin |].
  simpl. apply elem_of_cons in Hin as [->|Hin]; [|by apply IH].
  destruct (join_loop_prefix sep rest (b +:+ sep +:+ s)) as [post ->].
  exists (b +:+ sep), post. by rewrite !string_append_assoc.
Qed.

(** Every element of a joined list is a part of the result. *)
Lemma Join_elem (sep v : string) (elems : list string) :
  v ∈ elems → ∃ pre post, golang.Join elems sep = pre +:+ v +:+ post.
Proof.
  destruct elems as [|first rest]; [by intros ?%elem_of_nil |].
  intros [->|Hin]%elem_of_cons; simpl.
  - destruct (join_loop_prefix sep rest first) as [post ->]. by exists "", post.
  - by apply join_loop_elem.
Qed.

Lemma extract_loop (key : string) (entries : list (string * list string)) :
  NoDup entries.*1 →
  ∀ result : gmap string string,
    (∀ values, (key, values) ∈ entries →
       foldl (λ result entry, <[entry.1 := golang.Join entry.2 ", "]> result)
         result entries !! key = Some (golang.Join values ", "))
    ∧ (key ∉ entries.*1 →
       foldl (λ result entry, <[entry.1 := golang.Join entry.2 ", "]> result)
         result entries !! key = result !! key).
Proof.
  induction entries as [|[k vs] entries IH]; intros Hnodup result.
  - split; [by intros values ?%elem_of_nil | done].
  - apply NoDup_cons in Hnodup as [Hfresh Hnodup]. simpl in *.
    destruct (IH Hnodup (<[k := golang.Join vs ", "]> result)) as [Hin Hout].
    split.
    + intros values [[= -> ->]|Hlater]%elem_of_cons; [|by apply Hin].
      rewrite Hout by done. apply lookup_insert_eq.
    + intros [Hne Hnotin]%not_elem_of_cons.
      rewrite Hout by done. by apply lookup_insert_ne.
Qed.

Lemma extractHeaders_at (headers : gmap string (list string)) (key : string) :
  executor.extractHeaders headers !! key
    = (λ values, golang.Join values ", ") <$> headers !! key.
Proof.
  unfold executor.extractHeaders.
  assert (NoDup (golang.range headers).*1) as Hnodup.
  { rewrite golang.range_perm. apply NoDup_fst_map_to_list. }
  destruct (extract_loop key _ Hnodup ∅) as [Hin Hout].
  destruct (headers !! key) as [values|] eqn:Hkey; simpl.
  - apply Hin. rewrite golang.range_perm. by apply elem_of_map_to_list.
  - rewrite Hout; [done |].
    intros ([k vs] & -> & Hentry)%list_elem_of_fmap.
    rewrite golang.range_perm in Hentry.
    apply elem_of_map_to_list in Hentry. simpl in *. congruence.
Qed.

(** [extractHeaders] keeps exactly the keys of the header and maps each to
    its values joined with [", "], in whatever order the header is visited;
    a single value is kept as it is. *)
Theorem extractHeaders_lookup (headers : gmap string (list string)) :
  executor.extractHeaders headers = (λ values, golang.Join values ", ") <$> headers
  ∧ (∀ key value, headers !! key = Some [value] →
                  executor.extractHeaders headers !! key = Some value)
  ∧ (∀ key, executor.extractHeaders headers !! key = None ↔ headers !! key = None).
Proof.
  assert (executor.extractHeaders headers
          = (λ values, golang.Join values ", ") <$> headers) as Heq.
  { apply map_eq. intros key. by rewrite lookup_fmap, extractHeaders_at. }
  split; [done | split].
  - intros key value Hkey. by rewrite extractHeaders_at, Hkey.
  - intros key. rewrite extractHeaders_at. by destruct (headers !! key).
Qed.

(** The header rule on a response whose headers come from [extractHeaders]:
    an expected entry is met as soon as one of the values of the header
    contains the expected text, and it is reported missing exactly when the
    header has no entry for the key. *)
Theorem headerError_multi_valued (raw : gmap string (list string))
    (key expectedValue : string) :
  (∀ values value,
     raw !! key = Some values → value ∈ values →
     golang.Contains value expectedValue = true →
     headerError (responseWith raw) (key, expectedValue) = None)
  ∧ (headerError (responseWith raw) (key, expectedValue)
       = Some (validator.missingHeader key)
     ↔ raw !! key = None).
Proof.
  unfold headerError, responseWith; simpl. rewrite extractHeaders_at. split.
  - intros values value -> Hin Hcontains. simpl.
    apply Contains_spec in Hcontains as (pre & post & ->).
    destruct (Join_elem ", " _ _ Hin) as (pre' & post' & ->).
    assert (golang.Contains
              (pre' +:+ (pre +:+ expectedValue +:+ post) +:+ post') expectedValue
            = true) as ->; [|done].
    apply Contains_spec. exists (pre' +:+ pre), (post +:+ post').
    by rewrite !string_append_assoc.
  - destruct (raw !! key) as [values|]; simpl; [|done].
    split; [|done]. destruct (golang.Contains _ _); [done |].
    intros [=].
Qed.

End header_snapshot.

(** ** [runTestsWithContext] *)

Section with_context.
Context `{ord : golang.MapOrder} `{eng : golang.RegexpEngine} `{wld : world.World}
  `{ctx : !world.Ctx}.

Lemma ctxLoop_outcome (baseURL : string) (tests : list config.Test) :
  ∀ (testResults : list client.TestResult) (w : world.W),
    match client.ctxLoop baseURL tests testResults w with
    | (inl results, _) =>
        client.TestName <$> results
          = (client.TestName <$> testResults) ++ (config.Name <$> tests)
    | (inr err, w') => world.ctx_Err w' = Some err
    end.
Proof.
  induction tests as [|test tests IH]; intros testResults w; cbn [client.ctxLoop].
  - simpl. by rewrite app_nil_r.
  - destruct (world.ctx_Err w) as [err|] eqn:Hctx; [done |].
    destruct (world.ExecuteTestCtx test baseURL w) as [[response|failure] w1];
      match goal with
      | |- context [client.ctxLoop _ _ ?acc ?w2] =>
          specialize (IH acc w2); destruct (client.ctxLoop baseURL tests acc w2) as [[results|err] w']
      end; try done;
      rewrite IH, fmap_app, <-app_assoc; done.
Qed.

(** [runTestsWithContext] is all or nothing.  When it returns a result, the
    result holds one entry for every test of the suite, in input order, and
    its counts add up; when it returns an error, the context is done in the
    world it ends in, and the results gathered before are not returned.  A
    context that is done on entry ends the call before any exchange, unless
    the suite has no test, in which case the empty result is returned. *)
Theorem runTestsWithContext_all_or_nothing (wafTest : config.SentinelTest) (w : world.W) :
  match client.runTestsWithContext wafTest w with
  | (inl result, _) =>
      client.TotalTests result = length (config.Tests (config.Spec_ wafTest))
      ∧ client.TestName <$> client.TestResults result
        = config.Name <$> config.Tests (config.Spec_ wafTest)
      ∧ client.PassedTests result + client.FailedTests result = client.TotalTests result
  | (inr err, w') => world.ctx_Err w' = Some err
  end
  ∧ (∀ err test rest,
       world.ctx_Err w = Some err →
       config.Tests (config.Spec_ wafTest) = test :: rest →
       client.runTestsWithContext wafTest w = (inr err, w))
  ∧ (config.Tests (config.Spec_ wafTest) = [] →
     ∃ result, client.runTestsWithContext wafTest w = (inl result, w)
               ∧ client.TotalTests result = 0).
Proof.
  unfold client.runTestsWithContext. split; [|split].
  - pose proof (ctxLoop_outcome
                  (config.BaseURL (config.Target_ (config.Spec_ wafTest)))
                  (config.Tests (config.Spec_ wafTest)) [] w) as Hloop.
    destruct (client.ctxLoop _ _ [] w) as [[results|err] w']; [|done].
    simpl in *. split; [|split; [done |]].
    + by rewrite <-(length_fmap client.TestName), Hloop, length_fmap.
    + rewrite passedStep_count. simpl.
      pose proof (length_filter (λ r, client.Passed r = true) results). lia.
  - intros err test rest Hctx ->. cbn [client.ctxLoop]. by rewrite Hctx.
  - intros ->. simpl. by eexists.
Qed.

Lemma ctxLoop_uncancelled (baseURL : string) (tests : list config.Test) :
  (∀ w, world.ctx_Err w = None) →
  (∀ t url w, world.ExecuteTestCtx t url w = world.ExecuteTest t url w) →
  ∀ (testResults : list client.TestResult) (w : world.W),
    client.ctxLoop baseURL tests testResults w
      = (inl (client.runLoop baseURL tests testResults w).1,
         (client.runLoop baseURL tests testResults w).2).
Proof.
  intros Hnever Hsame.
  induction tests as [|test tests IH]; intros testResults w;
    cbn [client.ctxLoop client.runLoop]; [done |].
  rewrite Hnever, Hsame.
  destruct (world.ExecuteTest test baseURL w) as [[response|failure] w1]; apply IH.
Qed.

(** Under a context that is never done, with the exchanges it leaves as
    they are, [runTestsWithContext] returns what [runTests] returns. *)
Theorem runTestsWithContext_uncancelled (wafTest : config.SentinelTest) (w : world.W) :
  (∀ w, world.ctx_Err w = None) →
  (∀ t url w, world.ExecuteTestCtx t url w = world.ExecuteTest t url w) →
  client.runTestsWithContext wafTest w
    = (inl (client.runTests wafTest w).1, (client.runTests wafTest w).2).
Proof.
  intros Hnever Hsame. unfold client.runTestsWithContext, client.runTests.
  rewrite (ctxLoop_uncancelled _ _ Hnever Hsame).
  by destruct (client.runLoop _ _ [] w) as [testResults w'].
Qed.

End with_context.

(** ** The parser *)

Lemma list_ascii_of_string_app (a b : string) :
  String.list_ascii_of_string (a +:+ b)
    = String.list_ascii_of_string a ++ String.list_ascii_of_string b.
Proof.
  induction a as [|c a IH]; [done |].
  rewrite string_append_cons. simpl. by rewrite IH.
Qed.

Lemma string_of_list_ascii_app (a b : list ascii) :
  String.string_of_list_ascii (a ++ b)
    = String.string_of_list_ascii a +:+ String.string_of_list_ascii b.
Proof.
  induction a as [|c a IH]; [done |].
  simpl. by rewrite IH, string_append_cons.
Qed.

(** The scan over bytes that do not end it, up to a dot. *)
Lemma extScan_dot (mid before suffix : list ascii) :
  Forall (λ c, ¬ endsScan c) mid →
  parser.extScan (mid ++ "."%char :: before) suffix
    = String.string_of_list_ascii ("."%char :: reverse mid ++ suffix).
Proof.
  intros Hmid. revert suffix.
  induction Hmid as [|c mid Hc _ IH]; intros suffix; simpl.
  - done.
  - rewrite decide_False by (intros ->; apply Hc; by left).
    rewrite decide_False by (intros ->; apply Hc; by right).
    rewrite IH, reverse_cons, <-app_assoc. done.
Qed.

(** A scan that yields an extension has met a dot. *)
Lemma extScan_inv (reversed : list ascii) :
  ∀ suffix result,
    parser.extScan reversed suffix = result → result ≠ "" →
    ∃ mid before,
      reversed = mid ++ "."%char :: before
      ∧ result = String.string_of_list_ascii ("."%char :: reverse mid ++ suffix).
Proof.
  induction reversed as [|c reversed IH]; intros suffix result Hscan Hne;
    simpl in Hscan; [congruence |].
  destruct (decide (c = "/"%char)); [congruence |].
  destruct (decide (c = "."%char)) as [->|Hdot].
  - by exists [], reversed.
  - destruct (IH _ _ Hscan Hne) as (mid & before & -> & ->).
    exists (c :: mid), before. split; [done |].
    by rewrite reverse_cons, <-app_assoc.
Qed.

(** [filepath.Ext] yields a given extension without dot or separator
    exactly for the paths that end with a dot and that extension. *)
Lemma Ext_suffix (path ext : string) :
  Forall (λ c, ¬ endsScan c) (String.list_ascii_of_string ext) →
  parser.Ext path = "." +:+ ext ↔ ∃ stem, path = stem +:+ "." +:+ ext.
Proof.
  intros Hext. unfold parser.Ext. split.
  - intros Hscan.
    destruct (extScan_inv _ _ _ Hscan) as (mid & before & Hrev & Hresult); [done |].
    rewrite app_nil_r in Hresult.
    exists (String.string_of_list_ascii (reverse before)).
    apply (f_equal String.list_ascii_of_string) in Hresult.
    rewrite String.list_ascii_of_string_of_list_ascii in Hresult.
    change (String.list_ascii_of_string ("." +:+ ext))
      with ("."%char :: String.list_ascii_of_string ext) in Hresult.
    injection Hresult as Hmid.
    apply (f_equal reverse) in Hrev.
    rewrite reverse_involutive, reverse_app, reverse_cons, <-app_assoc in Hrev.
    simpl in Hrev. rewrite <-Hmid in Hrev.
    rewrite <-(String.string_of_list_ascii_of_string path), Hrev.
    rewrite string_of_list_ascii_app. f_equal.
    change ("."%char :: String.list_ascii_of_string ext)
      with (String.list_ascii_of_string ("." +:+ ext)).
    by rewrite String.string_of_list_ascii_of_string.
  - intros [stem ->].
    rewrite list_ascii_of_string_app, reverse_app.
    change (String.list_ascii_of_string ("." +:+ ext))
      with ([ "."%char ] ++ String.list_ascii_of_string ext).
    rewrite reverse_app. simpl. rewrite <-app_assoc. simpl.
    rewrite extScan_dot by (by apply Forall_reverse).
    rewrite reverse_involutive, app_nil_r.
    change ("."%char :: String.list_ascii_of_string ext)
      with (String.list_ascii_of_string ("." +:+ ext)).
    by rewrite String.string_of_list_ascii_of_string.
Qed.

Section parser_facts.
Context `{fs : parser.FileSystem} `{dec : parser.Decoder}.

(** The entries [ParseDirectory] parses are the files whose path ends with
    [.yaml] or [.yml], in lower case: a directory of such a name is not
    parsed, nor is a file that only has such a part before its last dot or
    in a directory above it. *)
Theorem selected_by_suffix (entry : parser.WalkEntry) :
  selected entry = true
  ↔ parser.entryIsDir entry = false
    ∧ ((∃ stem, parser.entryPath entry = stem +:+ ".yaml")
       ∨ (∃ stem, parser.entryPath entry = stem +:+ ".yml")).
Proof.
  unfold selected.
  rewrite andb_true_iff, orb_true_iff, negb_true_iff, !bool_decide_eq_true.
  rewrite (Ext_suffix _ "yaml"), (Ext_suffix _ "yml"); [done | |];
    repeat constructor; by intros [?|?].
Qed.

Lemma walkFn_outcome (tests : list config.SentinelTest) (entry : parser.WalkEntry) :
  match parser.walkFn tests entry with
  | inl tests' => passes entry ∧ tests' = tests ++ option_list (parsed entry)
  | inr err => stops entry err
  end.
Proof.
  unfold parser.walkFn, passes, stops, parsed, selected.
  destruct (parser.entryErr entry) as [err|]; [by left |].
  destruct (negb _ && _) eqn:Hsel.
  - destruct (parser.ParseFile (parser.entryPath entry)) as [test|parseErr].
    + split; [|done]. split; [done |]. by exists test.
    + right. split; [done |]. split; [done |]. by exists parseErr.
  - split; [|by rewrite app_nil_r]. split; [done |]. done.
Qed.

Lemma walkLoop_outcome (entries : list parser.WalkEntry) :
  ∀ tests,
    match parser.walkLoop entries tests with
    | inl tests' => Forall passes entries ∧ tests' = tests ++ omap parsed entries
    | inr err =>
        ∃ before entry after,
          entries = before ++ entry :: after
          ∧ Forall passes before
          ∧ stops entry err
    end.
Proof.
  induction entries as [|entry entries IH]; intros tests; cbn [parser.walkLoop].
  - split; [done |]. simpl. by rewrite app_nil_r.
  - pose proof (walkFn_outcome tests entry) as Hfn.
    destruct (parser.walkFn tests entry) as [tests1|err].
    + destruct Hfn as [Hpass ->].
      specialize (IH (tests ++ option_list (parsed entry))).
      destruct (parser.walkLoop entries _) as [tests'|err].
      * destruct IH as [Hall ->]. split; [by constructor |].
        rewrite <-app_assoc. f_equal.
        cbn [omap list_omap]. by destruct (parsed entry).
      * destruct IH as (before & stop & after & -> & Hall & Hstop).
        exists (entry :: before), stop, after. split; [done |].
        split; [by constructor | done].
    + by exists [], entry, entries.
Qed.

(** [ParseDirectory] returns the suites of the selected files, in the order
    of the walk, when no entry of the walk carries an error and every
    selected file parses, and only then.  Otherwise it returns the error of
    the first entry that carries one or does not parse, behind the name of
    the directory; what comes after that entry plays no part.  Directories
    and files with another extension are never parsed. *)
Theorem ParseDirectory_outcome (dir : string) :
  match parser.ParseDirectory dir with
  | inl tests =>
      Forall passes (parser.Walk dir) ∧ tests = omap parsed (parser.Walk dir)
  | inr msg =>
      ∃ before entry after err,
        parser.Walk dir = before ++ entry :: after
        ∧ Forall passes before
        ∧ stops entry err
        ∧ msg = "failed to parse directory " +:+ dir +:+ ": " +:+ err
  end.
Proof.
  unfold parser.ParseDirectory.
  pose proof (walkLoop_outcome (parser.Walk dir) []) as Hloop.
  destruct (parser.walkLoop (parser.Walk dir) []) as [tests|err]; [done |].
  destruct Hloop as (before & entry & after & Hwalk & Hall & Hstop).
  by exists before, entry, after, err.
Qed.

End parser_facts.

(** ** [RunTestFile] and [RunTestDirectory] *)

Section client_files_facts.
Context `{ord : golang.MapOrder} `{eng : golang.RegexpEngine} `{wld : world.World}
  `{fs : parser.FileSystem} `{dec : parser.Decoder}.

Lemma combine_from (wafTests : list config.SentinelTest) :
  ∀ allTests,
    foldl (λ allTests wafTest, allTests ++ config.Tests (config.Spec_ wafTest))
      allTests wafTests
    = allTests ++ concat ((λ wafTest, config.Tests (config.Spec_ wafTest)) <$> wafTests).
Proof.
  induction wafTests as [|wafTest wafTests IH]; intros allTests; simpl.
  - by rewrite app_nil_r.
  - by rewrite IH, <-app_assoc.
Qed.

(** [RunTestDirectory] returns the parser's error, without any exchange,
    when the directory does not parse, and the empty result named ["Empty
    Directory"] when it holds no suite.  Otherwise it runs the tests of all
    suites, in the order of the suites, against the base URL of the first
    suite alone, and its result has one entry for each of these tests. *)
Theorem RunTestDirectory_outcome (dir : string) (w : world.W) :
  match parser.ParseDirectory dir with
  | inr err => client.RunTestDirectory dir w = (inr err, w)
  | inl [] =>
      ∃ result,
        client.RunTestDirectory dir w = (inl result, w)
        ∧ client.SuiteName result = "Empty Directory"
        ∧ client.TotalTests result = 0
        ∧ client.TestResults result = []
  | inl (first :: rest) =>
      ∃ result w',
        client.RunTestDirectory dir w = (inl result, w')
        ∧ client.SuiteName result = "Combined Tests"
        ∧ (client.TestResults result, w')
          = client.runLoop (config.BaseURL (config.Target_ (config.Spec_ first)))
              (concat ((λ wafTest, config.Tests (config.Spec_ wafTest))
                         <$> first :: rest)) [] w
        ∧ client.TestName <$> client.TestResults result
          = config.Name
              <$> concat ((λ wafTest, config.Tests (config.Spec_ wafTest))
                            <$> first :: rest)
        ∧ client.TotalTests result
          = sum_list ((λ wafTest, length (config.Tests (config.Spec_ wafTest)))
                        <$> first :: rest)
        ∧ client.PassedTests result + client.FailedTests result
          = client.TotalTests result
  end.
Proof.
  unfold client.RunTestDirectory.
  destruct (parser.ParseDirectory dir) as [[|first rest]|err]; [| |done].
  - by eexists.
  - unfold client.combine. rewrite combine_from. cbn [app].
    set (allTests := concat _).
    unfold client.runTests. cbn [config.Spec_ config.Target_ config.Tests config.Metadata_
                                   config.MetaName].
    pose proof (runLoop_names
                  (config.BaseURL (config.Target_ (config.Spec_ first))) allTests [] w)
      as Hnames.
    destruct (client.runLoop _ allTests [] w) as [testResults w'].
    simpl in Hnames. eexists _, w'. split; [reflexivity |].
    cbn [client.SuiteName client.TestResults client.TotalTests client.PassedTests
         client.FailedTests].
    split; [done | split; [done | split; [exact Hnames | split]]].
    + rewrite <-(length_fmap client.TestName), Hnames, length_fmap.
      subst allTests. clear. generalize (first :: rest). intros suites.
      induction suites as [|suite suites IH]; [done |].
      rewrite fmap_cons. simpl. by rewrite length_app, IH.
    + rewrite passedStep_count. simpl.
      pose proof (length_filter (λ r, client.Passed r = true) testResults). lia.
Qed.

(** [RunTestFile] returns the parser's error, without any exchange, when
    the file does not parse, and otherwise the result of [runTests] on the
    suite of the file. *)
Theorem RunTestFile_outcome (filename : string) (w : world.W) :
  match parser.ParseFile filename with
  | inr err =>
      client.RunTestFile filename w = (inr err, w)
      ∧ (∀ readErr, parser.ReadFile filename = inr readErr →
           err = "failed to read file " +:+ filename +:+ ": " +:+ readErr)
  | inl wafTest =>
      client.RunTestFile filename w
        = (inl (client.runTests wafTest w).1, (client.runTests wafTest w).2)
      ∧ parser.Struct wafTest = None
  end.
Proof.
  unfold client.RunTestFile.
  destruct (parser.ParseFile filename) as [wafTest|err] eqn:Hparse.
  - split; [by destruct (client.runTests wafTest w) |].
    unfold parser.ParseFile, parser.ParseYAML in Hparse.
    destruct (parser.ReadFile filename) as [data|]; [|done].
    destruct (parser.Unmarshal data) as [decoded|]; [|done].
    destruct (parser.Struct decoded) eqn:Hvalid; [done |]. by simplify_eq.
  - split; [done |]. intros readErr Hread.
    unfold parser.ParseFile in Hparse. rewrite Hread in Hparse. by simplify_eq.
Qed.

End client_files_facts.

(** ** The two sequential runners side by side *)

Section runners_side_by_side.
Context `{ord : golang.MapOrder} `{eng : golang.RegexpEngine} `{wld : world.World}.
Context `{lv : golang.LoopVar}.

Lemma rangeAssign_reportFor (test : config.Test)
    (answers : list (config.Test * executor.Response))
    (reports : list reporter.TestReport) :
  Forall2 reportFor answers reports →
  Forall2 reportFor answers (main.rangeAssign test reports).
Proof.
  intros Hall. unfold main.rangeAssign.
  induction Hall as [|a r answers reports Hr _ IH]; [constructor |].
  rewrite fmap_cons. constructor; [|done]. by destruct golang.perIteration.
Qed.

(** The two loops, entered after the exchanges [es]: they go through the
    same exchanges and end in the same world; the client has a result for
    every exchange, the command-line runner a report for every answered
    one. *)
Lemma loops_agree (baseURL : string) (tests : list config.Test) :
  ∀ (es : list (config.Test * (executor.Response + string)))
    (reports : list reporter.TestReport) (testResults : list client.TestResult)
    (w : world.W),
    Forall2 resultFor es testResults →
    Forall2 reportFor (omap answered es) reports →
    (main.sequentialLoop baseURL tests reports w).2
      = (client.runLoop baseURL tests testResults w).2
    ∧ Forall2 resultFor (es ++ exchanges baseURL tests w)
        (client.runLoop baseURL tests testResults w).1
    ∧ Forall2 reportFor (omap answered (es ++ exchanges baseURL tests w))
        (main.sequentialLoop baseURL tests reports w).1.
Proof.
  induction tests as [|test tests IH]; intros es reports testResults w Hres Hrep.
  - simpl. by rewrite app_nil_r.
  - cbn [main.sequentialLoop client.runLoop exchanges].
    pose proof (rangeAssign_reportFor test _ _ Hrep) as Hrep1.
    destruct (world.ExecuteTest test baseURL w) as [[response|err] w1].
    + replace (es ++ (test, inl response) :: exchanges baseURL tests w1)
        with ((es ++ [(test, inl response)]) ++ exchanges baseURL tests w1)
        by (by rewrite <-app_assoc).
      apply IH.
      * apply Forall2_app; [done |]. by constructor.
      * rewrite omap_app. apply Forall2_app; [done |].
        constructor; [|constructor]. split; [|done].
        apply belongsTo_reportsOn, GenerateTestReport_belongsTo.
    + replace (es ++ (test, inr err) :: exchanges baseURL tests w1)
        with ((es ++ [(test, inr err)]) ++ exchanges baseURL tests w1)
        by (by rewrite <-app_assoc).
      apply IH.
      * apply Forall2_app; [done |]. by constructor.
      * rewrite omap_app. simpl. by rewrite app_nil_r.
Qed.

(** What results for all exchanges and reports for the answered ones have
    in common. *)
Lemma outcomes_agree (es : list (config.Test * (executor.Response + string))) :
  ∀ (testResults : list client.TestResult) (reports : list reporter.TestReport),
    Forall2 resultFor es testResults →
    Forall2 reportFor (omap answered es) reports →
    reporter.TestName <$> filter (λ r, reporter.Status r = "PASS") reports
      = client.TestName <$> filter (λ r, client.Passed r = true) testResults
    ∧ (reporter.TestName <$> reports) `sublist_of` (client.TestName <$> testResults).
Proof.
  induction es as [|[test [response|err]] es IH]; intros testResults reports Hres Hrep.
  - apply Forall2_nil_inv_l in Hres as ->. apply Forall2_nil_inv_l in Hrep as ->.
    by split.
  - apply Forall2_cons_inv_l in Hres as (result & testResults' & Hr & Hres & ->).
    cbn [omap list_omap answered] in Hrep. simpl in Hrep.
    apply Forall2_cons_inv_l in Hrep as (report & reports' & Hp & Hrep & ->).
    destruct (IH _ _ Hres Hrep) as [Hpass Hsub].
    destruct Hr as (Hname & Hpassed & _).
    destruct Hp as ((Hname' & Hval & Hstatus) & Hresponse).
    simpl in Hname, Hpassed, Hname', Hval, Hresponse. subst response.
    rewrite !fmap_cons, Hname, Hname'. split; [|by apply sublist_skip].
    rewrite !filter_cons, Hstatus, Hpassed, <-Hval.
    destruct (validator.Passed (reporter.ValidationResult report)).
    + rewrite !decide_True by done. by rewrite !fmap_cons, Hname, Hname', Hpass.
    + by rewrite !decide_False by done.
  - apply Forall2_cons_inv_l in Hres as (result & testResults' & Hr & Hres & ->).
    cbn [omap list_omap answered] in Hrep. simpl in Hrep.
    destruct (IH _ _ Hres Hrep) as [Hpass Hsub].
    destruct Hr as (_ & Hpassed & _). simpl in Hpassed.
    rewrite filter_cons, Hpassed. rewrite decide_False by done.
    split; [done |]. rewrite fmap_cons. by apply sublist_cons.
Qed.

(** The two runners with one and the same executor. *)
Lemma same_executor_agree (sentinelTest : config.SentinelTest) (w : world.W)
    (duration now : Z) :
  (main.executeTestsSequentially sentinelTest w).2 = (client.runTests sentinelTest w).2
  ∧ Forall2 resultFor
      (exchanges (config.BaseURL (config.Target_ (config.Spec_ sentinelTest)))
         (config.Tests (config.Spec_ sentinelTest)) w)
      (client.TestResults (client.runTests sentinelTest w).1)
  ∧ Forall2 reportFor
      (omap answered
         (exchanges (config.BaseURL (config.Target_ (config.Spec_ sentinelTest)))
            (config.Tests (config.Spec_ sentinelTest)) w))
      (main.executeTestsSequentially sentinelTest w).1
  ∧ reporter.TestName
      <$> filter (λ r, reporter.Status r = "PASS")
            (main.executeTestsSequentially sentinelTest w).1
    = client.TestName
        <$> filter (λ r, client.Passed r = true)
              (client.TestResults (client.runTests sentinelTest w).1)
  ∧ reporter.PassedTests
      (reporter.GenerateSuiteReport "All Tests"
         (main.executeTestsSequentially sentinelTest w).1 duration now)
    = client.PassedTests (client.runTests sentinelTest w).1
  ∧ (reporter.TestName <$> (main.executeTestsSequentially sentinelTest w).1)
      `sublist_of`
    (client.TestName <$> client.TestResults (client.runTests sentinelTest w).1).
Proof.
  unfold main.executeTestsSequentially, client.runTests.
  destruct (loops_agree (config.BaseURL (config.Target_ (config.Spec_ sentinelTest)))
              (config.Tests (config.Spec_ sentinelTest)) [] [] [] w)
    as (Hworld & Hres & Hrep); [constructor | constructor |].
  simpl in Hres, Hrep.
  destruct (outcomes_agree _ _ _ Hres Hrep) as [Hpass Hsub].
  destruct (main.sequentialLoop _ _ [] w) as [reports w1].
  destruct (client.runLoop _ _ [] w) as [testResults w2].
  simpl in *. subst w2.
  split; [done | split; [done | split; [done | split; [done | split; [|done]]]]].
  unfold reporter.GenerateSuiteReport. rewrite countStep_fold, passedStep_count. simpl.
  by rewrite <-(length_fmap reporter.TestName), Hpass, length_fmap.
Qed.

End runners_side_by_side.

Section two_executors.
Context `{ord : golang.MapOrder} `{eng : golang.RegexpEngine} `{lv : golang.LoopVar}.
Context `{exs : world.Executors}.

(** The command-line runner and the client on the same suite, from the same
    world, each with the executor it builds, when the two executors have the
    same timeout.  Both go through the same exchanges and end in the same
    world.  The client has one result for every exchange: the verdict of the
    validation for an answered one, the error of the request for a failed
    one.  The command-line runner has one report for every answered
    exchange, with the same validation, and none for a failed one: the two
    differ in the tests whose request failed, and in nothing else.  So they
    agree on which tests passed and on the number of passed tests, and the
    tests the command-line runner reports are among those of the client, in
    the same order. *)
Theorem sequential_runners_agree (cfg : client.Config)
    (sentinelTest : config.SentinelTest) (w : world.EW) (duration now : Z) :
  executor.clientTimeout (client.Timeout (client.NewClient cfg))
    = executor.clientTimeout (config.Timeout (config.Target_ (config.Spec_ sentinelTest))) →
  (commandLineRun sentinelTest w).2 = (clientRun cfg sentinelTest w).2
  ∧ Forall2 resultFor
      (exchanges (wld := client.executorOf cfg)
         (config.BaseURL (config.Target_ (config.Spec_ sentinelTest)))
         (config.Tests (config.Spec_ sentinelTest)) w)
      (client.TestResults (clientRun cfg sentinelTest w).1)
  ∧ Forall2 reportFor
      (omap answered
         (exchanges (wld := client.executorOf cfg)
            (config.BaseURL (config.Target_ (config.Spec_ sentinelTest)))
            (config.Tests (config.Spec_ sentinelTest)) w))
      (commandLineRun sentinelTest w).1
  ∧ reporter.TestName
      <$> filter (λ r, reporter.Status r = "PASS") (commandLineRun sentinelTest w).1
    = client.TestName
        <$> filter (λ r, client.Passed r = true)
              (client.TestResults (clientRun cfg sentinelTest w).1)
  ∧ reporter.PassedTests
      (reporter.GenerateSuiteReport "All Tests" (commandLineRun sentinelTest w).1
         duration now)
    = client.PassedTests (clientRun cfg sentinelTest w).1
  ∧ (reporter.TestName <$> (commandLineRun sentinelTest w).1)
      `sublist_of`
    (client.TestName <$> client.TestResults (clientRun cfg sentinelTest w).1).
Proof.
  intros Htimeout.
  unfold commandLineRun, clientRun, main.executorFor, client.executorOf,
    world.NewHTTPExecutor.
  rewrite <-Htimeout.
  apply (same_executor_agree
           (wld := {| world.W := world.EW;
                      world.ExecuteTest :=
                        world.ExecuteWith
                          (executor.clientTimeout (client.Timeout (client.NewClient cfg)));
                      world.time_Now := world.clock_Now |})).
Qed.

End two_executors.

(** ** The commands *)

Section command_facts.
Context `{ord : golang.MapOrder} `{eng : golang.RegexpEngine} `{wld : world.World}.
Context `{lv : golang.LoopVar}.
Context `{fs : parser.FileSystem} `{dec : parser.Decoder}.

Implicit Types (t : config.Test) (p : main.pc).

Lemma sequentialLoop_alwaysFails (baseURL : string) (tests : list config.Test) :
  alwaysFails →
  ∀ w : world.W, (main.sequentialLoop baseURL tests [] w).1 = [].
Proof.
  intros Hfails. induction tests as [|test tests IH]; intros w; [done |].
  cbn [main.sequentialLoop].
  destruct (Hfails test baseURL w) as (err & w1 & ->). apply IH.
Qed.

Lemma next_carried_none (baseURL : string) (w : world.W) t p p' :
  alwaysFails →
  next baseURL w t p p' →
  carried p = None → carried p' = None.
Proof.
  intros Hfails Hnext Hp.
  destruct p as [| |start|report|report|report|report|m|m|m]; simpl in Hnext, Hp;
    try discriminate; try done; subst; try done.
  unfold world.ExecuteTestWithContext in Hnext.
  destruct (Hfails t baseURL w) as (err & w1 & Heq). rewrite Heq in Hnext. by subst.
Qed.

Lemma concurrent_alwaysFails (schedule : list main.label)
    (sentinelTest : config.SentinelTest) (maxConcurrent : nat) (w w' : world.W)
    (rs : list reporter.TestReport) :
  alwaysFails →
  main.executeTestsConcurrently schedule sentinelTest maxConcurrent w = Some (rs, w') →
  rs = [].
Proof.
  intros Hfails. unfold main.executeTestsConcurrently.
  destruct (main.run _ _ _ _) as [s|] eqn:Hrun; [|done].
  destruct (main.mainPC s) as [pending|rs'] eqn:Hpc; [done |].
  intros [= -> <-].
  pose proof (Inv_run _ _ _ _ _ _
                (Inv_initial sentinelTest maxConcurrent w) Hrun)
    as (_ & _ & _ & _ & Hrep & Hmain).
  rewrite Hpc in Hmain. destruct Hmain as (_ & -> & _).
  assert (Forall (λ g, carried g.2 = None) (main.goroutines s)) as Hnone.
  { refine (run_Forall (λ g, carried g.2 = None) _ _ _ _ _ _ _ _ Hrun).
    - done.
    - intros w0 t p p' Hnext Hp. simpl in *. by eapply next_carried_none.
    - by constructor. }
  apply Permutation_nil_r. rewrite Hrep. clear -Hnone.
  induction Hnone as [|[t p] gs Hp _ IH]; [done |].
  simpl in Hp. cbn [omap list_omap]. simpl.
  replace (merged p) with (@None reporter.TestReport); [done |].
  by destruct p.
Qed.

Lemma suitesLoop_alwaysFails (concurrent : Z) (tests : list config.SentinelTest) :
  alwaysFails →
  ∀ (schedules : list (list main.label)) (allReports all : list reporter.TestReport)
    (w w' : world.W),
    main.suitesLoop concurrent schedules tests allReports w = Some (all, w') →
    all = allReports.
Proof.
  intros Hfails.
  induction tests as [|test tests IH]; intros schedules allReports all w w' Hloop;
    cbn [main.suitesLoop] in Hloop.
  - by injection Hloop as <- <-.
  - case_decide as Hmode.
    + unfold main.executeTestsSequentially in Hloop.
      pose proof (sequentialLoop_alwaysFails
                    (config.BaseURL (config.Target_ (config.Spec_ test)))
                    (config.Tests (config.Spec_ test)) Hfails w) as Hnone.
      destruct (main.sequentialLoop _ _ [] w) as [reports w1].
      simpl in Hnone. subst reports. rewrite app_nil_r in Hloop. by eapply IH.
    + destruct (main.executeTestsConcurrently _ test _ w) as [[reports w1]|] eqn:Hrun;
        [|done].
      apply (concurrent_alwaysFails _ _ _ _ _ _ Hfails) in Hrun as ->.
      rewrite app_nil_r in Hloop. by eapply IH.
Qed.

(** A target that cannot be reached goes unnoticed: when every request
    fails, in either mode, the suite report of [executeTests] is empty, no
    test counts as failed, and the exit status is 0. *)
Theorem executeTests_unreachable_target (concurrent : Z)
    (schedules : list (list main.label)) (tests : list config.SentinelTest)
    (w w' : world.W) (suiteReport : reporter.SuiteReport) (code : Z) :
  alwaysFails →
  main.executeTests concurrent schedules tests w = Some (suiteReport, code, w') →
  reporter.Tests suiteReport = []
  ∧ reporter.TotalTests suiteReport = 0
  ∧ reporter.PassedTests suiteReport = 0
  ∧ reporter.FailedTests suiteReport = 0
  ∧ code = 0%Z.
Proof.
  intros Hfails. unfold main.executeTests.
  destruct (main.suitesLoop concurrent schedules tests [] w) as [[all w1]|] eqn:Hloop;
    [|done].
  apply (suitesLoop_alwaysFails _ _ Hfails) in Hloop as ->.
  by intros [= <- <- <-].
Qed.

Lemma runParsed_status (concurrent : Z) (schedules : list (list main.label))
    (tests : list config.SentinelTest) (w w' : world.W) (e : main.ending) :
  main.runParsed concurrent schedules tests w = Some (e, w') →
  main.exitStatus e = 0%Z
  ∧ Forall (λ r, validator.Errors (reporter.ValidationResult r) = []) (reportsOf e)
  ∨ main.exitStatus e = 1%Z
    ∧ Exists (λ r, validator.Errors (reporter.ValidationResult r) ≠ []) (reportsOf e).
Proof.
  unfold main.runParsed. destruct tests as [|test tests].
  - intros [= <- <-]. left. by split.
  - destruct (main.executeTests _ _ _ _) as [[[suiteReport code] w1]|] eqn:Hrun; [|done].
    intros [= <- <-]. simpl. by eapply executeTests_status.
Qed.

(** The command [run] against the command [validate].  The process of
    [run] exits with status 0 exactly when [validate] accepts the path and
    no report carries a validation error, and with status 1 otherwise; when
    [validate] rejects the path, [run] returns an error before any
    exchange. *)
Theorem runTests_exit_status (concurrent : Z) (schedules : list (list main.label))
    (path : string) (w w' : world.W) (e : main.ending) :
  main.runTests concurrent schedules path w = Some (e, w') →
  (main.exitStatus e = 0%Z
   ↔ main.validateTests path = None
     ∧ Forall (λ r, validator.Errors (reporter.ValidationResult r) = []) (reportsOf e))
  ∧ (main.exitStatus e = 0%Z ∨ main.exitStatus e = 1%Z)
  ∧ (main.validateTests path ≠ None →
     w' = w ∧ reportsOf e = [] ∧ ∃ err, e = main.ReturnsError err).
Proof.
  unfold main.runTests, main.validateTests.
  assert (∀ tests,
            main.runParsed concurrent schedules tests w = Some (e, w') →
            (main.exitStatus e = 0%Z
             ↔ @None string = None
               ∧ Forall (λ r, validator.Errors (reporter.ValidationResult r) = [])
                   (reportsOf e))
            ∧ (main.exitStatus e = 0%Z ∨ main.exitStatus e = 1%Z)
            ∧ (@None string ≠ None →
               w' = w ∧ reportsOf e = [] ∧ ∃ err, e = main.ReturnsError err))
    as Hparsed.
  { intros tests Hrun.
    destruct (runParsed_status _ _ _ _ _ _ Hrun) as [[Hcode Hall]|[Hcode Hsome]].
    - split; [|split; [by left | done]]. by split.
    - split; [|split; [by right | done]]. split; [rewrite Hcode; lia |].
      intros [_ Hall]. apply Exists_exists in Hsome as (r & Hin & Hr).
      by eapply Forall_forall in Hall. }
  destruct (main.isDirectory path).
  - destruct (parser.ParseDirectory path) as [tests|err]; [by apply Hparsed |].
    intros [= <- <-]. simpl. split; [|split; [by right | by eauto]].
    split; [lia | by intros [? _]].
  - destruct (parser.ParseFile path) as [test|err]; [by apply Hparsed |].
    intros [= <- <-]. simpl. split; [|split; [by right | by eauto]].
    split; [lia | by intros [? _]].
Qed.

End command_facts.

(* ===================================================================== *)
(** * Part V: the program on concrete inputs                              *)
(* ===================================================================== *)

#[local] Existing Instance reference.order.
#[local] Existing Instance reference.engine.
#[local] Existing Instance reference.net.
#[local] Existing Instance reference.oneVariable.

(** *** The scenarios of the specification *)

Example scenario_A :
  validator.Validate (response 200 bodyA)
    (expect [200%Z] (Some (bodyRule ["success"; "data"] [] "" ""))) "A"
  = passedWith [].
Proof. vm_compute. reflexivity. Qed.

Example scenario_B :
  validator.Validate (response 404 "") (expect [200%Z; 201%Z] None) "B"
  = failedWith ["Status code mismatch: expected one of [200 201], got 404"] [].
Proof. vm_compute. reflexivity. Qed.

Example scenario_C :
  validator.Validate (response 200 bodyC)
    (expect [] (Some (bodyRule [] ["error"] "" ""))) "C"
  = failedWith ["Body should not contain 'error' but it was found"]
      ["No expected status codes defined"].
Proof. vm_compute. reflexivity. Qed.

Example scenario_D :
  validator.Validate (response 200 bodyD) expectD "D"
  = passedWith ["No expected status codes defined"].
Proof. vm_compute. reflexivity. Qed.

Example scenario_E (body : string) :
  validator.Validate (response 200 body) expectE "E"
  = failedWith
      ["Invalid regex pattern '[invalid': error parsing regexp: missing closing ]: `[invalid`"]
      ["No expected status codes defined"].
Proof. reflexivity. Qed.

(** The search of [regexp.MatchString] is not anchored: a pattern matches
    when some part of the body matches it. *)
Example regex_search_unanchored :
  validator.Validate (response 200 bodyD)
    (expect [200%Z] (Some (bodyRule [] [] "" "id"))) "unanchored"
  = passedWith [].
Proof. vm_compute. reflexivity. Qed.

(** The test of [TestValidationResultStructure]: five errors, those of the
    status rule first, then those of the header rule (in the order of the
    reference map order), then those of the body rule. *)
Example all_groups_contribute :
  validator.Validate
    {| executor.StatusCode := 404;
       executor.Headers := {[ "Content-Type" := "text/html" ]};
       executor.Body := "{" +:+ quoted "error" +:+ ": " +:+ quoted "not found" +:+ "}";
       executor.Duration := 100000000 |}
    {| config.Status := [200%Z];
       config.Headers := {[ "Content-Type" := "application/json"; "X-Missing" := "value" ]};
       config.Body := Some (bodyRule ["success"] ["error"] "" "") |}
    "complex-test"
  = failedWith
      ["Status code mismatch: expected one of [200], got 404";
       "Header value mismatch for Content-Type: expected to contain 'application/json', got 'text/html'";
       "Missing expected header: X-Missing";
       "Body should contain 'success' but it was not found";
       "Body should not contain 'error' but it was found"] [].
Proof. vm_compute. reflexivity. Qed.

(** *** The body rules at concrete expectations *)

(** Only the exact comparison is reported although ["zzz"] is missing
    from the body as well. *)
Lemma validateBody_precedence_witness :
  config.Body expectExactAndContains = Some (bodyRule ["zzz"] [] "pong" "")
  ∧ validator.Errors
      (validator.validateBody (response 200 "ping") expectExactAndContains freshResult)
    = ["Body exact match failed: expected 'pong', got 'ping'"].
Proof.
  split; [reflexivity |].
  destruct (validateBody_precedence (response 200 "ping") expectExactAndContains
              (bodyRule ["zzz"] [] "pong" "") freshResult eq_refl) as (Hexact & _ & _).
  rewrite Hexact; [reflexivity | discriminate].
Defined.

(** C6 as stated fails: the pattern does not compile, yet the validation
    reports no error at all, because the exact rule takes precedence and the
    pattern is never compiled. *)
Lemma invalid_regex_behind_exact_unreported :
  golang.Compile "[invalid"
    = inr "error parsing regexp: missing closing ]: `[invalid`"
  ∧ config.Body expectExactAndBadRegex = Some (bodyRule [] [] "pong" "[invalid")
  ∧ validator.Validate (response 200 "pong") expectExactAndBadRegex "shadowed"
    = passedWith [].
Proof. repeat split. Qed.

(** A failing status rule next to a pattern that does not compile: both
    errors are reported, the status error first. *)
Lemma validateBody_invalid_regex_witness :
  config.Body (expect [200%Z] (Some (bodyRule [] [] "" "[invalid")))
    = Some (bodyRule [] [] "" "[invalid")
  ∧ config.Exact (bodyRule [] [] "" "[invalid") = ""
  ∧ golang.Compile (config.Regex (bodyRule [] [] "" "[invalid"))
    = inr "error parsing regexp: missing closing ]: `[invalid`"
  ∧ validator.Errors
      (validator.Validate (response 404 "any body")
         (expect [200%Z] (Some (bodyRule [] [] "" "[invalid"))) "E")
    = ["Status code mismatch: expected one of [200], got 404";
       "Invalid regex pattern '[invalid': error parsing regexp: missing closing ]: `[invalid`"].
Proof.
  assert (golang.Compile (config.Regex (bodyRule [] [] "" "[invalid"))
            = inr "error parsing regexp: missing closing ]: `[invalid`")
    as Hcompile by reflexivity.
  split; [reflexivity | split; [reflexivity | split; [exact Hcompile |]]].
  destruct (validateBody_invalid_regex (response 404 "any body")
              (expect [200%Z] (Some (bodyRule [] [] "" "[invalid")))
              (bodyRule [] [] "" "[invalid")
              "error parsing regexp: missing closing ]: `[invalid`" "E"
              eq_refl eq_refl Hcompile) as (_ & Herrors & _).
  rewrite Herrors. reflexivity.
Defined.

(** Scenario D through the theorem, and the same expectation on a body the
    pattern does not match.  On the body of Scenario D the body rule leaves
    the result as it is and the validation has no error; on the other body
    the error list grows by the one no-match error and the validation
    fails. *)
Lemma validateBody_regex_match_witness :
  config.Body expectD = Some (bodyRule [] [] "" patternD)
  ∧ config.Exact (bodyRule [] [] "" patternD) = ""
  ∧ golang.Compile (config.Regex (bodyRule [] [] "" patternD)) = inl regexD
  ∧ golang.Regexp_MatchString regexD (executor.Body (response 200 bodyD)) = true
  ∧ golang.Regexp_MatchString regexD (executor.Body (response 200 "no id here")) = false
  ∧ validator.validateBody (response 200 bodyD) expectD freshResult = freshResult
  ∧ validator.Errors (validator.Validate (response 200 bodyD) expectD "D") = []
  ∧ validator.Errors
      (validator.validateBody (response 200 "no id here") expectD freshResult)
    = [validator.regexMismatch patternD]
  ∧ validator.Errors (validator.Validate (response 200 "no id here") expectD "D")
    = [validator.regexMismatch patternD]
  ∧ validator.Passed (validator.Validate (response 200 "no id here") expectD "D") = false.
Proof.
  assert (golang.Compile (config.Regex (bodyRule [] [] "" patternD)) = inl regexD)
    as Hcompile by (vm_compute; reflexivity).
  assert (golang.Regexp_MatchString regexD (executor.Body (response 200 bodyD)) = true)
    as Hmatch by (vm_compute; reflexivity).
  assert (golang.Regexp_MatchString regexD (executor.Body (response 200 "no id here"))
          = false) as Hnone by (vm_compute; reflexivity).
  assert (config.Regex (bodyRule [] [] "" patternD) ≠ "") as Hset by discriminate.
  destruct (validateBody_regex_match (eng := reference.engine) (response 200 bodyD) expectD
              (bodyRule [] [] "" patternD) regexD freshResult "D"
              eq_refl eq_refl Hset Hcompile) as (_ & Hyes & _).
  destruct (Hyes Hmatch) as (Hsame & _ & Hclean).
  destruct (validateBody_regex_match (eng := reference.engine) (response 200 "no id here") expectD
              (bodyRule [] [] "" patternD) regexD freshResult "D"
              eq_refl eq_refl Hset Hcompile) as (Hno & _ & _).
  destruct (Hno Hnone) as (_ & Hgrown & _ & _ & Hall & Hfailed).
  split; [reflexivity | split; [reflexivity | split; [exact Hcompile |]]].
  split; [exact Hmatch | split; [exact Hnone | split; [exact Hsame |]]].
  split; [rewrite Hclean; reflexivity | split; [exact Hgrown |]].
  split; [rewrite Hall; reflexivity | exact Hfailed].
Defined.

(** A body rule with nothing set but present: no body can fail it, so
    [Exact: ""] does not demand an empty body. *)
Lemma validateBody_empty_string_unset_witness :
  config.Body (expect [200%Z] (Some (bodyRule [] [] "" "")))
    = Some (bodyRule [] [] "" "")
  ∧ config.Exact (bodyRule [] [] "" "") = ""
  ∧ validator.validateBody (response 200 "not empty")
      (expect [200%Z] (Some (bodyRule [] [] "" ""))) freshResult
    = freshResult.
Proof.
  split; [reflexivity | split; [reflexivity |]].
  exact (proj2 (proj2 (validateBody_empty_string_unset (response 200 "not empty")
                         (expect [200%Z] (Some (bodyRule [] [] "" "")))
                         (bodyRule [] [] "" "") freshResult eq_refl eq_refl))
           eq_refl eq_refl eq_refl).
Defined.

(** *** Scenario F: a suite of two tests, the first request fails *)

(** The command-line runner on Scenario F: one test counted, none failed,
    exit status 0. *)
Lemma executeTests_transport_failure_witness :
  config.Tests (config.Spec_ suiteF) = [testF1; testF2]
  ∧ world.ExecuteTest testF1 "http://target.test" worldF = (inr refused, worldF1)
  ∧ world.ExecuteTest testF2 "http://target.test" worldF1
    = (inl (response 200 "ok"), worldF2)
  ∧ (∃ suiteReport,
       main.executeTests 1 [] [suiteF] worldF = Some (suiteReport, 0%Z, worldF2)
       ∧ reporter.TotalTests suiteReport = 1
       ∧ reporter.PassedTests suiteReport = 1
       ∧ reporter.FailedTests suiteReport = 0
       ∧ reporter.TestName <$> reporter.Tests suiteReport = ["healthy"]).
Proof.
  split; [reflexivity | split; [reflexivity | split; [reflexivity |]]].
  exact (executeTests_transport_failure suiteF testF1 testF2 worldF worldF1 worldF2
           refused (response 200 "ok") [] eq_refl eq_refl eq_refl eq_refl).
Defined.

(** [client.runTests] on Scenario F: two tests counted, one passed, one
    failed, and the failed one carries the transport error alone. *)
Lemma runTests_transport_failure_witness :
  config.Tests (config.Spec_ suiteF) = [testF1; testF2]
  ∧ world.ExecuteTest testF1 "http://target.test" worldF = (inr refused, worldF1)
  ∧ world.ExecuteTest testF2 "http://target.test" worldF1
    = (inl (response 200 "ok"), worldF2)
  ∧ client.TotalTests (client.runTests suiteF worldF).1 = 2
  ∧ client.PassedTests (client.runTests suiteF worldF).1 = 1
  ∧ client.FailedTests (client.runTests suiteF worldF).1 = 1
  ∧ client.Errors <$> client.TestResults (client.runTests suiteF worldF).1
    = [[refused]; []].
Proof.
  split; [reflexivity | split; [reflexivity | split; [reflexivity |]]].
  destruct (runTests_transport_failure suiteF testF1 testF2 worldF worldF1 worldF2
              refused (response 200 "ok") eq_refl eq_refl eq_refl eq_refl)
    as (Htotal & Hpassed & Hfailed & _).
  split; [exact Htotal | split; [exact Hpassed | split; [exact Hfailed |]]].
  reflexivity.
Defined.

(** *** A concurrent run of the same suite *)

(** With limit 2 both requests are in flight after six steps. *)
Example both_in_flight :
  main.run "http://target.test" 2 (take 6 scheduleF) (main.initial suiteF worldF)
    = Some (stateAfter 2 (take 6 scheduleF))
  ∧ count inFlight (main.goroutines (stateAfter 2 (take 6 scheduleF))) = 2.
Proof. vm_compute. split; reflexivity. Qed.

(** With limit 1 the second goroutine cannot pass the semaphore while the
    first holds the only slot. *)
Example second_goroutine_blocked :
  main.run "http://target.test" 1 (take 4 scheduleF) (main.initial suiteF worldF) = None
  ∧ count holdsSlot (main.goroutines (stateAfter 1 (take 3 scheduleF))) = 1.
Proof. vm_compute. split; reflexivity. Qed.

(** The discipline in the middle of the run.  After six steps both requests
    are in flight, within the limit of 2, and both slots of the semaphore are
    taken.  After nine steps goroutine 1 is about to append its report: it
    holds the mutex, it is the one goroutine in the critical section, its
    step is the one that changes [reports], and the report it carries is in
    the slice the caller returns at the end of the run. *)
Lemma executeTestsConcurrently_discipline_witness :
  reachable suiteF 2 worldF (stateAfter 2 (take 6 scheduleF))
  ∧ count inFlight (main.goroutines (stateAfter 2 (take 6 scheduleF))) = 2
  ∧ main.semaphore (stateAfter 2 (take 6 scheduleF)) = 2
  ∧ reachable suiteF 2 worldF (stateAfter 2 (take 9 scheduleF))
  ∧ main.mu (stateAfter 2 (take 9 scheduleF)) = true
  ∧ count inCritical (main.goroutines (stateAfter 2 (take 9 scheduleF))) = 1
  ∧ ∃ report,
      main.goroutines (stateAfter 2 (take 9 scheduleF)) !! 1
        = Some (testF2, main.AtAppend report)
      ∧ main.reports (stateAfter 2 (take 10 scheduleF))
        = main.reports (stateAfter 2 (take 9 scheduleF)) ++ [report]
      ∧ report ∈ main.reports (stateAfter 2 scheduleF).
Proof.
  assert (reachable suiteF 2 worldF (stateAfter 2 (take 6 scheduleF))) as Hsix.
  { exists (take 6 scheduleF). vm_compute. reflexivity. }
  assert (reachable suiteF 2 worldF (stateAfter 2 (take 9 scheduleF))) as Hnine.
  { exists (take 9 scheduleF). vm_compute. reflexivity. }
  destruct (executeTestsConcurrently_discipline suiteF 2 worldF
              (stateAfter 2 (take 6 scheduleF)) Hsix)
    as ((Hflight & Hslots & Hbound) & _).
  destruct (executeTestsConcurrently_discipline suiteF 2 worldF
              (stateAfter 2 (take 9 scheduleF)) Hnine)
    as (_ & (_ & Hwrite) & _ & Hkept).
  assert (count inFlight (main.goroutines (stateAfter 2 (take 6 scheduleF))) = 2)
    as Htwo by (vm_compute; reflexivity).
  assert (main.step "http://target.test" 2 (main.Go 1) (stateAfter 2 (take 9 scheduleF))
          = Some (stateAfter 2 (take 10 scheduleF))) as Hstep
    by (vm_compute; reflexivity).
  assert (main.reports (stateAfter 2 (take 10 scheduleF))
          ≠ main.reports (stateAfter 2 (take 9 scheduleF))) as Hchanged
    by (vm_compute; discriminate).
  destruct (Hwrite (main.Go 1) (stateAfter 2 (take 10 scheduleF)) Hstep Hchanged)
    as (i & t & report & Hlabel & Hgoroutine & Hlocked & Hone & Happended).
  injection Hlabel as <-.
  assert (t = testF2) as ->.
  { vm_compute in Hgoroutine. by injection Hgoroutine as <- _. }
  assert (main.run "http://target.test" 2 (drop 9 scheduleF)
            (stateAfter 2 (take 9 scheduleF)) = Some (stateAfter 2 scheduleF)) as Hrest
    by (vm_compute; reflexivity).
  split; [exact Hsix | split; [exact Htwo | split]].
  - rewrite Htwo, Hslots in Hflight. lia.
  - split; [exact Hnine | split; [exact Hlocked | split; [exact Hone |]]].
    exists report. split; [exact Hgoroutine | split; [exact Happended |]].
    exact (Hkept 1 testF2 (main.AtAppend report) report (drop 9 scheduleF)
             (stateAfter 2 scheduleF) (main.reports (stateAfter 2 scheduleF))
             Hgoroutine eq_refl Hrest eq_refl).
Defined.


(** The run of Scenario F under limit 2 ends within 21 steps, and a
    returning schedule exists. *)
Lemma executeTestsConcurrently_returns_witness :
  0 < 2
  ∧ length scheduleF ≤ 1 + 10 * length (config.Tests (config.Spec_ suiteF))
  ∧ ∃ schedule rs w',
      main.executeTestsConcurrently schedule suiteF 2 worldF = Some (rs, w').
Proof.
  assert (0 < 2) as Hpos by lia.
  destruct (executeTestsConcurrently_returns suiteF 2 worldF Hpos)
    as [Hbounded Hreturns].
  assert (main.run "http://target.test" 2 scheduleF (main.initial suiteF worldF)
            = Some (stateAfter 2 scheduleF)) as Hrun by (vm_compute; reflexivity).
  split; [exact Hpos | split; [|exact Hreturns]].
  exact (proj1 (Hbounded scheduleF (stateAfter 2 scheduleF) Hrun)).
Defined.

(** *** The reports of the runs of Scenario F *)

(** The concurrent run of Scenario F returns the report of the second test
    alone, and it is that test's own report. *)
Lemma executeTestsConcurrently_reports_witness :
  main.executeTestsConcurrently scheduleF suiteF 2 worldF
    = Some (main.reports (stateAfter 2 scheduleF), main.theWorld (stateAfter 2 scheduleF))
  ∧ ∃ ts ordered,
      ts `sublist_of` [testF1; testF2]
      ∧ main.reports (stateAfter 2 scheduleF) ≡ₚ ordered
      ∧ Forall2 belongsTo ts ordered
      ∧ reporter.TestName <$> main.reports (stateAfter 2 scheduleF) ≡ₚ config.Name <$> ts
      ∧ (neverFails → ts = [testF1; testF2]).
Proof.
  assert (main.executeTestsConcurrently scheduleF suiteF 2 worldF
          = Some (main.reports (stateAfter 2 scheduleF),
                  main.theWorld (stateAfter 2 scheduleF))) as Hrun
    by (vm_compute; reflexivity).
  split; [exact Hrun |].
  exact (executeTestsConcurrently_reports scheduleF suiteF 2 worldF _ _ Hrun).
Defined.

(** The summary of the sequential run of Scenario F. *)
Lemma executeTests_summary_witness :
  ∃ suiteReport,
    main.executeTests 1 [] [suiteF] worldF = Some (suiteReport, 0%Z, worldF2)
    ∧ reporter.PassedTests suiteReport + reporter.FailedTests suiteReport
      = reporter.TotalTests suiteReport
    ∧ Forall (λ r, ∃ st, st ∈ [suiteF]
                         ∧ reportOfSuite (golang.perIteration = true ∨ (1 < 1)%Z) st r)
        (reporter.Tests suiteReport).
Proof.
  destruct (main.executeTests 1 [] [suiteF] worldF) as [[[suiteReport code] w']|] eqn:Hrun;
    [|vm_compute in Hrun; discriminate].
  assert (code = 0%Z ∧ w' = worldF2) as [-> ->].
  { vm_compute in Hrun. injection Hrun as _ <- <-. by split. }
  exists suiteReport. split; [reflexivity |].
  destruct (executeTests_summary 1 [] [suiteF] worldF worldF2 suiteReport 0 Hrun)
    as (Hbelong & _ & Hcounts & _).
  split; [exact Hcounts | exact Hbelong].
Defined.

(** In the steady world no request fails, and a sequential run reports
    every test, in order. *)
Example steady_run :
  neverFails (wld := steady)
  ∧ reporter.TestName
      <$> (main.executeTestsSequentially (wld := steady) suiteF 0%Z).1
    = ["unreachable"; "healthy"].
Proof. split; [intros t baseURL w; by eexists _, _ | reflexivity]. Qed.

(** *** Scenario F under a context *)

(** Under the background context the run of Scenario F is that of
    [runTests]. *)
Lemma runTestsWithContext_uncancelled_witness :
  (∀ w, world.ctx_Err (Ctx := background) w = None)
  ∧ (∀ t url w, world.ExecuteTestCtx (Ctx := background) t url w
                = world.ExecuteTest t url w)
  ∧ client.runTestsWithContext (ctx := background) suiteF worldF
    = (inl (client.runTests suiteF worldF).1, (client.runTests suiteF worldF).2).
Proof.
  assert (∀ w, world.ctx_Err (Ctx := background) w = None) as Hnever by reflexivity.
  assert (∀ t url w, world.ExecuteTestCtx (Ctx := background) t url w
                     = world.ExecuteTest t url w) as Hsame by reflexivity.
  split; [exact Hnever | split; [exact Hsame |]].
  exact (runTestsWithContext_uncancelled (ctx := background) suiteF worldF Hnever Hsame).
Defined.

(** With a deadline at 5 ms the context is done when the first exchange of
    Scenario F has ended: the call returns the error of the context and the
    result of the first test is lost. *)
Example deadline_drops_results :
  client.runTestsWithContext (ctx := withDeadline 5000000) suiteF worldF
  = (inr "context deadline exceeded", worldF1).
Proof. reflexivity. Qed.

(** *** Headers and files *)

#[local] Existing Instance reference.headerOrder.
#[local] Existing Instance filesT.
#[local] Existing Instance decoderT.

(** [TestExtractHeaders]. *)
Example extractHeaders_test :
  executor.extractHeaders rawHeaderT !! "Set-Cookie" = Some "session=abc123, user=test"
  ∧ executor.extractHeaders rawHeaderT !! "Content-Type" = Some "application/json"
  ∧ executor.extractHeaders rawHeaderT !! "X-Custom" = Some "value1"
  ∧ executor.extractHeaders rawHeaderT !! "Accept" = None.
Proof. vm_compute. repeat split. Qed.

(** An expected text can be met across two values of a header, through the
    separator the snapshot puts between them. *)
Example header_met_across_values :
  headerError (responseWith rawHeaderT) ("Set-Cookie", "abc123, user") = None
  ∧ golang.Contains "session=abc123" "abc123, user" = false
  ∧ golang.Contains "user=test" "abc123, user" = false.
Proof. vm_compute. repeat split. Qed.

(** What [filepath.Ext] makes of some paths. *)
Example Ext_edge_cases :
  parser.Ext "suites/a.yaml" = ".yaml"
  ∧ parser.Ext "suites/a.yaml.bak" = ".bak"
  ∧ parser.Ext "suites/old.yaml/readme" = ""
  ∧ parser.Ext "suites/A.YAML" = ".YAML"
  ∧ parser.Ext ".yml" = ".yml"
  ∧ parser.Ext "" = "".
Proof. vm_compute. repeat split. Qed.

(** The directory [suites] yields the suite of [a.yaml] alone; in [broken]
    the file that does not parse ends the walk before [a.yaml] is read; a
    path that does not exist yields the error of the walk. *)
Example ParseDirectory_cases :
  parser.ParseDirectory "suites" = inl [suiteF]
  ∧ parser.ParseDirectory "broken"
    = inr "failed to parse directory broken: failed to parse suites/b.yml: failed to parse YAML: yaml: line 1: did not find expected node content"
  ∧ parser.ParseDirectory "nowhere"
    = inr "failed to parse directory nowhere: lstat nowhere: no such file or directory".
Proof. vm_compute. repeat split. Qed.

(** [RunTestDirectory] on [suites] is the run of Scenario F under the name
    of the combined suite. *)
Example RunTestDirectory_suites :
  match (client.RunTestDirectory "suites" worldF).1 with
  | inl result =>
      client.SuiteName result = "Combined Tests"
      ∧ client.TotalTests result = 2
      ∧ client.PassedTests result = 1
      ∧ client.FailedTests result = 1
  | inr _ => False
  end.
Proof. vm_compute. repeat split. Qed.

(** *** The commands *)

(** Against a target that refuses every connection, the sequential run of
    Scenario F ends with an empty report and the exit status 0. *)
Lemma executeTests_unreachable_target_witness :
  alwaysFails (wld := refusing)
  ∧ ∃ suiteReport w',
      main.executeTests (wld := refusing) 1 [] [suiteF] 0%Z = Some (suiteReport, 0%Z, w')
      ∧ reporter.TotalTests suiteReport = 0.
Proof.
  assert (alwaysFails (wld := refusing)) as Hfails
    by (intros t baseURL w; by eexists _, _).
  split; [exact Hfails |].
  destruct (main.executeTests (wld := refusing) 1 [] [suiteF] 0%Z)
    as [[[suiteReport code] w']|] eqn:Hrun; [|vm_compute in Hrun; discriminate].
  destruct (executeTests_unreachable_target (wld := refusing) 1 [] [suiteF] 0%Z w'
              suiteReport code Hfails Hrun) as (_ & Htotal & _ & _ & ->).
  by exists suiteReport, w'.
Defined.

(** The command [run] on the directory [suites]: [validate] accepts the
    directory, the request of the first test of Scenario F fails and leaves
    no report, the second test passes, and the process exits with status
    0. *)
Lemma runTests_exit_status_witness :
  ∃ e, main.runTests 1 [] "suites" worldF = Some (e, worldF2)
       ∧ main.exitStatus e = 0%Z
       ∧ reporter.TestName <$> reportsOf e = ["healthy"]
       ∧ main.validateTests "suites" = None.
Proof.
  destruct (main.runTests 1 [] "suites" worldF) as [[e w']|] eqn:Hrun;
    [|vm_compute in Hrun; discriminate].
  assert (main.exitStatus e = 0%Z ∧ reporter.TestName <$> reportsOf e = ["healthy"]
          ∧ w' = worldF2) as (Hcode & Hnames & ->).
  { vm_compute in Hrun. injection Hrun as <- <-. by split. }
  exists e. split; [reflexivity |]. split; [exact Hcode |]. split; [exact Hnames |].
  destruct (runTests_exit_status 1 [] "suites" worldF worldF2 e Hrun) as (Hiff & _ & _).
  by apply Hiff in Hcode as [Hvalid _].
Defined.

(** A path that is not a directory is parsed whatever its extension, and
    its error comes back as it is; the error of a directory comes back
    behind the text of the command.  No request is sent in either case. *)
Example commands_on_unreadable_paths :
  main.runTests 1 [] "suites/notes.txt" worldF
  = Some (main.ReturnsError
            "failed to parse YAML: yaml: line 1: did not find expected node content",
          worldF)
  ∧ main.validateTests "suites/notes.txt"
    = Some "failed to parse YAML: yaml: line 1: did not find expected node content"
  ∧ main.runTests 1 [] "nowhere" worldF
    = Some (main.ReturnsError
              "failed to read file nowhere: open nowhere: no such file or directory",
            worldF)
  ∧ main.runTests 1 [] "broken" worldF
    = Some (main.ReturnsError
              "failed to parse tests: failed to parse directory broken: failed to parse suites/b.yml: failed to parse YAML: yaml: line 1: did not find expected node content",
            worldF)
  ∧ main.validateTests "broken"
    = Some "validation failed: failed to parse directory broken: failed to parse suites/b.yml: failed to parse YAML: yaml: line 1: did not find expected node content".
Proof. vm_compute. repeat split. Qed.

(** *** The outcome of the failed test in the concurrent run *)

(** Scenario F against a target whose path [/down] refuses every
    connection, with limit 2: the caller returns one report for the two
    tests of the suite. *)
Lemma executeTestsConcurrently_transport_failure_witness :
  testF1 ∈ config.Tests (config.Spec_ suiteF)
  ∧ (∀ w0, ∃ err w1,
       world.ExecuteTest (World := downOnly) testF1 "http://target.test" w0
       = (inr err, w1))
  ∧ ∃ rs w',
      main.executeTestsConcurrently (wld := downOnly) scheduleF suiteF 2 0%Z
      = Some (rs, w')
      ∧ reporter.TestName <$> rs = ["healthy"]
      ∧ length rs < length (config.Tests (config.Spec_ suiteF)).
Proof.
  assert (testF1 ∈ config.Tests (config.Spec_ suiteF)) as Hin by (by left).
  assert (∀ w0 : world.W (World := downOnly), ∃ err w1,
            world.ExecuteTest (World := downOnly) testF1 "http://target.test" w0
            = (inr err, w1)) as Hfails
    by (intros w0; by eexists _, _).
  split; [exact Hin | split; [exact Hfails |]].
  destruct (main.executeTestsConcurrently (wld := downOnly) scheduleF suiteF 2 0%Z)
    as [[rs w']|] eqn:Hrun; [|vm_compute in Hrun; discriminate].
  exists rs, w'. split; [reflexivity |]. split.
  - vm_compute in Hrun. injection Hrun as <- _. reflexivity.
  - exact (proj1 (executeTestsConcurrently_transport_failure (wld := downOnly)
                    scheduleF suiteF 2 testF1 0%Z w' rs Hin Hfails Hrun)).
Defined.

(** *** The requests seen through the reports of a sequential run *)

(** Scenario F against a target that answers every request: the run has a
    report for each of the two tests.  With one variable for the loop both
    reports show the request of the second test; with a variable for each
    iteration each report shows the request of its own test. *)
Example range_variable_shared :
  reporter.TestName
    <$> (main.executeTestsSequentially (wld := steady) suiteF 0%Z).1
  = ["unreachable"; "healthy"]
  ∧ reporter.Request
      <$> (main.executeTestsSequentially (wld := steady) (lv := reference.oneVariable)
             suiteF 0%Z).1
    = [getRequest "/up"; getRequest "/up"]
  ∧ reporter.Request
      <$> (main.executeTestsSequentially (wld := steady)
             (lv := reference.variablePerIteration) suiteF 0%Z).1
    = [getRequest "/down"; getRequest "/up"].
Proof. vm_compute. repeat split. Qed.

(** *** The two sequential runners with their executors *)

(** Scenario F, whose target has a timeout of 30 seconds, and a client with
    the default configuration, whose timeout is 30 seconds as well: both
    runners end in the same world and count the same passed tests. *)
Lemma sequential_runners_agree_witness :
  executor.clientTimeout (client.Timeout (client.NewClient defaults))
    = executor.clientTimeout (config.Timeout (config.Target_ (config.Spec_ suiteF)))
  ∧ (commandLineRun (exs := timed) suiteF 0%Z).2
    = (clientRun (exs := timed) defaults suiteF 0%Z).2
  ∧ reporter.TestName <$> (commandLineRun (exs := timed) suiteF 0%Z).1
    = ["unreachable"; "healthy"]
  ∧ reporter.PassedTests
      (reporter.GenerateSuiteReport "All Tests"
         (commandLineRun (exs := timed) suiteF 0%Z).1 0 0)
    = client.PassedTests (clientRun (exs := timed) defaults suiteF 0%Z).1.
Proof.
  assert (executor.clientTimeout (client.Timeout (client.NewClient defaults))
          = executor.clientTimeout
              (config.Timeout (config.Target_ (config.Spec_ suiteF)))) as Htimeout
    by reflexivity.
  destruct (sequential_runners_agree (exs := timed) defaults suiteF 0%Z 0 0 Htimeout)
    as (Hworld & _ & _ & _ & Hpassed & _).
  split; [exact Htimeout | split; [exact Hworld | split; [|exact Hpassed]]].
  vm_compute. reflexivity.
Defined.

(** Without the same timeout the runners need not agree: on a suite whose
    target has a timeout of one second, the executor of the command-line
    runner gives up on the slow test, which gets no report, while the client
    with the default configuration waits for the answer and counts two
    passed tests. *)
Example runners_differ_by_timeout :
  reporter.TestName <$> (commandLineRun (exs := timed) suiteSlow 0%Z).1 = ["healthy"]
  ∧ client.PassedTests (clientRun (exs := timed) defaults suiteSlow 0%Z).1 = 2
  ∧ (commandLineRun (exs := timed) suiteSlow 0%Z).2 = 1001000000%Z
  ∧ (clientRun (exs := timed) defaults suiteSlow 0%Z).2 = 2001000000%Z.
Proof. vm_compute. repeat split. Qed.
